(** * Projection and aggregation engine of the financial calendar

    A shallow embedding of [database.py] (the SQLite store reached through
    its query functions), of [engine.py] ([run_projection],
    [get_calendar_data]) and of the first view window of [Home.py],
    followed by their properties.

    Modelling conventions.
    - A date is the triple that an ISO string [YYYY-MM-DD] spells and that
      [datetime.date] holds.  SQLite compares the strings, Python compares the
      triples, pandas compares timestamps: on calendar dates the three orders
      are the lexicographic order on (year, month, day).  Years are not
      bounded here (Python stops at 9999).
    - A table is the list of its rows in insertion order.  A function that
      carries the name of a function of [database.py] is the effect of
      its SQL statements when SQLite accepts them.  The constraints of
      the schema (the CHECK on the type of a category, the foreign keys
      that [create_connection] turns on) are in the calls ([add_category_call]
      and the like), which commit that effect or raise
      [sqlite3.IntegrityError].
    - The store holds a monetary amount as the integer number of its
      minor units: the decimal that was entered.  [get_calendar_data]
      and [daily_summary] add these integers exactly, which is the
      arithmetic the balance is specified in; the days and flags of the
      calendar do not depend on the arithmetic.  The code holds an
      amount as the binary64 number nearest to the decimal and adds in
      binary64: module [Binary64] follows [get_calendar_data] with that
      arithmetic on the same store. *)

From Stdlib Require Import ZArith List String Bool Lia Sorted Permutation SpecFloat.
Import ListNotations.
Open Scope Z_scope.

(** ** Calendar dates *)

Record Date := mkdate { year : Z; month : Z; day : Z }.

Definition is_leap (y : Z) : bool :=
  ((y mod 4 =? 0) && negb (y mod 100 =? 0)) || (y mod 400 =? 0).

(** [calendar.monthrange(year, month)[1]] *)
Definition days_in_month (y m : Z) : Z :=
  if m =? 2 then (if is_leap y then 29 else 28)
  else if (m =? 4) || (m =? 6) || (m =? 9) || (m =? 11) then 30
  else 31.

(** What [strptime(_, "%Y-%m-%d")] accepts (apart from the year range). *)
Definition valid_date (d : Date) : bool :=
  (1 <=? month d) && (month d <=? 12) &&
  (1 <=? day d) && (day d <=? days_in_month (year d) (month d)).

Definition date_eqb (a b : Date) : bool :=
  (year a =? year b) && (month a =? month b) && (day a =? day b).

Definition date_ltb (a b : Date) : bool :=
  (year a <? year b) ||
  ((year a =? year b) &&
   ((month a <? month b) || ((month a =? month b) && (day a <? day b)))).

Definition date_leb (a b : Date) : bool := negb (date_ltb b a).

Definition date_lt (a b : Date) : Prop := date_ltb a b = true.
Definition date_le (a b : Date) : Prop := date_leb a b = true.

(** [d + timedelta(days=1)] on a calendar date. *)
Definition next_day (d : Date) : Date :=
  if day d <? days_in_month (year d) (month d)
  then mkdate (year d) (month d) (day d + 1)
  else if month d <? 12
       then mkdate (year d) (month d + 1) 1
       else mkdate (year d + 1) 1 1.

(** [d + relativedelta(days=n)], [n] a small positive count. *)
Definition add_days (n : nat) (d : Date) : Date := Nat.iter n next_day d.

(** [d + relativedelta(months=n)] for [1 <= n <= 12], as dateutil computes
    it: the month is advanced, the year carried, and the day clamped to the
    length of the target month. *)
Definition add_months (n : Z) (d : Date) : Date :=
  let m := month d + n in
  let y' := if 12 <? m then year d + 1 else year d in
  let m' := if 12 <? m then m - 12 else m in
  mkdate y' m' (Z.min (days_in_month y' m') (day d)).

(** A linear key that grows with the date; it bounds the number of days
    between two dates. *)
Definition date_key (d : Date) : Z :=
  (year d * 12 + (month d - 1)) * 31 + (day d - 1).

(** [pd.date_range(start, end, freq='D')]: the consecutive calendar days
    from [start] while not after [end]. *)
Fixpoint days_from (n : nat) (d e : Date) : list Date :=
  match n with
  | O => []
  | S n' => if date_leb d e then d :: days_from n' (next_day d) e else []
  end.

Definition date_range (s e : Date) : list Date :=
  days_from (Z.to_nat (date_key e - date_key s + 1)) s e.


(** ** The store ([database.py]) *)

(** The functions of this section are the effects of the SQL statements
    of the functions of [database.py] that carry their names, when
    SQLite accepts the statements.  The constraints under which it does,
    and what a call leaves when it does not, follow in the section on
    the calls ([add_category_call] and the like). *)

(** Rows of the tables created by [create_tables]. *)

Record Settings := mkSettings {
  us_user_id : string;
  start_balance : Z;
  start_date : Date }.

Record Category := mkCategory {
  category_id : Z;
  c_user_id : string;
  c_name : string;
  c_type : string }.

Record Schedule := mkSchedule {
  schedule_id : Z;
  s_user_id : string;
  s_category_id : option Z;
  s_description : string;
  s_amount : Z;
  frequency : string;
  s_start_date : Date;
  s_end_date : option Date }.

Record Transaction := mkTransaction {
  transaction_id : Z;
  t_user_id : string;
  t_schedule_id : option Z;
  t_category_id : option Z;
  t_date : Date;
  t_description : string;
  t_amount : Z;
  is_confirmed : Z }.

(** The connection: the five tables and, for the AUTOINCREMENT keys, the
    largest key handed out so far. *)
Record Store := mkStore {
  users : list string;
  user_settings : list Settings;
  categories : list Category;
  scheduled_transactions : list Schedule;
  transactions : list Transaction;
  seq_categories : Z;
  seq_schedules : Z;
  seq_transactions : Z }.

Definition empty_store : Store := mkStore [] [] [] [] [] 0 0 0.

Definition opt_Z_eqb (a : option Z) (b : Z) : bool :=
  match a with Some x => x =? b | None => false end.

(** [LEFT JOIN categories c ON t.category_id = c.category_id]: the name and
    type of the category with that key, whoever owns it. *)
Definition join_category (st : Store) (cid : option Z) : option (string * string) :=
  match find (fun c => opt_Z_eqb cid (category_id c)) (categories st) with
  | Some c => Some (c_name c, c_type c)
  | None => None
  end.

Section InsertionSort.
Context {A : Type} (before : A -> A -> bool).

Fixpoint insert_by (x : A) (l : list A) : list A :=
  match l with
  | [] => [x]
  | y :: r => if before x y then x :: l else y :: insert_by x r
  end.

(** [ORDER BY]: a stable sort of the selected rows. *)
Definition order_by (l : list A) : list A := fold_right insert_by [] l.
End InsertionSort.

Definition get_or_create_user (st : Store) (today : Date) (user_id : string) : Store :=
  if existsb (String.eqb user_id) (users st) then st
  else
    let n := seq_categories st in
    mkStore (users st ++ [user_id])
            (user_settings st ++ [mkSettings user_id 0 today])
            (categories st ++
               [ mkCategory (n + 1) user_id "Paycheck" "credit";
                 mkCategory (n + 2) user_id "Rent" "debit";
                 mkCategory (n + 3) user_id "Groceries" "debit";
                 mkCategory (n + 4) user_id "Utilities" "debit";
                 mkCategory (n + 5) user_id "Other" "debit" ])
            (scheduled_transactions st) (transactions st)
            (n + 5) (seq_schedules st) (seq_transactions st).

(** *** Categories *)

Definition get_categories (st : Store) (user_id : string) : list Category :=
  order_by (fun a b => String.leb (c_name a) (c_name b))
           (filter (fun c => String.eqb (c_user_id c) user_id) (categories st)).

Definition add_category (st : Store) (user_id name type : string) : Store :=
  let n := seq_categories st + 1 in
  mkStore (users st) (user_settings st)
          (categories st ++ [mkCategory n user_id name type])
          (scheduled_transactions st) (transactions st)
          n (seq_schedules st) (seq_transactions st).

Definition delete_category (st : Store) (cid : Z) (user_id : string) : Store :=
  mkStore (users st) (user_settings st)
          (filter (fun c => negb ((category_id c =? cid) && String.eqb (c_user_id c) user_id))
                  (categories st))
          (map (fun s =>
                  if opt_Z_eqb (s_category_id s) cid && String.eqb (s_user_id s) user_id
                  then mkSchedule (schedule_id s) (s_user_id s) None (s_description s)
                                  (s_amount s) (frequency s) (s_start_date s) (s_end_date s)
                  else s)
               (scheduled_transactions st))
          (map (fun t =>
                  if opt_Z_eqb (t_category_id t) cid && String.eqb (t_user_id t) user_id
                  then mkTransaction (transaction_id t) (t_user_id t) (t_schedule_id t) None
                                     (t_date t) (t_description t) (t_amount t) (is_confirmed t)
                  else t)
               (transactions st))
          (seq_categories st) (seq_schedules st) (seq_transactions st).

(** *** Transactions *)

Definition add_transaction (st : Store) (user_id : string) (date : Date)
    (category_id : option Z) (description : string) (amount : Z)
    (is_confirmed : Z) (schedule_id : option Z) : Store * Z :=
  let n := seq_transactions st + 1 in
  (mkStore (users st) (user_settings st) (categories st)
           (scheduled_transactions st)
           (transactions st ++
              [mkTransaction n user_id schedule_id category_id date description
                             amount is_confirmed])
           (seq_categories st) (seq_schedules st) n,
   n).

Definition update_transaction (st : Store) (tid : Z) (user_id : string)
    (date : Date) (category_id : option Z) (description : string) (amount : Z)
    (is_confirmed : Z) : Store :=
  mkStore (users st) (user_settings st) (categories st)
          (scheduled_transactions st)
          (map (fun t =>
                  if (transaction_id t =? tid) && String.eqb (t_user_id t) user_id
                  then mkTransaction (transaction_id t) (t_user_id t) (t_schedule_id t)
                                     category_id date description amount is_confirmed
                  else t)
               (transactions st))
          (seq_categories st) (seq_schedules st) (seq_transactions st).

Definition delete_transaction (st : Store) (tid : Z) (user_id : string) : Store :=
  mkStore (users st) (user_settings st) (categories st)
          (scheduled_transactions st)
          (filter (fun t => negb ((transaction_id t =? tid) && String.eqb (t_user_id t) user_id))
                  (transactions st))
          (seq_categories st) (seq_schedules st) (seq_transactions st).

Definition get_transactions_for_day (st : Store) (user_id : string) (date : Date)
  : list (Transaction * option (string * string)) :=
  map (fun t => (t, join_category st (t_category_id t)))
      (filter (fun t => String.eqb (t_user_id t) user_id && date_eqb (t_date t) date)
              (transactions st)).

(** [ORDER BY t.date, t.transaction_id] *)
Definition tx_before (a b : Transaction) : bool :=
  date_ltb (t_date a) (t_date b) ||
  (date_eqb (t_date a) (t_date b) && (transaction_id a <=? transaction_id b)).

Definition get_all_transactions_after (st : Store) (user_id : string) (date : Date)
  : list (Transaction * option (string * string)) :=
  map (fun t => (t, join_category st (t_category_id t)))
      (order_by tx_before
         (filter (fun t => String.eqb (t_user_id t) user_id && date_leb date (t_date t))
                 (transactions st))).

(** *** Scheduled transactions *)

Definition add_scheduled_transaction (st : Store) (user_id : string)
    (category_id : option Z) (description : string) (amount : Z)
    (frequency : string) (start_date : Date) (end_date : option Date) : Store * Z :=
  let n := seq_schedules st + 1 in
  (mkStore (users st) (user_settings st) (categories st)
           (scheduled_transactions st ++
              [mkSchedule n user_id category_id description amount frequency
                          start_date end_date])
           (transactions st)
           (seq_categories st) n (seq_transactions st),
   n).

Definition get_scheduled_transactions (st : Store) (user_id : string)
  : list (Schedule * option (string * string)) :=
  map (fun s => (s, join_category st (s_category_id s)))
      (filter (fun s => String.eqb (s_user_id s) user_id) (scheduled_transactions st)).

Definition delete_scheduled_transaction (st : Store) (sid : Z) (user_id : string)
    (delete_future : bool) : Store :=
  mkStore (users st) (user_settings st) (categories st)
          (filter (fun s => negb ((schedule_id s =? sid) && String.eqb (s_user_id s) user_id))
                  (scheduled_transactions st))
          (if delete_future
           then filter (fun t => negb (opt_Z_eqb (t_schedule_id t) sid
                                       && String.eqb (t_user_id t) user_id
                                       && (is_confirmed t =? 0)))
                       (transactions st)
           else transactions st)
          (seq_categories st) (seq_schedules st) (seq_transactions st).

Definition date_max (a b : Date) : Date := if date_ltb a b then b else a.

(** SQL [MAX] over a column: NULL on no rows. *)
Fixpoint max_date (l : list Date) : option Date :=
  match l with
  | [] => None
  | d :: r => match max_date r with
              | Some m => Some (date_max d m)
              | None => Some d
              end
  end.

Definition get_last_generated_date (st : Store) (user_id : string) (sid : Z)
  : option Date :=
  max_date (map t_date
    (filter (fun t => String.eqb (t_user_id t) user_id && opt_Z_eqb (t_schedule_id t) sid)
            (transactions st))).

(** *** User settings *)

Definition get_user_settings (st : Store) (user_id : string) : option (Z * Date) :=
  match find (fun r => String.eqb (us_user_id r) user_id) (user_settings st) with
  | Some r => Some (start_balance r, start_date r)
  | None => None
  end.

Definition update_user_settings (st : Store) (user_id : string)
    (start_balance : Z) (start_date : Date) : Store :=
  mkStore (users st)
          (map (fun r => if String.eqb (us_user_id r) user_id
                         then mkSettings (us_user_id r) start_balance start_date
                         else r)
               (user_settings st))
          (categories st) (scheduled_transactions st) (transactions st)
          (seq_categories st) (seq_schedules st) (seq_transactions st).

(** ** The engine ([engine.py]) *)

(** *** [run_projection] *)

(** The [if]/[elif] chain on the rule's frequency, written twice in the
    source (before the loop and at the end of its body): the date moves by
    the rule's period, and stays where it is for any other string. *)
Definition advance (frequency : string) (current_date : Date) : Date :=
  if String.eqb frequency "daily" then add_days 1 current_date
  else if String.eqb frequency "weekly" then add_days 7 current_date
  else if String.eqb frequency "bi-weekly" then add_days 14 current_date
  else if String.eqb frequency "monthly" then add_months 1 current_date
  else if String.eqb frequency "bi-monthly" then add_months 2 current_date
  else current_date.

Definition known_frequency (frequency : string) : bool :=
  String.eqb frequency "daily" || String.eqb frequency "weekly" ||
  String.eqb frequency "bi-weekly" || String.eqb frequency "monthly" ||
  String.eqb frequency "bi-monthly".

(** The variables the [while] loop changes. *)
Record LoopState := mkLoop { current_date : Date; conn : Store }.

(** One pass through the body of the [while] loop. *)
Definition loop_body (user_id : string) (schedule : Schedule) (s : LoopState) : LoopState :=
  mkLoop
    (advance (frequency schedule) (current_date s))
    (if date_leb (s_start_date schedule) (current_date s)
     then fst (add_transaction (conn s) user_id (current_date s)
                 (s_category_id schedule) (s_description schedule)
                 (s_amount schedule) 0 (Some (schedule_id schedule)))
     else conn s).

(** [while current_date <= loop_end_date: ...]; [None] when the loop is
    still running after [fuel] tests of its condition. *)
Fixpoint while_loop (fuel : nat) (user_id : string) (schedule : Schedule)
    (loop_end_date : Date) (s : LoopState) : option Store :=
  match fuel with
  | O => None
  | S fuel' =>
      if date_leb (current_date s) loop_end_date
      then while_loop fuel' user_id schedule loop_end_date (loop_body user_id schedule s)
      else Some (conn s)
  end.

(** The state of the loop after [n] passes, whether or not the condition
    still holds. *)
Fixpoint iterate_body (n : nat) (user_id : string) (schedule : Schedule)
    (s : LoopState) : LoopState :=
  match n with
  | O => s
  | S n' => iterate_body n' user_id schedule (loop_body user_id schedule s)
  end.

Definition loop_end (schedule : Schedule) (projection_end_date : Date) : Date :=
  match s_end_date schedule with
  | Some rule_end_date =>
      if date_ltb rule_end_date projection_end_date then rule_end_date
      else projection_end_date
  | None => projection_end_date
  end.

Definition resume_date (st : Store) (user_id : string) (schedule : Schedule) : Date :=
  advance (frequency schedule)
    (match get_last_generated_date st user_id (schedule_id schedule) with
     | Some last_gen_date => last_gen_date
     | None => s_start_date schedule
     end).

(** The body of [for schedule in schedules]. *)
Definition expand_schedule (fuel : nat) (st : Store) (user_id : string)
    (schedule : Schedule) (projection_end_date : Date) : option Store :=
  while_loop fuel user_id schedule (loop_end schedule projection_end_date)
    (mkLoop (resume_date st user_id schedule) st).

Fixpoint expand_all (fuel : nat) (st : Store) (user_id : string)
    (schedules : list Schedule) (projection_end_date : Date) : option Store :=
  match schedules with
  | [] => Some st
  | schedule :: rest =>
      match expand_schedule fuel st user_id schedule projection_end_date with
      | Some st' => expand_all fuel st' user_id rest projection_end_date
      | None => None
      end
  end.

(** The rules are read once, before the first of them is expanded; only
    the first eight columns of each joined row are used. *)
Definition run_projection (fuel : nat) (st : Store) (user_id : string)
    (projection_end_date : Date) : option Store :=
  expand_all fuel st user_id
    (map fst (get_scheduled_transactions st user_id)) projection_end_date.

(** *** [get_calendar_data] *)

(** The steps of [get_calendar_data] on amounts in minor units, added
    exactly.  [Binary64.get_calendar_data] below follows the same steps
    with the binary64 numbers and additions of pandas. *)

(** A row of the data frame that is returned.  The flat series of a user
    without transactions has no [net_change] column. *)
Record DailySummary := mkDaily {
  date : Date;
  credits : Z;
  debits : Z;
  is_actual : bool;
  net_change : option Z;
  balance : Z }.

(** A row of [daily_summary]. *)
Record DayGroup := mkGroup {
  g_date : Date;
  g_credits : Z;
  g_debits : Z;
  g_is_actual : bool;
  g_net_change : Z }.

Definition sum_Z (l : list Z) : Z := fold_right Z.add 0 l.

Definition credit_of (t : Transaction) : Z := if 0 <? t_amount t then t_amount t else 0.
Definition debit_of (t : Transaction) : Z := if t_amount t <=? 0 then t_amount t else 0.

Definition on_day (d : Date) (df : list Transaction) : list Transaction :=
  filter (fun t => date_eqb (t_date t) d) df.

Definition min_date_of (d0 : Date) (l : list Date) : Date :=
  fold_right (fun d m => if date_ltb d m then d else m) d0 l.

Definition max_date_of (d0 : Date) (l : list Date) : Date :=
  fold_right date_max d0 l.

(** [df.groupby(pd.Grouper(key='date', freq='D')).agg(...)]: one group per
    day from the earliest to the latest transaction date; a day of that
    span without transactions is an empty group, whose sums are 0 and on
    which [(x == 1).all()] is true. *)
Definition daily_summary (df : list Transaction) : list DayGroup :=
  match df with
  | [] => []
  | t0 :: _ =>
      let dates := map t_date df in
      map (fun d =>
             let g := on_day d df in
             let c := sum_Z (map credit_of g) in
             let b := sum_Z (map debit_of g) in
             mkGroup d c b (forallb (fun t => is_confirmed t =? 1) g) (c + b))
          (date_range (min_date_of (t_date t0) dates) (max_date_of (t_date t0) dates))
  end.

(** [pd.merge(calendar_df, daily_summary, on='date', how='left').fillna(0)]
    for one day of the calendar: a day that has no group gets 0 in every
    column, and the 0 in [is_actual] reads as false through
    [astype(bool)]. *)
Definition merge_day (summary : list DayGroup) (d : Date) : DayGroup :=
  match find (fun g => date_eqb (g_date g) d) summary with
  | Some g => g
  | None => mkGroup d 0 0 false 0
  end.

(** [Series.cumsum] *)
Fixpoint cumsum (acc : Z) (l : list Z) : list Z :=
  match l with
  | [] => []
  | x :: r => (acc + x) :: cumsum (acc + x) r
  end.

Definition in_view (view_start view_end : Date) (d : Date) : bool :=
  date_leb view_start d && date_leb d view_end.

Definition get_calendar_data (st : Store) (user_id : string)
    (view_start_date view_end_date : Date) : list DailySummary :=
  match get_user_settings st user_id with
  | None => []
  | Some (start_balance, start_date) =>
      let all_transactions := get_all_transactions_after st user_id start_date in
      match all_transactions with
      | [] =>
          map (fun d => mkDaily d 0 0 true None start_balance)
              (date_range view_start_date view_end_date)
      | _ :: _ =>
          let df := map fst all_transactions in
          let summary := daily_summary df in
          let full_date_range := date_range start_date view_end_date in
          let calendar_df := map (merge_day summary) full_date_range in
          let balance :=
            map (Z.add start_balance) (cumsum 0 (map g_net_change calendar_df)) in
          map (fun gb =>
                 mkDaily (g_date (fst gb)) (g_credits (fst gb)) (g_debits (fst gb))
                         (g_is_actual (fst gb)) (Some (g_net_change (fst gb))) (snd gb))
              (filter (fun gb => in_view view_start_date view_end_date (g_date (fst gb)))
                      (combine calendar_df balance))
      end
  end.

(** ** Vocabulary of the statements *)

(** Every stored occurrence carries a calendar date. *)
Definition dates_valid (st : Store) : Prop :=
  forall t, In t (transactions st) -> valid_date (t_date t) = true.

(** The occurrences of a user dated from [a] to [d] inclusive. *)
Definition occurrences_between (st : Store) (user_id : string) (a d : Date)
  : list Transaction :=
  filter (fun t => String.eqb (t_user_id t) user_id
                   && date_leb a (t_date t) && date_leb (t_date t) d)
         (transactions st).

(** The occurrences of a user dated [d]. *)
Definition occurrences_on (st : Store) (user_id : string) (d : Date)
  : list Transaction :=
  filter (fun t => String.eqb (t_user_id t) user_id && date_eqb (t_date t) d)
         (transactions st).

(** The rows [get_all_transactions_after] selects, before the join. *)
Definition selected_after (st : Store) (user_id : string) (a : Date)
  : list Transaction :=
  filter (fun t => String.eqb (t_user_id t) user_id && date_leb a (t_date t))
         (transactions st).

(** The group of a day, as the grouping computes it. *)
Definition group_of (df : list Transaction) (d : Date) : DayGroup :=
  let g := on_day d df in
  let c := sum_Z (map credit_of g) in
  let b := sum_Z (map debit_of g) in
  mkGroup d c b (forallb (fun t => is_confirmed t =? 1) g) (c + b).

(** The days that have a group are those of the span of the data. *)
Definition in_span (df : list Transaction) (d : Date) : bool :=
  match df with
  | [] => false
  | t0 :: _ =>
      existsb (date_eqb d)
        (date_range (min_date_of (t_date t0) (map t_date df))
                    (max_date_of (t_date t0) (map t_date df)))
  end.


(** The occurrences stored for a rule of a user. *)
Definition rule_rows (st : Store) (user_id : string) (sid : Z) : list Transaction :=
  filter (fun t => String.eqb (t_user_id t) user_id && opt_Z_eqb (t_schedule_id t) sid)
         (transactions st).

(** The rows of a user, table by table. *)
Definition settings_of (st : Store) (u : string) : list Settings :=
  filter (fun r => String.eqb (us_user_id r) u) (user_settings st).

Definition categories_of (st : Store) (u : string) : list Category :=
  filter (fun c => String.eqb (c_user_id c) u) (categories st).

Definition schedules_of (st : Store) (u : string) : list Schedule :=
  filter (fun s => String.eqb (s_user_id s) u) (scheduled_transactions st).

Definition transactions_of (st : Store) (u : string) : list Transaction :=
  filter (fun t => String.eqb (t_user_id t) u) (transactions st).

(** The two stores hold the same rows for the user. *)
Definition same_rows (u : string) (st st' : Store) : Prop :=
  settings_of st u = settings_of st' u /\
  categories_of st u = categories_of st' u /\
  schedules_of st u = schedules_of st' u /\
  transactions_of st u = transactions_of st' u.

(** An occurrence without its AUTOINCREMENT key, which depends on the
    inserts of every user. *)
Definition forget_id (t : Transaction) : Transaction :=
  mkTransaction 0 (t_user_id t) (t_schedule_id t) (t_category_id t) (t_date t)
                (t_description t) (t_amount t) (is_confirmed t).

(** The two stores hold the same settings, rules and occurrences for the
    user, up to the keys of the occurrences. *)
Definition same_data (u : string) (st st' : Store) : Prop :=
  settings_of st u = settings_of st' u /\
  schedules_of st u = schedules_of st' u /\
  map forget_id (transactions_of st u) = map forget_id (transactions_of st' u).

(** Both computations are still running, or both returned and their
    results are related. *)
Definition option_rel {A} (R : A -> A -> Prop) (x y : option A) : Prop :=
  match x, y with
  | Some a, Some b => R a b
  | None, None => True
  | _, _ => False
  end.

(** The rows of the calendar, given the merged group of each day. *)
Definition calendar_rows (B : Z) (a vs ve : Date) (m : Date -> DayGroup)
  : list DailySummary :=
  let calendar_df := map m (date_range a ve) in
  map (fun gb =>
         mkDaily (g_date (fst gb)) (g_credits (fst gb)) (g_debits (fst gb))
                 (g_is_actual (fst gb)) (Some (g_net_change (fst gb))) (snd gb))
      (filter (fun gb => in_view vs ve (g_date (fst gb)))
              (combine calendar_df
                 (map (Z.add B) (cumsum 0 (map g_net_change calendar_df))))).

(** ** Scenarios *)


(** A user ["u"] with anchor date 2024-01-01 and starting balance 1000.00,
    and no occurrence. *)
Definition anchored_store : Store :=
  update_user_settings
    (get_or_create_user empty_store (mkdate 2023 12 25) "u")
    "u" 100000 (mkdate 2024 1 1).

(** One monthly rule of -100.00 starting 2024-01-01, without end date. *)
Definition scenario_store : Store :=
  fst (add_scheduled_transaction anchored_store "u" None "rent" (-10000)
         "monthly" (mkdate 2024 1 1) None).

(** One monthly rule starting 2024-01-31. *)
Definition clamp_store : Store :=
  fst (add_scheduled_transaction anchored_store "u" None "rent" (-10000)
         "monthly" (mkdate 2024 1 31) None).

(** A rule whose frequency is none of the five, followed by a monthly
    rule. *)
Definition yearly_rule : Schedule :=
  mkSchedule 1 "u" None "insurance" (-50000) "yearly" (mkdate 2024 1 1) None.

Definition yearly_store : Store :=
  fst (add_scheduled_transaction
         (fst (add_scheduled_transaction anchored_store "u" None "insurance"
                 (-50000) "yearly" (mkdate 2024 1 1) None))
         "u" None "rent" (-10000) "monthly" (mkdate 2024 1 1) None).

(** One confirmed occurrence on 2024-01-02. *)
Definition one_confirmed_store : Store :=
  fst (add_transaction anchored_store "u" (mkdate 2024 1 2) None "refund" 5000 1 None).

(** Anchor date 2024-01-03 and one occurrence on 2024-01-04. *)
Definition late_anchor_store : Store :=
  fst (add_transaction
         (update_user_settings
            (get_or_create_user empty_store (mkdate 2023 12 25) "u")
            "u" 100000 (mkdate 2024 1 3))
         "u" (mkdate 2024 1 4) None "refund" 5000 1 None).

(** The balances the code yields in the monthly scenario. *)
Definition scenario_balance (d : Date) : Z :=
  if date_ltb d (mkdate 2024 2 1) then 100000
  else if date_ltb d (mkdate 2024 3 1) then 90000
  else if date_ltb d (mkdate 2024 4 1) then 80000
  else 70000.

(** A second user ["v"], created after ["u"]'s data was stored, with one
    occurrence of their own. *)
Definition shared_store : Store :=
  fst (add_transaction
         (get_or_create_user one_confirmed_store (mkdate 2024 1 1) "v")
         "v" (mkdate 2024 1 2) None "salary" 70000 1 None).

(** ** Keys of the store *)

(** What [INTEGER PRIMARY KEY AUTOINCREMENT] maintains on the three keyed
    tables: no key occurs twice, and no key is larger than the last one
    handed out. *)
Definition primary_keys (st : Store) : Prop :=
  NoDup (map category_id (categories st)) /\
  (forall c, In c (categories st) -> category_id c <= seq_categories st) /\
  NoDup (map schedule_id (scheduled_transactions st)) /\
  (forall s, In s (scheduled_transactions st) -> schedule_id s <= seq_schedules st) /\
  NoDup (map transaction_id (transactions st)) /\
  (forall t, In t (transactions st) -> transaction_id t <= seq_transactions st).

(** The columns of an occurrence that [delete_category] and
    [update_transaction] never write. *)
Definition tx_identity (t : Transaction) : Z * string * option Z :=
  (transaction_id t, t_user_id t, t_schedule_id t).

(** An occurrence without its category. *)
Definition tx_core (t : Transaction)
  : Z * string * option Z * Date * string * Z * Z :=
  (transaction_id t, t_user_id t, t_schedule_id t, t_date t, t_description t,
   t_amount t, is_confirmed t).

(** A rule without its category. *)
Definition rule_core (s : Schedule)
  : Z * string * string * Z * string * Date * option Date :=
  (schedule_id s, s_user_id s, s_description s, s_amount s, frequency s,
   s_start_date s, s_end_date s).

(** The occurrence that one pass of the loop of [run_projection] writes
    for a rule on a date, apart from its key. *)
Definition generated_by (user_id : string) (schedule : Schedule) (t : Transaction) : Prop :=
  t_user_id t = user_id /\
  t_schedule_id t = Some (schedule_id schedule) /\
  t_category_id t = s_category_id schedule /\
  t_description t = s_description schedule /\
  t_amount t = s_amount schedule /\
  is_confirmed t = 0.

(** The tables that the projection only reads. *)
Definition same_tables (db st : Store) : Prop :=
  users db = users st /\ user_settings db = user_settings st /\
  categories db = categories st /\
  scheduled_transactions db = scheduled_transactions st.

(** Every stored occurrence of the rule is dated before the cursor. *)
Definition rows_before_cursor (u : string) (sch : Schedule) (s : LoopState) : Prop :=
  forall t, In t (rule_rows (conn s) u (schedule_id sch)) ->
            date_lt (t_date t) (current_date s).

(** The run of the loop has returned. *)
Definition expands_to (st : Store) (user_id : string) (schedule : Schedule)
    (projection_end_date : Date) (st' : Store) : Prop :=
  exists fuel, expand_schedule fuel st user_id schedule projection_end_date = Some st'.

(** The columns of a calendar row that do not depend on confirmations. *)
Definition row_amounts (r : DailySummary) : Date * Z * Z * option Z * Z :=
  (date r, credits r, debits r, net_change r, balance r).

(** ** The calendar, day by day *)

(** The columns of an occurrence that the calendar reads. *)
Definition tx_day (t : Transaction) : Date * Z * Z :=
  (t_date t, t_amount t, is_confirmed t).

(** The columns of an occurrence that the amounts of the calendar read. *)
Definition tx_amounts (t : Transaction) : Date * Z := (t_date t, t_amount t).

(** A group without its confirmation flag. *)
Definition strip_actual (g : DayGroup) : DayGroup :=
  mkGroup (g_date g) (g_credits g) (g_debits g) false (g_net_change g).

(** The row of a day in the calendar of a user with occurrences from the
    anchor date [a] on, read off the stored occurrences: the sums of the
    day, whether the day lies between the first and the last of these
    occurrences and has confirmed occurrences only, and the starting
    balance plus everything from the anchor date to the day. *)
Definition calendar_row (st : Store) (u : string) (B : Z) (a d : Date) : DailySummary :=
  let sel := selected_after st u a in
  let g := on_day d sel in
  mkDaily d (sum_Z (map credit_of g)) (sum_Z (map debit_of g))
          (in_span sel d && forallb (fun t => is_confirmed t =? 1) g)
          (Some (sum_Z (map t_amount g)))
          (B + sum_Z (map t_amount (occurrences_between st u a d))).

(** ** The first view of the calendar ([Home.py]) *)

(** [d - timedelta(days=1)] on a calendar date. *)
Definition prev_day (d : Date) : Date :=
  if 1 <? day d then mkdate (year d) (month d) (day d - 1)
  else if 1 <? month d
       then mkdate (year d) (month d - 1) (days_in_month (year d) (month d - 1))
       else mkdate (year d - 1) 12 31.

(** [d - timedelta(days=n)] *)
Definition sub_days (n : nat) (d : Date) : Date := Nat.iter n prev_day d.

(** [d.replace(day=n)] *)
Definition replace_day (d : Date) (n : Z) : Date := mkdate (year d) (month d) n.

(** [st.session_state.calendar_view_start] on the first run. *)
Definition calendar_view_start (today : Date) : Date := replace_day today 1.

(** [st.session_state.calendar_view_end] on the first run. *)
Definition calendar_view_end (today : Date) : Date :=
  let next_month := add_days 4 (replace_day today 28) in
  let end_of_month := sub_days (Z.to_nat (day next_month)) next_month in
  end_of_month.

(** ** Further scenarios *)

(** The rule of the monthly scenario, as it is stored. *)
Definition scenario_rule : Schedule :=
  mkSchedule 1 "u" None "rent" (-10000) "monthly" (mkdate 2024 1 1) None.

(** The store of the monthly scenario after the projection to 2024-04-01
    (occurrences on 2024-02-01, 2024-03-01 and 2024-04-01). *)
Definition projected_store : Store :=
  match run_projection 10 scenario_store "u" (mkdate 2024 4 1) with
  | Some st => st
  | None => scenario_store
  end.

(** The same store after the projection to 2024-02-15 only. *)
Definition partly_projected_store : Store :=
  match expand_schedule 10 scenario_store "u" scenario_rule (mkdate 2024 2 15) with
  | Some st => st
  | None => scenario_store
  end.

(** A monthly rule that ends before it starts. *)
Definition ended_rule : Schedule :=
  mkSchedule 1 "u" None "rent" (-10000) "monthly" (mkdate 2024 3 1)
             (Some (mkdate 2024 2 1)).

(** ** The calls of [database.py] under the constraints of the schema *)

(** [create_connection] turns foreign keys on, and [create_tables] puts a
    CHECK on the type of a category.  The functions above give the effect
    of the statements of a call when SQLite accepts them.  A statement
    that violates a constraint is undone and raises
    [sqlite3.IntegrityError]; the function is left before
    [conn.commit()], and the statements that ran before the failing one
    stay applied on the connection (the next commit on it writes them).
    An outcome holds the store as the connection sees it after the
    call. *)
Inductive Outcome (A : Type) : Type :=
| Committed (st : Store) (result : A)
| IntegrityError (st : Store).

Arguments Committed {A} st result.
Arguments IntegrityError {A} st.

Definition store_of {A} (o : Outcome A) : Store :=
  match o with
  | Committed st _ => st
  | IntegrityError st => st
  end.

(** [REFERENCES users (user_id)] *)
Definition user_exists (st : Store) (user_id : string) : bool :=
  existsb (String.eqb user_id) (users st).

(** [REFERENCES categories (category_id)]; NULL refers to nothing. *)
Definition category_exists (st : Store) (cid : option Z) : bool :=
  match cid with
  | None => true
  | Some c => existsb (fun x => category_id x =? c) (categories st)
  end.

(** [REFERENCES scheduled_transactions (schedule_id)] *)
Definition schedule_exists (st : Store) (sid : option Z) : bool :=
  match sid with
  | None => true
  | Some s => existsb (fun x => schedule_id x =? s) (scheduled_transactions st)
  end.

(** A rule or an occurrence, of whatever user, refers to the category. *)
Definition category_referenced (st : Store) (cid : Z) : bool :=
  existsb (fun t => opt_Z_eqb (t_category_id t) cid) (transactions st) ||
  existsb (fun s => opt_Z_eqb (s_category_id s) cid) (scheduled_transactions st).

(** An occurrence, of whatever user, refers to the rule. *)
Definition schedule_referenced (st : Store) (sid : Z) : bool :=
  existsb (fun t => opt_Z_eqb (t_schedule_id t) sid) (transactions st).

(** The row that [WHERE category_id = ? AND user_id = ?] selects. *)
Definition owns_category (st : Store) (cid : Z) (user_id : string) : bool :=
  existsb (fun c => (category_id c =? cid) && String.eqb (c_user_id c) user_id)
          (categories st).

(** The row that [WHERE schedule_id = ? AND user_id = ?] selects. *)
Definition owns_schedule (st : Store) (sid : Z) (user_id : string) : bool :=
  existsb (fun s => (schedule_id s =? sid) && String.eqb (s_user_id s) user_id)
          (scheduled_transactions st).

(** The row that [WHERE transaction_id = ? AND user_id = ?] selects. *)
Definition owns_transaction (st : Store) (tid : Z) (user_id : string) : bool :=
  existsb (fun t => (transaction_id t =? tid) && String.eqb (t_user_id t) user_id)
          (transactions st).

(** [add_category]: the INSERT needs a type that passes the CHECK and a
    stored user. *)
Definition add_category_call (st : Store) (user_id name type : string) : Outcome unit :=
  if (String.eqb type "credit" || String.eqb type "debit") && user_exists st user_id
  then Committed (add_category st user_id name type) tt
  else IntegrityError st.

(** The two UPDATEs of [delete_category], before its DELETE. *)
Definition detach_category (st : Store) (cid : Z) (user_id : string) : Store :=
  mkStore (users st) (user_settings st) (categories st)
          (scheduled_transactions (delete_category st cid user_id))
          (transactions (delete_category st cid user_id))
          (seq_categories st) (seq_schedules st) (seq_transactions st).

(** [delete_category]: the DELETE fails when it selects a row and, after
    the two UPDATEs, a rule or an occurrence still refers to the
    category; this can only be a row of another user. *)
Definition delete_category_call (st : Store) (cid : Z) (user_id : string) : Outcome unit :=
  let pending := detach_category st cid user_id in
  if owns_category st cid user_id && category_referenced pending cid
  then IntegrityError pending
  else Committed (delete_category st cid user_id) tt.

(** [add_transaction]: the INSERT needs a stored user and, when they are
    not NULL, a stored category and a stored rule, of whatever user. *)
Definition add_transaction_call (st : Store) (user_id : string) (date : Date)
    (category_id : option Z) (description : string) (amount : Z)
    (is_confirmed : Z) (schedule_id : option Z) : Outcome Z :=
  if user_exists st user_id && category_exists st category_id
     && schedule_exists st schedule_id
  then Committed
         (fst (add_transaction st user_id date category_id description amount
                 is_confirmed schedule_id))
         (snd (add_transaction st user_id date category_id description amount
                 is_confirmed schedule_id))
  else IntegrityError st.

(** [update_transaction]: the UPDATE fails when it selects a row and the
    new category is not stored. *)
Definition update_transaction_call (st : Store) (tid : Z) (user_id : string)
    (date : Date) (category_id : option Z) (description : string) (amount : Z)
    (is_confirmed : Z) : Outcome unit :=
  if owns_transaction st tid user_id && negb (category_exists st category_id)
  then IntegrityError st
  else Committed (update_transaction st tid user_id date category_id description
                    amount is_confirmed) tt.

(** [add_scheduled_transaction]: the INSERT needs a stored user and, when
    it is not NULL, a stored category. *)
Definition add_scheduled_transaction_call (st : Store) (user_id : string)
    (category_id : option Z) (description : string) (amount : Z)
    (frequency : string) (start_date : Date) (end_date : option Date) : Outcome Z :=
  if user_exists st user_id && category_exists st category_id
  then Committed
         (fst (add_scheduled_transaction st user_id category_id description amount
                 frequency start_date end_date))
         (snd (add_scheduled_transaction st user_id category_id description amount
                 frequency start_date end_date))
  else IntegrityError st.

(** [delete_scheduled_transaction]: the rule is deleted first, and that
    DELETE fails when it selects a row to which an occurrence, confirmed
    or not, still refers; the DELETE of the occurrences is then not
    reached. *)
Definition delete_scheduled_transaction_call (st : Store) (sid : Z)
    (user_id : string) (delete_future : bool) : Outcome unit :=
  if owns_schedule st sid user_id && schedule_referenced st sid
  then IntegrityError st
  else Committed (delete_scheduled_transaction st sid user_id delete_future) tt.

(** Referential integrity: what the foreign keys of the five tables
    maintain. *)
Definition foreign_keys (st : Store) : Prop :=
  (forall r, In r (user_settings st) -> user_exists st (us_user_id r) = true) /\
  (forall c, In c (categories st) -> user_exists st (c_user_id c) = true) /\
  (forall s, In s (scheduled_transactions st) ->
     user_exists st (s_user_id s) = true /\
     category_exists st (s_category_id s) = true) /\
  (forall t, In t (transactions st) ->
     user_exists st (t_user_id t) = true /\
     category_exists st (t_category_id t) = true /\
     schedule_exists st (t_schedule_id t) = true).

(** *** [run_projection] with its inserts under the constraints *)

(** The [while] loop; an error of [add_transaction] leaves it, and the
    function. *)
Fixpoint while_loop_call (fuel : nat) (user_id : string) (schedule : Schedule)
    (loop_end_date : Date) (s : LoopState) : option (Outcome unit) :=
  match fuel with
  | O => None
  | S fuel' =>
      if date_leb (current_date s) loop_end_date
      then
        if date_leb (s_start_date schedule) (current_date s)
        then
          match add_transaction_call (conn s) user_id (current_date s)
                  (s_category_id schedule) (s_description schedule)
                  (s_amount schedule) 0 (Some (schedule_id schedule)) with
          | Committed db _ =>
              while_loop_call fuel' user_id schedule loop_end_date
                (mkLoop (advance (frequency schedule) (current_date s)) db)
          | IntegrityError db => Some (IntegrityError db)
          end
        else
          while_loop_call fuel' user_id schedule loop_end_date
            (mkLoop (advance (frequency schedule) (current_date s)) (conn s))
      else Some (Committed (conn s) tt)
  end.

Definition expand_schedule_call (fuel : nat) (st : Store) (user_id : string)
    (schedule : Schedule) (projection_end_date : Date) : option (Outcome unit) :=
  while_loop_call fuel user_id schedule (loop_end schedule projection_end_date)
    (mkLoop (resume_date st user_id schedule) st).

Fixpoint expand_all_call (fuel : nat) (st : Store) (user_id : string)
    (schedules : list Schedule) (projection_end_date : Date) : option (Outcome unit) :=
  match schedules with
  | [] => Some (Committed st tt)
  | schedule :: rest =>
      match expand_schedule_call fuel st user_id schedule projection_end_date with
      | Some (Committed st' _) => expand_all_call fuel st' user_id rest projection_end_date
      | Some (IntegrityError st') => Some (IntegrityError st')
      | None => None
      end
  end.

Definition run_projection_call (fuel : nat) (st : Store) (user_id : string)
    (projection_end_date : Date) : option (Outcome unit) :=
  expand_all_call fuel st user_id
    (map fst (get_scheduled_transactions st user_id)) projection_end_date.

(** *** Stores of the scenarios about the constraints *)

(** Two users, ["u"] created first (categories 1 to 5) and then ["v"]
    (categories 6 to 10, of which 7 is ["Rent"]). *)
Definition two_user_store : Store :=
  get_or_create_user (get_or_create_user empty_store (mkdate 2024 1 1) "u")
                     (mkdate 2024 1 1) "v".

(** ["u"] has stored an occurrence under category 7, which is ["v"]'s. *)
Definition borrowed_category_store : Store :=
  store_of (add_transaction_call two_user_store "u" (mkdate 2024 1 2) (Some 7)
              "leak" (-500) 1 None).

(** The monthly rule and a weekly rule, nothing projected yet. *)
Definition two_rule_store : Store :=
  store_of (add_scheduled_transaction_call scenario_store "u" None "gym" (-3000)
              "weekly" (mkdate 2024 3 1) None).

(** That store after ["u"] deleted the monthly rule, which has no
    occurrence yet. *)
Definition rule_deleted_store : Store :=
  store_of (delete_scheduled_transaction_call two_rule_store 1 "u" true).

(** That store after a projection to 2024-04-01 (weekly occurrences on
    2024-03-08, 15, 22 and 29). *)
Definition rule_deleted_projected : Store :=
  match run_projection 20 rule_deleted_store "u" (mkdate 2024 4 1) with
  | Some st => st
  | None => rule_deleted_store
  end.

(** ** The arithmetic of the code: IEEE 754 binary64 *)

(** The columns [amount] and [start_balance] are REAL, Python reads them
    as [float], and pandas adds them as [float64].  This module follows
    the steps of [get_calendar_data] with that arithmetic, on the same
    store: an amount of [c] minor units stands for the decimal [c/100]
    that was entered, and the code holds the double nearest to it.  The
    operations are those of the Standard Library's specification of IEEE
    754 ([SpecFloat]), at precision 53 and maximal exponent 1024, rounding
    to nearest, ties to even. *)
Module Binary64.

Definition prec : Z := 53.
Definition emax : Z := 1024.

Definition zero : spec_float := S754_zero false.
Definition add (x y : spec_float) : spec_float := SFadd prec emax x y.
Definition sub (x y : spec_float) : spec_float := SFsub prec emax x y.

(** The double of an integer (exact below 2^53). *)
Definition of_Z (z : Z) : spec_float := binary_normalize prec emax z 0 false.

(** The double nearest to [c/100], for [c] below 2^53 in absolute value:
    what [float] makes of the decimal with two places. *)
Definition of_minor (c : Z) : spec_float := SFdiv prec emax (of_Z c) (of_Z 100).

(** [row['amount']] *)
Definition amount (t : Transaction) : spec_float := of_minor (t_amount t).

(** [row['amount'] if row['amount'] > 0 else 0] *)
Definition credit_of (t : Transaction) : spec_float :=
  if SFltb zero (amount t) then amount t else zero.

(** [row['amount'] if row['amount'] <= 0 else 0] *)
Definition debit_of (t : Transaction) : spec_float :=
  if SFleb (amount t) zero then amount t else zero.

(** The ['sum'] of a group in pandas ([group_sum]): the rows of the group
    are added in their order with a running compensation (Kahan); a
    compensation that is not a number is reset.  On a group of one or two
    rows the compensation is never used. *)
Fixpoint group_sum_from (sumx compensation : spec_float) (l : list spec_float)
  : spec_float :=
  match l with
  | [] => sumx
  | val :: r =>
      let y := sub val compensation in
      let t := add sumx y in
      let c := sub (sub t sumx) y in
      group_sum_from t (if SFeqb c c then c else zero) r
  end.

Definition group_sum (l : list spec_float) : spec_float := group_sum_from zero zero l.

(** A row of [daily_summary]. *)
Record DayGroup := mkGroup {
  g_date : Date;
  g_credits : spec_float;
  g_debits : spec_float;
  g_is_actual : bool;
  g_net_change : spec_float }.

(** The grouping by day, as in the exact model, with the sums of
    pandas and [net_change = credits + debits] in doubles. *)
Definition daily_summary (df : list Transaction) : list DayGroup :=
  match df with
  | [] => []
  | t0 :: _ =>
      let dates := map t_date df in
      map (fun d =>
             let g := on_day d df in
             let c := group_sum (map credit_of g) in
             let b := group_sum (map debit_of g) in
             mkGroup d c b (forallb (fun t => is_confirmed t =? 1) g) (add c b))
          (date_range (min_date_of (t_date t0) dates) (max_date_of (t_date t0) dates))
  end.

(** The left merge and [fillna(0)]. *)
Definition merge_day (summary : list DayGroup) (d : Date) : DayGroup :=
  match find (fun g => date_eqb (g_date g) d) summary with
  | Some g => g
  | None => mkGroup d zero zero false zero
  end.

(** [Series.cumsum] ([numpy.cumsum]): the first entry as it is, then one
    addition per entry, from left to right. *)
Fixpoint cumsum_from (acc : spec_float) (l : list spec_float) : list spec_float :=
  match l with
  | [] => []
  | x :: r => add acc x :: cumsum_from (add acc x) r
  end.

Definition cumsum (l : list spec_float) : list spec_float :=
  match l with
  | [] => []
  | x :: r => x :: cumsum_from x r
  end.

(** A row of the data frame that is returned. *)
Record DailySummary := mkDaily {
  date : Date;
  credits : spec_float;
  debits : spec_float;
  is_actual : bool;
  net_change : option spec_float;
  balance : spec_float }.

Definition get_calendar_data (st : Store) (user_id : string)
    (view_start_date view_end_date : Date) : list DailySummary :=
  match get_user_settings st user_id with
  | None => []
  | Some (start_balance, start_date) =>
      let all_transactions := get_all_transactions_after st user_id start_date in
      match all_transactions with
      | [] =>
          map (fun d => mkDaily d zero zero true None (of_minor start_balance))
              (date_range view_start_date view_end_date)
      | _ :: _ =>
          let df := map fst all_transactions in
          let summary := daily_summary df in
          let full_date_range := date_range start_date view_end_date in
          let calendar_df := map (merge_day summary) full_date_range in
          let balance :=
            map (add (of_minor start_balance))
                (cumsum (map g_net_change calendar_df)) in
          map (fun gb =>
                 mkDaily (g_date (fst gb)) (g_credits (fst gb)) (g_debits (fst gb))
                         (g_is_actual (fst gb)) (Some (g_net_change (fst gb))) (snd gb))
              (filter (fun gb => in_view view_start_date view_end_date (g_date (fst gb)))
                      (combine calendar_df balance))
      end
  end.

End Binary64.

(** The columns of a calendar row that involve no arithmetic. *)
Definition row_flags (r : DailySummary) : Date * bool := (date r, is_actual r).

Definition binary64_row_flags (r : Binary64.DailySummary) : Date * bool :=
  (Binary64.date r, Binary64.is_actual r).

(** *** A scenario of amounts that are not doubles *)

(** Starting balance 0.00 on 2024-01-01; 0.10 on 2024-01-01, 0.20 on
    2024-01-02 and -0.30 on 2024-01-03, all confirmed. *)
Definition drift_store : Store :=
  store_of
    (add_transaction_call
       (store_of
          (add_transaction_call
             (store_of
                (add_transaction_call
                   (update_user_settings
                      (get_or_create_user empty_store (mkdate 2023 12 25) "u")
                      "u" 0 (mkdate 2024 1 1))
                   "u" (mkdate 2024 1 1) None "in" 10 1 None))
             "u" (mkdate 2024 1 2) None "in" 20 1 None))
       "u" (mkdate 2024 1 3) None "out" (-30) 1 None).
(** *** Order facts *)

Lemma date_eqb_eq a b : date_eqb a b = true <-> a = b.
Proof.
  unfold date_eqb. destruct a as [y m d], b as [y' m' d']; simpl.
  rewrite !andb_true_iff, !Z.eqb_eq. split.
  - intros [[-> ->] ->]. reflexivity.
  - intros H. inversion H. auto.
Qed.

Lemma date_eqb_refl a : date_eqb a a = true.
Proof. apply date_eqb_eq. reflexivity. Qed.

Lemma date_eqb_neq a b : date_eqb a b = false <-> a <> b.
Proof.
  split.
  - intros H E. apply date_eqb_eq in E. congruence.
  - intros H. destruct (date_eqb a b) eqn:E; [apply date_eqb_eq in E; contradiction | reflexivity].
Qed.

Lemma date_ltb_spec a b :
  date_ltb a b = true <->
  (year a < year b \/
   (year a = year b /\ (month a < month b \/ (month a = month b /\ day a < day b)))).
Proof.
  unfold date_ltb.
  rewrite orb_true_iff, andb_true_iff, orb_true_iff, andb_true_iff.
  rewrite !Z.ltb_lt, !Z.eqb_eq. tauto.
Qed.

Lemma date_leb_spec a b :
  date_leb a b = true <->
  (year a < year b \/
   (year a = year b /\ (month a < month b \/ (month a = month b /\ day a <= day b)))).
Proof.
  unfold date_leb. rewrite negb_true_iff.
  destruct (date_ltb b a) eqn:E.
  - apply date_ltb_spec in E. split; [discriminate | lia].
  - split; [intros _ | reflexivity].
    assert (H : ~ (year b < year a \/
       (year b = year a /\ (month b < month a \/ (month b = month a /\ day b < day a))))).
    { intros H. apply date_ltb_spec in H. congruence. }
    lia.
Qed.

Ltac date_order :=
  unfold date_lt, date_le in *;
  repeat match goal with
  | H : date_ltb _ _ = true |- _ => apply date_ltb_spec in H
  | H : date_leb _ _ = true |- _ => apply date_leb_spec in H
  | H : date_ltb ?a ?b = false |- _ =>
      assert (date_leb b a = true) by (unfold date_leb; rewrite H; reflexivity);
      clear H
  | H : date_leb ?a ?b = false |- _ =>
      assert (date_ltb b a = true)
        by (unfold date_leb in H; apply negb_false_iff in H; exact H);
      clear H
  | H : @eq Date ?a ?b |- _ =>
      pose proof (f_equal year H); pose proof (f_equal month H);
      pose proof (f_equal day H); clear H
  end;
  try match goal with
  | |- date_ltb _ _ = true => apply date_ltb_spec
  | |- date_leb _ _ = true => apply date_leb_spec
  | |- date_ltb ?a ?b = false =>
      apply not_true_is_false; intros ?H; date_order
  | |- date_leb ?a ?b = false =>
      apply not_true_is_false; intros ?H; date_order
  end;
  simpl in *; try lia.

Lemma date_le_refl a : date_le a a.
Proof. date_order. Qed.

Lemma date_le_trans a b c : date_le a b -> date_le b c -> date_le a c.
Proof. intros H1 H2. date_order. Qed.

Lemma date_lt_le a b : date_lt a b -> date_le a b.
Proof. intros H. date_order. Qed.

Lemma date_le_lt_trans a b c : date_le a b -> date_lt b c -> date_lt a c.
Proof. intros H1 H2. date_order. Qed.

Lemma date_lt_le_trans a b c : date_lt a b -> date_le b c -> date_lt a c.
Proof. intros H1 H2. date_order. Qed.

Lemma date_lt_irrefl a : ~ date_lt a a.
Proof. intros H. date_order. Qed.

Lemma date_le_antisym a b : date_le a b -> date_le b a -> a = b.
Proof.
  intros H1 H2. destruct a as [y m d], b as [y' m' d'].
  date_order. f_equal; lia.
Qed.

Lemma date_le_cases a b : date_le a b <-> a = b \/ date_lt a b.
Proof.
  split.
  - intros H. destruct (date_eqb a b) eqn:E.
    + left. apply date_eqb_eq. exact E.
    + right. apply date_eqb_neq in E.
      destruct (date_ltb a b) eqn:L; [exact L|].
      exfalso. apply E. apply date_le_antisym; [exact H|]. date_order.
  - intros [->|H]; [apply date_le_refl | apply date_lt_le; exact H].
Qed.

Lemma date_le_total a b : date_le a b \/ date_lt b a.
Proof.
  unfold date_le, date_lt, date_leb. destruct (date_ltb b a); auto.
Qed.

(** *** The calendar successor *)

Lemma days_in_month_bounds y m : 28 <= days_in_month y m <= 31.
Proof.
  unfold days_in_month.
  destruct (m =? 2); [destruct (is_leap y); lia|].
  destruct ((m =? 4) || (m =? 6) || (m =? 9) || (m =? 11)); lia.
Qed.

Lemma valid_date_spec d :
  valid_date d = true <->
  1 <= month d <= 12 /\ 1 <= day d <= days_in_month (year d) (month d).
Proof.
  unfold valid_date. rewrite !andb_true_iff, !Z.leb_le. tauto.
Qed.

Lemma next_day_gt d : date_lt d (next_day d).
Proof.
  unfold next_day.
  destruct (day d <? days_in_month (year d) (month d)) eqn:E1;
    [|destruct (month d <? 12) eqn:E2]; date_order.
Qed.

Lemma next_day_valid d : valid_date d = true -> valid_date (next_day d) = true.
Proof.
  rewrite !valid_date_spec. intros [Hm Hd]. unfold next_day.
  destruct (day d <? days_in_month (year d) (month d)) eqn:E1.
  - apply Z.ltb_lt in E1. simpl. lia.
  - destruct (month d <? 12) eqn:E2; simpl.
    + apply Z.ltb_lt in E2.
      pose proof (days_in_month_bounds (year d) (month d + 1)). lia.
    + pose proof (days_in_month_bounds (year d + 1) 1). lia.
Qed.

(** No calendar date lies strictly between a date and its successor. *)
Lemma next_day_least a b :
  valid_date a = true -> valid_date b = true ->
  date_lt a b -> date_le (next_day a) b.
Proof.
  rewrite !valid_date_spec. intros [Ham Had] [Hbm Hbd] H. unfold next_day.
  assert (Hsame : year a = year b -> month a = month b ->
                  day b <= days_in_month (year a) (month a)).
  { intros Hy Hmo. rewrite Hy, Hmo. lia. }
  destruct (day a <? days_in_month (year a) (month a)) eqn:E1.
  - date_order.
  - apply Z.ltb_ge in E1.
    destruct (month a <? 12) eqn:E2.
    + apply Z.ltb_lt in E2. date_order.
    + apply Z.ltb_ge in E2. date_order.
Qed.

Lemma date_key_next_day d :
  valid_date d = true -> date_key d + 1 <= date_key (next_day d).
Proof.
  rewrite valid_date_spec. intros [Hm Hd].
  pose proof (days_in_month_bounds (year d) (month d)).
  unfold next_day, date_key.
  destruct (day d <? days_in_month (year d) (month d)) eqn:E1;
    [|destruct (month d <? 12) eqn:E2]; simpl; lia.
Qed.

Lemma date_key_mono a b :
  valid_date a = true -> valid_date b = true ->
  date_le a b -> date_key a <= date_key b.
Proof.
  rewrite !valid_date_spec. intros [Ham Had] [Hbm Hbd] H.
  pose proof (days_in_month_bounds (year a) (month a)).
  pose proof (days_in_month_bounds (year b) (month b)).
  unfold date_key. date_order.
Qed.

Lemma add_days_succ n d : add_days (S n) d = next_day (add_days n d).
Proof. reflexivity. Qed.

Lemma add_days_valid n d : valid_date d = true -> valid_date (add_days n d) = true.
Proof.
  intros H. induction n as [|n IH]; [exact H|].
  rewrite add_days_succ. apply next_day_valid. exact IH.
Qed.

Lemma add_days_gt n d : date_lt d (add_days (S n) d).
Proof.
  induction n as [|n IH]; [apply next_day_gt|].
  rewrite add_days_succ.
  eapply date_lt_le_trans; [exact IH|]. apply date_lt_le, next_day_gt.
Qed.

Lemma add_months_gt n d : 1 <= n -> date_lt d (add_months n d).
Proof.
  intros Hn. unfold add_months.
  destruct (12 <? month d + n) eqn:E; date_order.
Qed.

Lemma add_months_valid n d :
  1 <= n <= 12 -> valid_date d = true -> valid_date (add_months n d) = true.
Proof.
  rewrite !valid_date_spec. intros Hn [Hm Hd]. unfold add_months.
  destruct (12 <? month d + n) eqn:E; simpl.
  - apply Z.ltb_lt in E.
    pose proof (days_in_month_bounds (year d + 1) (month d + n - 12)). lia.
  - apply Z.ltb_ge in E.
    pose proof (days_in_month_bounds (year d) (month d + n)). lia.
Qed.

(** *** The daily grid *)

Lemma days_from_bounds n s e x :
  In x (days_from n s e) -> date_le s x /\ date_le x e.
Proof.
  revert s. induction n as [|n IH]; intros s; simpl; [tauto|].
  destruct (date_leb s e) eqn:E; [|simpl; tauto].
  intros [<-|H].
  - split; [apply date_le_refl | exact E].
  - apply IH in H. destruct H as [H1 H2]. split; [|exact H2].
    eapply date_le_trans; [|exact H1]. apply date_lt_le, next_day_gt.
Qed.

Lemma days_from_valid n s e x :
  valid_date s = true -> In x (days_from n s e) -> valid_date x = true.
Proof.
  revert s. induction n as [|n IH]; intros s Hs; simpl; [tauto|].
  destruct (date_leb s e); [|simpl; tauto].
  intros [<-|H]; [exact Hs|].
  eapply IH; [|exact H]. apply next_day_valid. exact Hs.
Qed.

Lemma days_from_complete n s e x :
  valid_date s = true -> valid_date x = true ->
  date_key x - date_key s < Z.of_nat n ->
  date_le s x -> date_le x e -> In x (days_from n s e).
Proof.
  revert s. induction n as [|n IH]; intros s Hs Hx Hn Hsx Hxe.
  - exfalso. pose proof (date_key_mono s x Hs Hx Hsx). lia.
  - simpl.
    assert (Hse : date_leb s e = true) by (eapply date_le_trans; eassumption).
    rewrite Hse. apply date_le_cases in Hsx. destruct Hsx as [->|Hlt].
    + left. reflexivity.
    + right. apply IH; auto.
      * apply next_day_valid. exact Hs.
      * pose proof (date_key_next_day s Hs). lia.
      * apply next_day_least; assumption.
Qed.

Lemma days_from_sorted n s e : StronglySorted date_lt (days_from n s e).
Proof.
  revert s. induction n as [|n IH]; intros s; simpl; [constructor|].
  destruct (date_leb s e); [|constructor].
  constructor; [apply IH|].
  apply Forall_forall. intros x Hx. apply days_from_bounds in Hx.
  destruct Hx as [Hx _].
  exact (date_lt_le_trans _ _ _ (next_day_gt s) Hx).
Qed.

Lemma date_range_spec s e x :
  valid_date s = true -> valid_date e = true ->
  In x (date_range s e) <->
  valid_date x = true /\ date_le s x /\ date_le x e.
Proof.
  intros Hs He. unfold date_range. split.
  - intros H. split; [exact (days_from_valid _ _ _ _ Hs H)|].
    exact (days_from_bounds _ _ _ _ H).
  - intros (Hx & H1 & H2). apply days_from_complete; auto.
    pose proof (date_key_mono x e Hx He H2). lia.
Qed.

Lemma date_range_sorted s e : StronglySorted date_lt (date_range s e).
Proof. apply days_from_sorted. Qed.

Lemma sorted_date_NoDup l : StronglySorted date_lt l -> NoDup l.
Proof.
  induction 1 as [|a l Hs IH Hall]; constructor; [|exact IH].
  intros Hin. rewrite Forall_forall in Hall.
  exact (date_lt_irrefl a (Hall a Hin)).
Qed.

(** Two strictly increasing lists with the same elements are equal. *)
Lemma sorted_date_ext l1 l2 :
  StronglySorted date_lt l1 -> StronglySorted date_lt l2 ->
  (forall x, In x l1 <-> In x l2) -> l1 = l2.
Proof.
  intros H1. revert l2. induction H1 as [|a l1 Hs1 IH Ha]; intros l2 H2 Hext.
  - destruct l2 as [|b l2]; [reflexivity|].
    exfalso. apply (proj2 (Hext b)). left. reflexivity.
  - destruct H2 as [|b l2 Hs2 Hb].
    + exfalso. apply (proj1 (Hext a)). left. reflexivity.
    + rewrite Forall_forall in Ha, Hb.
      assert (a = b).
      { destruct (proj1 (Hext a) (or_introl eq_refl)) as [E|Hin]; [auto|].
        destruct (proj2 (Hext b) (or_introl eq_refl)) as [E|Hin']; [auto|].
        exfalso. apply (date_lt_irrefl a).
        eapply date_lt_le_trans; [apply Ha, Hin'|].
        apply date_lt_le, Hb, Hin. }
      subst b. f_equal. apply IH; [exact Hs2|].
      intros x. split; intros Hx.
      * destruct (proj1 (Hext x) (or_intror Hx)) as [E|Hin]; [|exact Hin].
        subst x. exfalso. exact (date_lt_irrefl a (Ha a Hx)).
      * destruct (proj2 (Hext x) (or_intror Hx)) as [E|Hin]; [|exact Hin].
        subst x. exfalso. exact (date_lt_irrefl a (Hb a Hx)).
Qed.

Lemma sorted_date_filter (p : Date -> bool) l :
  StronglySorted date_lt l -> StronglySorted date_lt (filter p l).
Proof.
  induction 1 as [|a l Hs IH Ha]; simpl; [constructor|].
  destruct (p a); [|exact IH].
  constructor; [exact IH|].
  rewrite Forall_forall in *. intros x Hx. apply filter_In in Hx. apply Ha, Hx.
Qed.

(** ** Sums, sorting and selection *)

Lemma sum_Z_app l1 l2 : sum_Z (l1 ++ l2) = sum_Z l1 + sum_Z l2.
Proof. induction l1 as [|x l1 IH]; simpl; [reflexivity|]. rewrite IH. lia. Qed.

Lemma sum_Z_map_add {A} (f g : A -> Z) l :
  sum_Z (map (fun t => f t + g t) l) = sum_Z (map f l) + sum_Z (map g l).
Proof. induction l as [|x l IH]; simpl; [reflexivity|]. rewrite IH. lia. Qed.

Lemma sum_Z_map_ext {A} (f g : A -> Z) l :
  (forall t, In t l -> f t = g t) -> sum_Z (map f l) = sum_Z (map g l).
Proof.
  induction l as [|x l IH]; simpl; intros H; [reflexivity|].
  rewrite (H x), IH; auto.
Qed.

Lemma sum_Z_filter {A} (f : A -> Z) (p : A -> bool) l :
  sum_Z (map f (filter p l)) = sum_Z (map (fun t => if p t then f t else 0) l).
Proof.
  induction l as [|x l IH]; simpl; [reflexivity|].
  destruct (p x); simpl; rewrite IH; reflexivity.
Qed.

Section OrderBy.
Context {A : Type} (before : A -> A -> bool).

Lemma insert_by_In x y l : In y (insert_by before x l) <-> y = x \/ In y l.
Proof.
  induction l as [|z l IH]; simpl.
  - intuition congruence.
  - destruct (before x z); simpl; [intuition congruence|].
    rewrite IH. intuition congruence.
Qed.

Lemma order_by_In y l : In y (order_by before l) <-> In y l.
Proof.
  induction l as [|z l IH]; simpl; [tauto|].
  rewrite insert_by_In, IH. intuition congruence.
Qed.

Lemma insert_by_sum (f : A -> Z) x l :
  sum_Z (map f (insert_by before x l)) = f x + sum_Z (map f l).
Proof.
  induction l as [|z l IH]; simpl; [reflexivity|].
  destruct (before x z); simpl; [reflexivity|]. rewrite IH. lia.
Qed.

Lemma order_by_sum (f : A -> Z) l :
  sum_Z (map f (order_by before l)) = sum_Z (map f l).
Proof.
  induction l as [|z l IH]; simpl; [reflexivity|].
  rewrite insert_by_sum, IH. reflexivity.
Qed.

Lemma order_by_nil l : order_by before l = [] -> l = [].
Proof.
  destruct l as [|z l]; [reflexivity|]. intros H. exfalso.
  assert (Hin : In z (order_by before (z :: l))) by (apply order_by_In; left; reflexivity).
  rewrite H in Hin. exact Hin.
Qed.
End OrderBy.

Lemma forallb_ext_In {A} (p : A -> bool) l1 l2 :
  (forall x, In x l1 <-> In x l2) -> forallb p l1 = forallb p l2.
Proof.
  intros H. apply eq_true_iff_eq. rewrite !forallb_forall.
  split; intros Hp x Hx; apply Hp, H, Hx.
Qed.

Lemma existsb_date_In d l : existsb (date_eqb d) l = true <-> In d l.
Proof.
  rewrite existsb_exists. split.
  - intros (x & Hx & E). apply date_eqb_eq in E. subst. exact Hx.
  - intros H. exists d. split; [exact H | apply date_eqb_refl].
Qed.

Lemma sorted_date_split pre d post :
  StronglySorted date_lt (pre ++ d :: post) ->
  (forall x, In x pre -> date_lt x d) /\ (forall x, In x post -> date_lt d x).
Proof.
  induction pre as [|a pre IH]; simpl; intros H.
  - apply StronglySorted_inv in H. destruct H as [_ H].
    rewrite Forall_forall in H. split; [contradiction | exact H].
  - apply StronglySorted_inv in H. destruct H as [Hs Ha].
    rewrite Forall_forall in Ha. destruct (IH Hs) as [H1 H2]. split; [|exact H2].
    intros x [<-|Hx]; [|apply H1, Hx].
    apply Ha, in_elt.
Qed.

(** *** Running sums *)

Lemma cumsum_length acc l : List.length (cumsum acc l) = List.length l.
Proof. revert acc. induction l as [|x l IH]; intros acc; simpl; [|rewrite IH]; reflexivity. Qed.

Lemma combine_cumsum_In {A} (f : A -> Z) (B : Z) l acc (g : A) (b : Z) :
  In (g, b) (combine l (map (Z.add B) (cumsum acc (map f l)))) ->
  exists pre post, l = pre ++ g :: post /\ b = B + (acc + sum_Z (map f pre) + f g).
Proof.
  revert acc. induction l as [|x l IH]; intros acc; simpl; [contradiction|].
  intros [E|H].
  - inversion E; subst. exists [], l. simpl. split; [reflexivity | lia].
  - apply IH in H. destruct H as (pre & post & -> & ->).
    exists (x :: pre), post. simpl. split; [reflexivity | lia].
Qed.

Lemma combine_cumsum_fst {A} (f : A -> Z) (B : Z) (l : list A) acc :
  map fst (combine l (map (Z.add B) (cumsum acc (map f l)))) = l.
Proof.
  revert acc. induction l as [|x l IH]; intros acc; simpl; [reflexivity|].
  rewrite IH. reflexivity.
Qed.

Lemma map_filter_comm {A B} (f : A -> B) (p : B -> bool) l :
  filter p (map f l) = map f (filter (fun x => p (f x)) l).
Proof.
  induction l as [|x l IH]; simpl; [reflexivity|].
  destruct (p (f x)); simpl; rewrite IH; reflexivity.
Qed.

Lemma map_filter_fst {A B C} (f : A -> C) (p : C -> bool) (l : list (A * B)) :
  map (fun x => f (fst x)) (filter (fun x => p (f (fst x))) l)
  = filter p (map f (map fst l)).
Proof.
  induction l as [|x l IH]; simpl; [reflexivity|].
  destruct (p (f (fst x))); simpl; rewrite IH; reflexivity.
Qed.

(** ** The aggregation *)

Lemma get_all_transactions_after_fst st u a :
  map fst (get_all_transactions_after st u a)
  = order_by tx_before (selected_after st u a).
Proof.
  unfold get_all_transactions_after, selected_after.
  rewrite map_map. simpl. apply map_id.
Qed.

Lemma min_date_of_spec d0 l :
  In (min_date_of d0 l) (d0 :: l) /\
  forall x, In x (d0 :: l) -> date_le (min_date_of d0 l) x.
Proof.
  induction l as [|a l [IH1 IH2]]; simpl.
  - split; [auto|]. intros x [<-|[]]. apply date_le_refl.
  - fold (min_date_of d0 l).
    destruct (date_ltb a (min_date_of d0 l)) eqn:E.
    + split; [auto|]. intros x [<-|[<-|Hx]].
      * apply date_lt_le. eapply date_lt_le_trans; [exact E|]. apply IH2. left. reflexivity.
      * apply date_le_refl.
      * apply date_lt_le. eapply date_lt_le_trans; [exact E|]. apply IH2. right. exact Hx.
    + split; [simpl in IH1; tauto|]. intros x [<-|[<-|Hx]].
      * apply IH2. left. reflexivity.
      * unfold date_le, date_leb. rewrite E. reflexivity.
      * apply IH2. right. exact Hx.
Qed.

Lemma max_date_of_spec d0 l :
  In (max_date_of d0 l) (d0 :: l) /\
  forall x, In x (d0 :: l) -> date_le x (max_date_of d0 l).
Proof.
  induction l as [|a l [IH1 IH2]]; simpl.
  - split; [auto|]. intros x [<-|[]]. apply date_le_refl.
  - fold (max_date_of d0 l). unfold date_max.
    destruct (date_ltb a (max_date_of d0 l)) eqn:E.
    + split; [simpl in IH1; tauto|]. intros x [<-|[<-|Hx]].
      * apply IH2. left. reflexivity.
      * apply date_lt_le. exact E.
      * apply IH2. right. exact Hx.
    + assert (Hle : date_le (max_date_of d0 l) a)
        by (unfold date_le, date_leb; rewrite E; reflexivity).
      split; [auto|]. intros x [<-|[<-|Hx]].
      * eapply date_le_trans; [|exact Hle]. apply IH2. left. reflexivity.
      * apply date_le_refl.
      * eapply date_le_trans; [|exact Hle]. apply IH2. right. exact Hx.
Qed.

Lemma find_group_map (mk : Date -> DayGroup) d l :
  (forall x, g_date (mk x) = x) ->
  find (fun g => date_eqb (g_date g) d) (map mk l)
  = if existsb (date_eqb d) l then Some (mk d) else None.
Proof.
  intros Hmk. induction l as [|x l IH]; simpl; [reflexivity|].
  rewrite Hmk. destruct (date_eqb x d) eqn:E.
  - apply date_eqb_eq in E. subst x. rewrite date_eqb_refl. reflexivity.
  - assert (E' : date_eqb d x = false).
    { apply date_eqb_neq. apply date_eqb_neq in E. congruence. }
    rewrite E'. simpl. exact IH.
Qed.

Lemma credit_debit_amount t : credit_of t + debit_of t = t_amount t.
Proof.
  unfold credit_of, debit_of.
  destruct (0 <? t_amount t) eqn:E1, (t_amount t <=? 0) eqn:E2; lia.
Qed.

Lemma filter_nil_iff {A} (p : A -> bool) l :
  filter p l = [] <-> forall x, In x l -> p x = false.
Proof.
  induction l as [|a l IH]; simpl; [tauto|].
  destruct (p a) eqn:E.
  - split; [discriminate|]. intros H. specialize (H a (or_introl eq_refl)). congruence.
  - rewrite IH. split.
    + intros H x [<-|Hx]; auto.
    + intros H x Hx. apply H. right. exact Hx.
Qed.

Lemma merge_day_eq df d :
  merge_day (daily_summary df) d
  = if in_span df d then group_of df d else mkGroup d 0 0 false 0.
Proof.
  unfold merge_day, daily_summary, in_span. destruct df as [|t0 df]; [reflexivity|].
  rewrite (find_group_map (group_of (t0 :: df))); [|reflexivity].
  destruct (existsb _ _); reflexivity.
Qed.

Lemma merge_day_date df d : g_date (merge_day (daily_summary df) d) = d.
Proof. rewrite merge_day_eq. destruct (in_span df d); reflexivity. Qed.

Lemma in_span_complete df t :
  (forall x, In x df -> valid_date (t_date x) = true) ->
  In t df -> in_span df (t_date t) = true.
Proof.
  intros Hv Hin. unfold in_span. destruct df as [|t0 df]; [contradiction|].
  pose proof (min_date_of_spec (t_date t0) (map t_date (t0 :: df))) as [Hmin1 Hmin2].
  pose proof (max_date_of_spec (t_date t0) (map t_date (t0 :: df))) as [Hmax1 Hmax2].
  assert (Hdates : forall x, In x (t_date t0 :: map t_date (t0 :: df)) -> valid_date x = true).
  { intros x [<-|Hx]; [apply Hv; left; reflexivity|].
    apply in_map_iff in Hx. destruct Hx as (y & <- & Hy). apply Hv, Hy. }
  apply existsb_date_In. apply date_range_spec; auto.
  split; [apply Hv, Hin|].
  assert (Ht : In (t_date t) (t_date t0 :: map t_date (t0 :: df))).
  { right. apply in_map. exact Hin. }
  split; [apply Hmin2 | apply Hmax2]; exact Ht.
Qed.

Lemma merge_day_net df d :
  (forall x, In x df -> valid_date (t_date x) = true) ->
  g_net_change (merge_day (daily_summary df) d)
  = sum_Z (map t_amount (on_day d df)).
Proof.
  intros Hv. rewrite merge_day_eq. destruct (in_span df d) eqn:E; simpl.
  - rewrite <- sum_Z_map_add. apply sum_Z_map_ext. intros t _. apply credit_debit_amount.
  - assert (H : on_day d df = []).
    { apply filter_nil_iff. intros t Ht.
      destruct (date_eqb (t_date t) d) eqn:Ed; [|reflexivity].
      apply date_eqb_eq in Ed. subst d.
      rewrite (in_span_complete df t Hv Ht) in E. discriminate. }
    rewrite H. reflexivity.
Qed.

(** Summing the daily net changes over distinct days counts each
    transaction dated on one of them once. *)
Lemma sum_by_day df (L : list Date) :
  NoDup L ->
  sum_Z (map (fun x => sum_Z (map t_amount (on_day x df))) L)
  = sum_Z (map t_amount (filter (fun t => existsb (date_eqb (t_date t)) L) df)).
Proof.
  induction 1 as [|x L Hx Hnd IH]; simpl.
  - rewrite sum_Z_filter. induction df as [|t df IHdf]; simpl; [reflexivity | exact IHdf].
  - rewrite IH. unfold on_day. rewrite !sum_Z_filter, <- sum_Z_map_add.
    apply sum_Z_map_ext. intros t _.
    destruct (date_eqb (t_date t) x) eqn:E; simpl; [|reflexivity].
    apply date_eqb_eq in E. subst x.
    destruct (existsb (date_eqb (t_date t)) L) eqn:E2; [|lia].
    apply existsb_date_In in E2. contradiction.
Qed.

Lemma selected_after_nil st u a d :
  selected_after st u a = [] -> occurrences_between st u a d = [].
Proof.
  unfold selected_after, occurrences_between. rewrite !filter_nil_iff.
  intros H t Ht. rewrite (H t Ht). reflexivity.
Qed.

(** The balance of a row of the dense grid: the anchor balance plus the
    amounts of the selected transactions dated up to that day. *)
Lemma grid_balance st u a ve (B : Z) pre d post :
  valid_date a = true -> valid_date ve = true -> dates_valid st ->
  date_range a ve = pre ++ d :: post ->
  let df := order_by tx_before (selected_after st u a) in
  B + (0 + sum_Z (map g_net_change (map (merge_day (daily_summary df)) pre))
       + g_net_change (merge_day (daily_summary df) d))
  = B + sum_Z (map t_amount (occurrences_between st u a d)).
Proof.
  intros Ha Hve Hdv Hgrid df.
  assert (Hdf : forall t, In t df <-> In t (selected_after st u a))
    by (intros t; apply order_by_In).
  assert (Hv : forall t, In t df -> valid_date (t_date t) = true).
  { intros t Ht. apply Hdf in Ht. apply filter_In in Ht. apply Hdv, Ht. }
  pose proof (date_range_sorted a ve) as Hsorted. rewrite Hgrid in Hsorted.
  destruct (sorted_date_split _ _ _ Hsorted) as [Hpre Hpost].
  assert (Hnd : NoDup (pre ++ [d])).
  { apply NoDup_app_remove_r with (l' := post).
    replace ((pre ++ [d]) ++ post) with (pre ++ d :: post)
      by (rewrite <- app_assoc; reflexivity).
    apply sorted_date_NoDup. rewrite <- Hgrid. apply date_range_sorted. }
  assert (Hsum : sum_Z (map g_net_change (map (merge_day (daily_summary df)) pre))
                 + g_net_change (merge_day (daily_summary df) d)
                 = sum_Z (map (fun x => sum_Z (map t_amount (on_day x df))) (pre ++ [d]))).
  { rewrite map_app, sum_Z_app, map_map. simpl.
    rewrite (merge_day_net df d Hv).
    rewrite (map_ext _ (fun x => sum_Z (map t_amount (on_day x df))));
      [lia | intros x; apply merge_day_net, Hv]. }
  replace (0 + sum_Z (map g_net_change (map (merge_day (daily_summary df)) pre))
           + g_net_change (merge_day (daily_summary df) d))
    with (sum_Z (map (fun x => sum_Z (map t_amount (on_day x df))) (pre ++ [d])))
    by lia.
  f_equal. rewrite (sum_by_day df _ Hnd).
  rewrite sum_Z_filter. unfold df. rewrite order_by_sum.
  unfold selected_after, occurrences_between. rewrite !sum_Z_filter.
  apply sum_Z_map_ext. intros t Ht.
  destruct (String.eqb (t_user_id t) u && date_leb a (t_date t)) eqn:Esel;
    simpl; [|reflexivity].
  apply andb_true_iff in Esel. destruct Esel as [_ Hat].
  assert (Hd : In d (date_range a ve)) by (rewrite Hgrid; apply in_elt).
  apply date_range_spec in Hd; auto. destruct Hd as (Hdvalid & Had & Hdve).
  destruct (date_leb (t_date t) d) eqn:Etd.
  - assert (Hin : In (t_date t) (date_range a ve)).
    { apply date_range_spec; auto. split; [apply Hdv, Ht|].
      split; [exact Hat|]. eapply date_le_trans; eassumption. }
    rewrite Hgrid in Hin. apply in_app_or in Hin.
    assert (Hex : existsb (date_eqb (t_date t)) (pre ++ [d]) = true).
    { apply existsb_date_In. apply in_or_app. destruct Hin as [Hin|[E|Hin]].
      - left. exact Hin.
      - right. left. exact E.
      - exfalso. apply (date_lt_irrefl d).
        eapply date_lt_le_trans; [apply Hpost, Hin | exact Etd]. }
    rewrite Hex. reflexivity.
  - assert (Hex : existsb (date_eqb (t_date t)) (pre ++ [d]) = false).
    { apply not_true_is_false. intros Hex. apply existsb_date_In in Hex.
      apply in_app_or in Hex.
      assert (Hle : date_le (t_date t) d).
      { destruct Hex as [Hin|[E|[]]].
        - apply date_lt_le, Hpre, Hin.
        - rewrite E. apply date_le_refl. }
      unfold date_le in Hle. congruence. }
    rewrite Hex. reflexivity.
Qed.

(** A row of the merged calendar with its balance, as [get_calendar_data]
    assembles it for a user with transactions. *)
Lemma calendar_row_inv st u vs ve B a r :
  get_user_settings st u = Some (B, a) ->
  selected_after st u a <> [] ->
  In r (get_calendar_data st u vs ve) ->
  let df := order_by tx_before (selected_after st u a) in
  exists pre post,
    date_range a ve = pre ++ date r :: post /\
    in_view vs ve (date r) = true /\
    credits r = g_credits (merge_day (daily_summary df) (date r)) /\
    debits r = g_debits (merge_day (daily_summary df) (date r)) /\
    is_actual r = g_is_actual (merge_day (daily_summary df) (date r)) /\
    balance r = B + (0 + sum_Z (map g_net_change (map (merge_day (daily_summary df)) pre))
                     + g_net_change (merge_day (daily_summary df) (date r))).
Proof.
  intros Hs Hne Hin df. unfold get_calendar_data in Hin. rewrite Hs in Hin.
  destruct (get_all_transactions_after st u a) as [|p l] eqn:Eall.
  - exfalso. apply Hne.
    apply (order_by_nil tx_before). rewrite <- get_all_transactions_after_fst, Eall.
    reflexivity.
  - rewrite <- Eall in Hin. rewrite get_all_transactions_after_fst in Hin.
    fold df in Hin. apply in_map_iff in Hin. destruct Hin as ([g b] & <- & Hin).
    apply filter_In in Hin. destruct Hin as [Hin Hview]. simpl in *.
    apply combine_cumsum_In in Hin. destruct Hin as (pre & post & Hl & Hb).
    apply map_eq_app in Hl. destruct Hl as (gpre & grest & Hgrid & Hpre & Hrest).
    apply map_eq_cons in Hrest. destruct Hrest as (d & gpost & -> & Hg & Hpost).
    subst g pre. rewrite merge_day_date in *.
    exists gpre, gpost. repeat split; auto.
Qed.

Lemma calendar_flat st u vs ve B a :
  get_user_settings st u = Some (B, a) ->
  selected_after st u a = [] ->
  get_calendar_data st u vs ve
  = map (fun d => mkDaily d 0 0 true None B) (date_range vs ve).
Proof.
  intros Hs He. unfold get_calendar_data. rewrite Hs.
  destruct (get_all_transactions_after st u a) as [|p l] eqn:Eall; [reflexivity|].
  exfalso. assert (H : map fst (get_all_transactions_after st u a) = []).
  { rewrite get_all_transactions_after_fst, He. reflexivity. }
  rewrite Eall in H. discriminate.
Qed.

Lemma calendar_balance st u vs ve B a r :
  get_user_settings st u = Some (B, a) ->
  valid_date a = true -> valid_date ve = true -> dates_valid st ->
  In r (get_calendar_data st u vs ve) ->
  date_le a (date r) ->
  balance r = B + sum_Z (map t_amount (occurrences_between st u a (date r))).
Proof.
  intros Hs Ha Hve Hdv Hin Hle.
  destruct (selected_after st u a) as [|t0 sel] eqn:Esel.
  - rewrite (calendar_flat st u vs ve B a Hs Esel) in Hin.
    apply in_map_iff in Hin. destruct Hin as (d & <- & _). simpl.
    rewrite (selected_after_nil st u a d Esel). simpl. lia.
  - assert (Hne : selected_after st u a <> []) by (rewrite Esel; discriminate).
    destruct (calendar_row_inv st u vs ve B a r Hs Hne Hin)
      as (pre & post & Hgrid & _ & _ & _ & _ & Hb).
    rewrite Hb. apply grid_balance with (ve := ve) (post := post); auto.
Qed.

Lemma date_max_valid a b :
  valid_date a = true -> valid_date b = true -> valid_date (date_max a b) = true.
Proof. intros Ha Hb. unfold date_max. destruct (date_ltb a b); assumption. Qed.

Lemma date_max_le a b x :
  date_le (date_max a b) x <-> date_le a x /\ date_le b x.
Proof.
  unfold date_max. destruct (date_ltb a b) eqn:E.
  - split; [intros H | tauto]. split; [|exact H].
    apply date_lt_le. eapply date_lt_le_trans; eassumption.
  - assert (Hba : date_le b a) by (unfold date_le, date_leb; rewrite E; reflexivity).
    split; [intros H | tauto]. split; [exact H|].
    eapply date_le_trans; eassumption.
Qed.

(** The days of the rows returned for a user with transactions: the days
    of the window from the anchor date on. *)
Lemma calendar_dates st u vs ve B a :
  get_user_settings st u = Some (B, a) ->
  selected_after st u a <> [] ->
  valid_date a = true -> valid_date vs = true -> valid_date ve = true ->
  map date (get_calendar_data st u vs ve) = date_range (date_max a vs) ve.
Proof.
  intros Hs Hne Ha Hvs Hve. unfold get_calendar_data. rewrite Hs.
  destruct (get_all_transactions_after st u a) as [|p l] eqn:Eall.
  - exfalso. apply Hne. apply (order_by_nil tx_before).
    rewrite <- get_all_transactions_after_fst, Eall. reflexivity.
  - rewrite <- Eall. rewrite get_all_transactions_after_fst.
    set (df := order_by tx_before (selected_after st u a)).
    rewrite map_map. simpl.
    rewrite (map_filter_fst g_date (in_view vs ve)).
    rewrite combine_cumsum_fst, map_map.
    rewrite (map_ext _ (fun d => d)) by (intros d; apply merge_day_date).
    rewrite map_id.
    apply sorted_date_ext.
    + apply sorted_date_filter, date_range_sorted.
    + apply date_range_sorted.
    + intros x. rewrite filter_In.
      rewrite !date_range_spec by auto using date_max_valid.
      rewrite date_max_le. unfold in_view. rewrite andb_true_iff.
      unfold date_le. tauto.
Qed.

Lemma calendar_row_after_anchor st u vs ve B a r :
  get_user_settings st u = Some (B, a) ->
  selected_after st u a <> [] ->
  valid_date a = true -> valid_date ve = true ->
  In r (get_calendar_data st u vs ve) ->
  valid_date (date r) = true /\ date_le a (date r) /\ date_le (date r) ve.
Proof.
  intros Hs Hne Ha Hve Hin.
  destruct (calendar_row_inv st u vs ve B a r Hs Hne Hin) as (pre & post & Hgrid & _).
  apply date_range_spec; auto. rewrite Hgrid. apply in_elt.
Qed.

(** A day without occurrences leaves the running sum where it was. *)
Lemma occurrences_between_next_day st u a d :
  dates_valid st -> valid_date d = true ->
  occurrences_on st u (next_day d) = [] ->
  occurrences_between st u a (next_day d) = occurrences_between st u a d.
Proof.
  intros Hdv Hd Hnone. unfold occurrences_between. apply filter_ext_in.
  intros t Ht.
  destruct (String.eqb (t_user_id t) u) eqn:Eu; [simpl|reflexivity].
  destruct (date_leb a (t_date t)); [simpl|reflexivity].
  unfold occurrences_on in Hnone. rewrite filter_nil_iff in Hnone.
  specialize (Hnone t Ht). rewrite Eu in Hnone. simpl in Hnone.
  apply date_eqb_neq in Hnone.
  destruct (date_leb (t_date t) d) eqn:E1.
  - apply date_lt_le. eapply date_le_lt_trans; [exact E1 | apply next_day_gt].
  - apply not_true_is_false. intros E2. apply Hnone.
    apply date_le_antisym; [exact E2|].
    apply next_day_least; [exact Hd | apply Hdv, Ht |].
    unfold date_leb in E1. apply negb_false_iff in E1. exact E1.
Qed.

(** ** The expansion of a rule *)

Lemma advance_unknown f d : known_frequency f = false -> advance f d = d.
Proof.
  unfold known_frequency, advance. intros H.
  repeat (apply orb_false_iff in H; destruct H as [H ?]).
  repeat match goal with E : String.eqb _ _ = false |- _ => rewrite E; clear E end.
  reflexivity.
Qed.

Lemma advance_gt f d : known_frequency f = true -> date_lt d (advance f d).
Proof.
  unfold known_frequency, advance. intros H.
  destruct (String.eqb f "daily"); [apply add_days_gt|].
  destruct (String.eqb f "weekly"); [apply add_days_gt|].
  destruct (String.eqb f "bi-weekly"); [apply add_days_gt|].
  destruct (String.eqb f "monthly"); [apply add_months_gt; lia|].
  destruct (String.eqb f "bi-monthly"); [apply add_months_gt; lia|].
  discriminate.
Qed.

Lemma advance_valid f d : valid_date d = true -> valid_date (advance f d) = true.
Proof.
  intros H. unfold advance.
  destruct (String.eqb f "daily"); [apply add_days_valid, H|].
  destruct (String.eqb f "weekly"); [apply add_days_valid, H|].
  destruct (String.eqb f "bi-weekly"); [apply add_days_valid, H|].
  destruct (String.eqb f "monthly"); [apply add_months_valid; [lia | exact H]|].
  destruct (String.eqb f "bi-monthly"); [apply add_months_valid; [lia | exact H]|].
  exact H.
Qed.

Lemma date_key_add_days n d :
  valid_date d = true -> date_key d + 1 <= date_key (add_days (S n) d).
Proof.
  intros H. induction n as [|n IH].
  - apply date_key_next_day, H.
  - rewrite add_days_succ.
    pose proof (date_key_next_day (add_days (S n) d) (add_days_valid _ _ H)). lia.
Qed.

Lemma date_key_add_months n d :
  1 <= n <= 12 -> valid_date d = true -> date_key d + 1 <= date_key (add_months n d).
Proof.
  intros Hn Hd. apply valid_date_spec in Hd. destruct Hd as [Hm Hd].
  pose proof (days_in_month_bounds (year d) (month d)).
  unfold add_months, date_key.
  destruct (12 <? month d + n) eqn:E; simpl.
  - pose proof (days_in_month_bounds (year d + 1) (month d + n - 12)). lia.
  - pose proof (days_in_month_bounds (year d) (month d + n)). lia.
Qed.

Lemma advance_key f d :
  known_frequency f = true -> valid_date d = true ->
  date_key d + 1 <= date_key (advance f d).
Proof.
  unfold known_frequency, advance. intros H Hd.
  destruct (String.eqb f "daily"); [apply date_key_add_days, Hd|].
  destruct (String.eqb f "weekly"); [apply date_key_add_days, Hd|].
  destruct (String.eqb f "bi-weekly"); [apply date_key_add_days, Hd|].
  destruct (String.eqb f "monthly"); [apply date_key_add_months; [lia | exact Hd]|].
  destruct (String.eqb f "bi-monthly"); [apply date_key_add_months; [lia | exact Hd]|].
  discriminate.
Qed.

(** *** The latest stored date of a rule *)

Lemma max_date_spec l m :
  max_date l = Some m <-> In m l /\ forall x, In x l -> date_le x m.
Proof.
  revert m. induction l as [|d l IH]; intros m; simpl.
  - split; [discriminate | tauto].
  - destruct (max_date l) as [m'|] eqn:E.
    + destruct (proj1 (IH m') eq_refl) as [Hin Hmax].
      unfold date_max. destruct (date_ltb d m') eqn:Elt.
      * split.
        -- intros H. inversion H; subst m. split; [auto|].
           intros x [<-|Hx]; [apply date_lt_le, Elt | apply Hmax, Hx].
        -- intros [Hm Hall]. f_equal. apply date_le_antisym.
           ++ apply Hall. right. exact Hin.
           ++ destruct Hm as [<-|Hm]; [apply date_lt_le, Elt | apply Hmax, Hm].
      * assert (Hle : date_le m' d)
          by (unfold date_le, date_leb; rewrite Elt; reflexivity).
        split.
        -- intros H. inversion H; subst m. split; [auto|].
           intros x [<-|Hx]; [apply date_le_refl|].
           eapply date_le_trans; [apply Hmax, Hx | exact Hle].
        -- intros [Hm Hall]. f_equal. apply date_le_antisym.
           ++ apply Hall. left. reflexivity.
           ++ destruct Hm as [<-|Hm]; [apply date_le_refl|].
              eapply date_le_trans; [apply Hmax, Hm | exact Hle].
    + assert (Hl : l = []) by (destruct l; [reflexivity|]; simpl in E;
                               destruct (max_date l); discriminate).
      subst l. split.
      * intros H. inversion H; subst m. split; [auto|].
        intros x [<-|[]]. apply date_le_refl.
      * intros [[<-|[]] _]. reflexivity.
Qed.

Lemma rule_rows_add st u sid d c desc amt conf :
  rule_rows (fst (add_transaction st u d c desc amt conf (Some sid))) u sid
  = rule_rows st u sid ++ [mkTransaction (seq_transactions st + 1) u (Some sid) c d desc amt conf].
Proof.
  unfold rule_rows, add_transaction. simpl. rewrite filter_app. simpl.
  rewrite String.eqb_refl, Z.eqb_refl. reflexivity.
Qed.

Lemma last_generated_after_add st u sid d c desc amt conf :
  (forall t, In t (rule_rows st u sid) -> date_lt (t_date t) d) ->
  get_last_generated_date (fst (add_transaction st u d c desc amt conf (Some sid))) u sid
  = Some d.
Proof.
  intros Hlt. unfold get_last_generated_date. fold (rule_rows (fst (add_transaction st u d c desc amt conf (Some sid))) u sid).
  rewrite rule_rows_add, map_app. simpl. apply max_date_spec. split.
  - apply in_or_app. right. left. reflexivity.
  - intros x Hx. apply in_app_or in Hx. destruct Hx as [Hx|[<-|[]]].
    + apply in_map_iff in Hx. destruct Hx as (t & <- & Ht). apply date_lt_le, Hlt, Ht.
    + apply date_le_refl.
Qed.

(** *** The loop *)

Lemma while_loop_fuel_pos fuel u sch e s db :
  while_loop fuel u sch e s = Some db -> exists fuel', fuel = S fuel'.
Proof. destruct fuel; [discriminate|]. eauto. Qed.

(** With an unknown frequency the cursor does not move: the loop returns
    only when it is not entered. *)
Lemma while_loop_unknown fuel u sch e s db :
  known_frequency (frequency sch) = false ->
  while_loop fuel u sch e s = Some db ->
  db = conn s /\ date_lt e (current_date s).
Proof.
  intros Hf. revert s. induction fuel as [|fuel IH]; intros s; simpl; [discriminate|].
  destruct (date_leb (current_date s) e) eqn:E.
  - intros H. apply IH in H. destruct H as [_ H]. simpl in H.
    rewrite (advance_unknown _ _ Hf) in H.
    exfalso. apply (date_lt_irrefl e). eapply date_lt_le_trans; eassumption.
  - intros H. inversion H. split; [reflexivity|].
    unfold date_leb in E. apply negb_false_iff in E. exact E.
Qed.

Lemma while_loop_unknown_diverges fuel u sch e s :
  known_frequency (frequency sch) = false ->
  date_le (current_date s) e ->
  while_loop fuel u sch e s = None.
Proof.
  intros Hf Hle. destruct (while_loop fuel u sch e s) as [db|] eqn:E; [|reflexivity].
  apply while_loop_unknown in E; [|exact Hf]. destruct E as [_ E].
  exfalso. apply (date_lt_irrefl e). eapply date_lt_le_trans; eassumption.
Qed.

(** With a known frequency, either nothing was written, or the latest
    stored date of the rule is the last date written and its successor in
    the schedule is beyond the end of the loop. *)
Lemma while_loop_known fuel u sch e s db :
  known_frequency (frequency sch) = true ->
  (forall t, In t (rule_rows (conn s) u (schedule_id sch)) ->
             date_lt (t_date t) (current_date s)) ->
  while_loop fuel u sch e s = Some db ->
  (db = conn s /\ (date_lt e (current_date s)
                   \/ date_lt (current_date s) (s_start_date sch)))
  \/ (exists w, get_last_generated_date db u (schedule_id sch) = Some w
                /\ date_lt e (advance (frequency sch) w)).
Proof.
  intros Hf. revert s. induction fuel as [|fuel IH]; intros s Hrows; cbn [while_loop]; [discriminate|].
  destruct (date_leb (current_date s) e) eqn:E.
  - intros H.
    pose proof (advance_gt _ (current_date s) Hf) as Hgt.
    destruct (date_leb (s_start_date sch) (current_date s)) eqn:Es.
    + (* an occurrence is written at the cursor *)
      apply IH in H.
      * destruct H as [[Hdb Hcur]|H]; [|right; exact H].
        right. exists (current_date s). cbn [loop_body conn current_date] in Hdb, Hcur. rewrite Es in Hdb.
        split.
        -- subst db. apply last_generated_after_add. exact Hrows.
        -- destruct Hcur as [Hcur|Hcur]; [exact Hcur|].
           exfalso. apply (date_lt_irrefl (current_date s)).
           eapply date_lt_le_trans; [exact Hgt|].
           apply date_lt_le. eapply date_lt_le_trans; eassumption.
      * cbn [loop_body conn current_date]. rewrite Es. intros t Ht. rewrite rule_rows_add in Ht.
        apply in_app_or in Ht. destruct Ht as [Ht|[<-|[]]]; simpl.
        -- eapply date_lt_le_trans; [apply Hrows, Ht | apply date_lt_le, Hgt].
        -- exact Hgt.
    + (* the cursor is before the rule starts *)
      apply IH in H.
      * destruct H as [[Hdb Hcur]|H]; [|right; exact H].
        left. cbn [loop_body conn current_date] in Hdb. rewrite Es in Hdb. split; [exact Hdb|].
        right. unfold date_leb in Es. apply negb_false_iff in Es. exact Es.
      * cbn [loop_body conn current_date]. rewrite Es. intros t Ht.
        eapply date_lt_le_trans; [apply Hrows, Ht | apply date_lt_le, Hgt].
  - intros H. inversion H. left. split; [reflexivity|]. left.
    unfold date_leb in E. apply negb_false_iff in E. exact E.
Qed.

Lemma resume_after_rows st u sch :
  known_frequency (frequency sch) = true ->
  forall t, In t (rule_rows st u (schedule_id sch)) ->
            date_lt (t_date t) (resume_date st u sch).
Proof.
  intros Hf t Ht. unfold resume_date.
  destruct (get_last_generated_date st u (schedule_id sch)) as [m|] eqn:E.
  - apply max_date_spec in E. destruct E as [_ Hmax].
    eapply date_le_lt_trans; [|apply advance_gt, Hf].
    apply Hmax. apply in_map. exact Ht.
  - exfalso. unfold get_last_generated_date in E. fold (rule_rows st u (schedule_id sch)) in E.
    destruct (rule_rows st u (schedule_id sch)) as [|x l]; [contradiction|].
    simpl in E. destruct (max_date (map t_date l)); discriminate.
Qed.

(** Expanding a rule again, on the store the first expansion left, changes
    nothing. *)
Lemma expand_schedule_again fuel st u sch horizon st1 :
  expand_schedule fuel st u sch horizon = Some st1 ->
  expand_schedule fuel st1 u sch horizon = Some st1.
Proof.
  intros H. unfold expand_schedule in *.
  destruct (known_frequency (frequency sch)) eqn:Hf.
  - pose proof H as H0.
    apply while_loop_known in H; [|exact Hf | apply resume_after_rows, Hf].
    simpl in H. destruct H as [[Hdb _]|(w & Hlast & Hend)].
    + subst st1. exact H0.
    + apply while_loop_fuel_pos in H0. destruct H0 as (fuel' & ->). simpl.
      unfold resume_date. rewrite Hlast.
      assert (E : date_leb (advance (frequency sch) w) (loop_end sch horizon) = false).
      { unfold date_leb. apply negb_false_iff. exact Hend. }
      rewrite E. reflexivity.
  - pose proof H as H0. apply while_loop_unknown in H; [|exact Hf].
    simpl in H. destruct H as [-> _]. exact H0.
Qed.

(** With a known frequency the loop ends. *)
Lemma while_loop_terminates n u sch e s :
  known_frequency (frequency sch) = true ->
  valid_date (current_date s) = true ->
  (year e + 1) * 372 - date_key (current_date s) < Z.of_nat n ->
  exists db, while_loop (S n) u sch e s = Some db.
Proof.
  intros Hf. revert s. induction n as [|n IH]; intros s Hv Hn.
  - simpl. destruct (date_leb (current_date s) e) eqn:E; [|eauto].
    exfalso. apply valid_date_spec in Hv.
    pose proof (days_in_month_bounds (year (current_date s)) (month (current_date s))).
    unfold date_key in Hn. date_order.
  - cbn [while_loop]. destruct (date_leb (current_date s) e) eqn:E; [|eauto].
    apply IH.
    + simpl. apply advance_valid, Hv.
    + simpl. pose proof (advance_key _ _ Hf Hv). lia.
Qed.

Lemma get_last_generated_valid st u sid d :
  dates_valid st -> get_last_generated_date st u sid = Some d -> valid_date d = true.
Proof.
  intros Hdv H. apply max_date_spec in H. destruct H as [Hin _].
  apply in_map_iff in Hin. destruct Hin as (t & <- & Ht).
  apply filter_In in Ht. apply Hdv, Ht.
Qed.

Lemma expand_schedule_terminates st u sch horizon :
  known_frequency (frequency sch) = true ->
  valid_date (s_start_date sch) = true -> dates_valid st ->
  exists fuel st1, expand_schedule fuel st u sch horizon = Some st1.
Proof.
  intros Hf Hs Hdv. unfold expand_schedule.
  set (s := mkLoop (resume_date st u sch) st).
  set (e := loop_end sch horizon).
  destruct (while_loop_terminates
              (Z.to_nat ((year e + 1) * 372 - date_key (current_date s) + 1))
              u sch e s Hf) as (db & Hdb).
  - simpl. unfold resume_date. apply advance_valid.
    destruct (get_last_generated_date st u (schedule_id sch)) eqn:E; [|exact Hs].
    eapply get_last_generated_valid; eassumption.
  - lia.
  - eauto.
Qed.

(** *** Fuel *)

Lemma while_loop_fuel_mono fuel k u sch e s db :
  while_loop fuel u sch e s = Some db -> while_loop (fuel + k) u sch e s = Some db.
Proof.
  revert s. induction fuel as [|fuel IH]; intros s; simpl; [discriminate|].
  destruct (date_leb (current_date s) e); [apply IH | auto].
Qed.

Lemma expand_all_fuel_mono fuel k u rules e st db :
  expand_all fuel st u rules e = Some db -> expand_all (fuel + k) st u rules e = Some db.
Proof.
  revert st. induction rules as [|sch rules IH]; intros st; simpl; [auto|].
  unfold expand_schedule.
  destruct (while_loop fuel u sch (loop_end sch e) _) as [st'|] eqn:E; [|discriminate].
  rewrite (while_loop_fuel_mono _ k _ _ _ _ _ E). apply IH.
Qed.

Lemma run_projection_deterministic f1 f2 st u e s1 s2 :
  run_projection f1 st u e = Some s1 -> run_projection f2 st u e = Some s2 -> s1 = s2.
Proof.
  unfold run_projection. intros H1 H2.
  apply (expand_all_fuel_mono _ f2) in H1. apply (expand_all_fuel_mono _ f1) in H2.
  rewrite Nat.add_comm in H2. congruence.
Qed.

Lemma iterate_unknown_rows n u sch s :
  known_frequency (frequency sch) = false ->
  date_le (s_start_date sch) (current_date s) ->
  List.length (rule_rows (conn (iterate_body n u sch s)) u (schedule_id sch))
  = (List.length (rule_rows (conn s) u (schedule_id sch)) + n)%nat.
Proof.
  intros Hf. revert s. induction n as [|n IH]; intros s Hs; simpl; [lia|].
  rewrite IH.
  - cbn [loop_body conn]. rewrite Hs, rule_rows_add, length_app. simpl. lia.
  - cbn [loop_body current_date]. rewrite (advance_unknown _ _ Hf). exact Hs.
Qed.

(** *** A whole projection, run again *)

Lemma while_loop_length fuel u sch e s db :
  while_loop fuel u sch e s = Some db ->
  (List.length (transactions (conn s)) <= List.length (transactions db))%nat.
Proof.
  revert s. induction fuel as [|fuel IH]; intros s; simpl; [discriminate|].
  destruct (date_leb (current_date s) e).
  - intros H. apply IH in H. cbn [loop_body conn] in H.
    destruct (date_leb (s_start_date sch) (current_date s)); [|exact H].
    unfold add_transaction in H. simpl in H. rewrite length_app in H. simpl in H. lia.
  - intros H. inversion H. lia.
Qed.

(** A run of the loop that wrote nothing writes nothing on any other
    store either: its path depends on the cursor only. *)
Lemma while_loop_noop fuel u sch e c s s' :
  while_loop fuel u sch e (mkLoop c s) = Some s ->
  while_loop fuel u sch e (mkLoop c s') = Some s'.
Proof.
  revert c. induction fuel as [|fuel IH]; intros c; simpl; [discriminate|].
  destruct (date_leb c e); [|reflexivity].
  unfold loop_body. cbn [current_date conn].
  destruct (date_leb (s_start_date sch) c).
  - intros H. apply while_loop_length in H. exfalso.
    unfold add_transaction in H. simpl in H. rewrite length_app in H. simpl in H. lia.
  - apply IH.
Qed.

Lemma rule_rows_add_other st u sid d c desc amt conf sid' :
  sid <> sid' ->
  rule_rows (fst (add_transaction st u d c desc amt conf (Some sid'))) u sid
  = rule_rows st u sid.
Proof.
  intros Hne. unfold rule_rows, add_transaction. simpl. rewrite filter_app. simpl.
  assert (E : (sid' =? sid) = false) by (apply Z.eqb_neq; congruence).
  rewrite E, andb_false_r. apply app_nil_r.
Qed.

Lemma while_loop_other_rule fuel u sch e s db sid :
  sid <> schedule_id sch ->
  while_loop fuel u sch e s = Some db ->
  rule_rows db u sid = rule_rows (conn s) u sid.
Proof.
  intros Hne. revert s. induction fuel as [|fuel IH]; intros s; simpl; [discriminate|].
  destruct (date_leb (current_date s) e).
  - intros H. apply IH in H. rewrite H. cbn [loop_body conn].
    destruct (date_leb (s_start_date sch) (current_date s)); [|reflexivity].
    apply rule_rows_add_other, Hne.
  - intros H. inversion H. reflexivity.
Qed.

Lemma expand_all_other_rule fuel u rules e st db sid :
  ~ In sid (map schedule_id rules) ->
  expand_all fuel st u rules e = Some db ->
  rule_rows db u sid = rule_rows st u sid.
Proof.
  revert st. induction rules as [|sch rules IH]; intros st Hnot; simpl.
  - intros H. inversion H. reflexivity.
  - destruct (expand_schedule fuel st u sch e) as [st'|] eqn:E; [|discriminate].
    intros H. simpl in Hnot. apply IH in H; [|tauto]. rewrite H.
    unfold expand_schedule in E.
    apply (while_loop_other_rule _ _ _ _ _ _ sid) in E; [exact E|].
    intros Heq. apply Hnot. left. congruence.
Qed.

Lemma expand_schedule_noop fuel u sch e s s' :
  rule_rows s' u (schedule_id sch) = rule_rows s u (schedule_id sch) ->
  expand_schedule fuel s u sch e = Some s ->
  expand_schedule fuel s' u sch e = Some s'.
Proof.
  intros Hrows. unfold expand_schedule, resume_date, get_last_generated_date.
  fold (rule_rows s u (schedule_id sch)). fold (rule_rows s' u (schedule_id sch)).
  rewrite Hrows. apply while_loop_noop.
Qed.

Lemma expand_all_again fuel u rules e st st1 :
  NoDup (map schedule_id rules) ->
  expand_all fuel st u rules e = Some st1 ->
  expand_all fuel st1 u rules e = Some st1.
Proof.
  revert st. induction rules as [|sch rules IH]; intros st Hnd; simpl; [reflexivity|].
  destruct (expand_schedule fuel st u sch e) as [s1|] eqn:E; [|discriminate].
  intros H. simpl in Hnd. apply NoDup_cons_iff in Hnd. destruct Hnd as [Hnot Hnd].
  rewrite (expand_schedule_noop fuel u sch e s1 st1).
  - apply (IH s1 Hnd H).
  - apply (expand_all_other_rule fuel u rules e s1 st1 _ Hnot H).
  - apply expand_schedule_again with (st := st). exact E.
Qed.

Lemma while_loop_schedules fuel u sch e s db :
  while_loop fuel u sch e s = Some db ->
  scheduled_transactions db = scheduled_transactions (conn s).
Proof.
  revert s. induction fuel as [|fuel IH]; intros s; simpl; [discriminate|].
  destruct (date_leb (current_date s) e).
  - intros H. apply IH in H. rewrite H. cbn [loop_body conn].
    destruct (date_leb (s_start_date sch) (current_date s)); reflexivity.
  - intros H. inversion H. reflexivity.
Qed.

Lemma expand_all_schedules fuel u rules e st db :
  expand_all fuel st u rules e = Some db ->
  scheduled_transactions db = scheduled_transactions st.
Proof.
  revert st. induction rules as [|sch rules IH]; intros st; simpl.
  - intros H. inversion H. reflexivity.
  - destruct (expand_schedule fuel st u sch e) as [st'|] eqn:E; [|discriminate].
    intros H. apply IH in H. rewrite H. apply while_loop_schedules in E. exact E.
Qed.

(** Rule keys are a primary key: running the projection again on the
    store it left changes nothing. *)
Lemma run_projection_again fuel st u e st1 :
  NoDup (map schedule_id (schedules_of st u)) ->
  run_projection fuel st u e = Some st1 ->
  run_projection fuel st1 u e = Some st1.
Proof.
  assert (Hfst : forall s, map fst (get_scheduled_transactions s u) = schedules_of s u).
  { intros s. unfold get_scheduled_transactions, schedules_of.
    rewrite map_map. simpl. apply map_id. }
  unfold run_projection. rewrite !Hfst. intros Hnd H.
  assert (E : schedules_of st1 u = schedules_of st u).
  { unfold schedules_of. rewrite (expand_all_schedules fuel u _ e st st1 H). reflexivity. }
  rewrite E. exact (expand_all_again fuel u _ e st st1 Hnd H).
Qed.

(** ** Rows of other users *)

Lemma filter_snoc_out {A} (p : A -> bool) l x :
  p x = false -> filter p (l ++ [x]) = filter p l.
Proof. intros H. rewrite filter_app. simpl. rewrite H. apply app_nil_r. Qed.

Lemma filter_map_frame {A} (p : A -> bool) (f : A -> A) l :
  (forall x, p x = true -> f x = x) ->
  (forall x, p x = false -> p (f x) = false) ->
  filter p (map f l) = filter p l.
Proof.
  intros H1 H2. induction l as [|x l IH]; simpl; [reflexivity|].
  destruct (p x) eqn:E.
  - rewrite (H1 x E), E, IH. reflexivity.
  - rewrite (H2 x E), IH. reflexivity.
Qed.

Lemma filter_filter_frame {A} (p q : A -> bool) l :
  (forall x, p x = true -> q x = true) ->
  filter p (filter q l) = filter p l.
Proof.
  intros H. induction l as [|x l IH]; simpl; [reflexivity|].
  destruct (q x) eqn:Eq; simpl.
  - rewrite IH. reflexivity.
  - destruct (p x) eqn:Ep; [|exact IH].
    rewrite (H x Ep) in Eq. discriminate.
Qed.

Lemma eqb_other u v : v <> u -> String.eqb u v = false.
Proof. intros H. apply String.eqb_neq. congruence. Qed.

Lemma andb_eqb_other (b : bool) u v w :
  v <> u -> String.eqb w v = true -> negb (b && String.eqb w u) = true.
Proof.
  intros Hne Hw. apply String.eqb_eq in Hw. subst w.
  rewrite (proj2 (String.eqb_neq v u) Hne), andb_false_r. reflexivity.
Qed.

Lemma same_rows_refl u st : same_rows u st st.
Proof. repeat split. Qed.

Section Frame.
Variables (u v : string).
Hypothesis Hvu : v <> u.

Lemma add_category_frame st name type :
  same_rows v (add_category st u name type) st.
Proof.
  unfold same_rows, settings_of, categories_of, schedules_of, transactions_of,
    add_category; simpl.
  repeat split. apply filter_snoc_out. simpl. apply eqb_other, Hvu.
Qed.

Lemma delete_category_frame st cid :
  same_rows v (delete_category st cid u) st.
Proof.
  unfold same_rows, settings_of, categories_of, schedules_of, transactions_of,
    delete_category; simpl.
  split; [reflexivity|]. split; [|split].
  - apply filter_filter_frame. intros c Hc. eapply andb_eqb_other; eassumption.
  - apply filter_map_frame; intros s Hs.
    + apply String.eqb_eq in Hs.
      rewrite Hs, (proj2 (String.eqb_neq v u) Hvu), andb_false_r. reflexivity.
    + destruct (opt_Z_eqb (s_category_id s) cid && String.eqb (s_user_id s) u);
        simpl; exact Hs.
  - apply filter_map_frame; intros t Ht.
    + apply String.eqb_eq in Ht.
      rewrite Ht, (proj2 (String.eqb_neq v u) Hvu), andb_false_r. reflexivity.
    + destruct (opt_Z_eqb (t_category_id t) cid && String.eqb (t_user_id t) u);
        simpl; exact Ht.
Qed.

Lemma add_transaction_frame st d c desc amt conf sid :
  same_rows v (fst (add_transaction st u d c desc amt conf sid)) st.
Proof.
  unfold same_rows, settings_of, categories_of, schedules_of, transactions_of,
    add_transaction; simpl.
  repeat split. apply filter_snoc_out. simpl. apply eqb_other, Hvu.
Qed.

Lemma update_transaction_frame st tid d c desc amt conf :
  same_rows v (update_transaction st tid u d c desc amt conf) st.
Proof.
  unfold same_rows, settings_of, categories_of, schedules_of, transactions_of,
    update_transaction; simpl.
  repeat split. apply filter_map_frame; intros t Ht.
  - apply String.eqb_eq in Ht.
    rewrite Ht, (proj2 (String.eqb_neq v u) Hvu), andb_false_r. reflexivity.
  - destruct ((transaction_id t =? tid) && String.eqb (t_user_id t) u);
      simpl; exact Ht.
Qed.

Lemma delete_transaction_frame st tid :
  same_rows v (delete_transaction st tid u) st.
Proof.
  unfold same_rows, settings_of, categories_of, schedules_of, transactions_of,
    delete_transaction; simpl.
  repeat split. apply filter_filter_frame.
  intros t Ht. eapply andb_eqb_other; eassumption.
Qed.

Lemma add_scheduled_transaction_frame st c desc amt f sd ed :
  same_rows v (fst (add_scheduled_transaction st u c desc amt f sd ed)) st.
Proof.
  unfold same_rows, settings_of, categories_of, schedules_of, transactions_of,
    add_scheduled_transaction; simpl.
  repeat split. apply filter_snoc_out. simpl. apply eqb_other, Hvu.
Qed.

Lemma delete_scheduled_transaction_frame st sid future :
  same_rows v (delete_scheduled_transaction st sid u future) st.
Proof.
  unfold same_rows, settings_of, categories_of, schedules_of, transactions_of,
    delete_scheduled_transaction; simpl.
  split; [reflexivity|]. split; [reflexivity|]. split.
  - apply filter_filter_frame. intros s Hs. eapply andb_eqb_other; eassumption.
  - destruct future; [|reflexivity].
    apply filter_filter_frame. intros t Ht.
    apply String.eqb_eq in Ht.
    rewrite Ht, (proj2 (String.eqb_neq v u) Hvu), andb_false_r. reflexivity.
Qed.

Lemma update_user_settings_frame st B a :
  same_rows v (update_user_settings st u B a) st.
Proof.
  unfold same_rows, settings_of, categories_of, schedules_of, transactions_of,
    update_user_settings; simpl.
  repeat split. apply filter_map_frame; intros r Hr.
  - apply String.eqb_eq in Hr.
    rewrite Hr, (proj2 (String.eqb_neq v u) Hvu). reflexivity.
  - destruct (String.eqb (us_user_id r) u); simpl; exact Hr.
Qed.

Lemma get_or_create_user_frame st today :
  same_rows v (get_or_create_user st today u) st.
Proof.
  unfold get_or_create_user.
  destruct (existsb (String.eqb u) (users st)); [apply same_rows_refl|].
  unfold same_rows, settings_of, categories_of, schedules_of, transactions_of; simpl.
  pose proof (eqb_other u v Hvu) as E.
  repeat split.
  - apply filter_snoc_out. simpl. exact E.
  - rewrite filter_app. simpl. rewrite E. apply app_nil_r.
Qed.
End Frame.

(** ** What a read returns *)

Lemma get_categories_own st u c :
  In c (get_categories st u) -> c_user_id c = u /\ In c (categories st).
Proof.
  unfold get_categories. rewrite order_by_In, filter_In.
  intros [Hin Hu]. apply String.eqb_eq in Hu. auto.
Qed.

Lemma get_transactions_for_day_own st u d r :
  In r (get_transactions_for_day st u d) ->
  t_user_id (fst r) = u /\ t_date (fst r) = d /\ In (fst r) (transactions st).
Proof.
  unfold get_transactions_for_day. rewrite in_map_iff.
  intros (t & <- & Ht). apply filter_In in Ht. destruct Ht as [Hin Hp].
  apply andb_true_iff in Hp. destruct Hp as [Hu Hd].
  apply String.eqb_eq in Hu. apply date_eqb_eq in Hd. simpl. auto.
Qed.

Lemma get_all_transactions_after_own st u d r :
  In r (get_all_transactions_after st u d) ->
  t_user_id (fst r) = u /\ date_le d (t_date (fst r)) /\ In (fst r) (transactions st).
Proof.
  unfold get_all_transactions_after. rewrite in_map_iff.
  intros (t & <- & Ht). apply order_by_In, filter_In in Ht. destruct Ht as [Hin Hp].
  apply andb_true_iff in Hp. destruct Hp as [Hu Hd].
  apply String.eqb_eq in Hu. simpl. auto.
Qed.

Lemma get_scheduled_transactions_own st u r :
  In r (get_scheduled_transactions st u) ->
  s_user_id (fst r) = u /\ In (fst r) (scheduled_transactions st).
Proof.
  unfold get_scheduled_transactions. rewrite in_map_iff.
  intros (s & <- & Hs). apply filter_In in Hs. destruct Hs as [Hin Hu].
  apply String.eqb_eq in Hu. simpl. auto.
Qed.

Lemma get_scheduled_transactions_fst st u :
  map fst (get_scheduled_transactions st u) = schedules_of st u.
Proof.
  unfold get_scheduled_transactions, schedules_of. rewrite map_map. simpl. apply map_id.
Qed.

Lemma find_filter {A} (p : A -> bool) l : find p l = find p (filter p l).
Proof.
  induction l as [|x l IH]; simpl; [reflexivity|].
  destruct (p x) eqn:E; simpl; [rewrite E; reflexivity | exact IH].
Qed.

Lemma get_user_settings_same st st' u :
  settings_of st u = settings_of st' u ->
  get_user_settings st u = get_user_settings st' u.
Proof.
  unfold get_user_settings, settings_of. intros H.
  rewrite (find_filter _ (user_settings st)), (find_filter _ (user_settings st')), H.
  reflexivity.
Qed.

Lemma filter_andb {A} (p q : A -> bool) l :
  filter (fun x => p x && q x) l = filter q (filter p l).
Proof.
  induction l as [|x l IH]; simpl; [reflexivity|].
  destruct (p x); simpl; [destruct (q x); rewrite IH; reflexivity | exact IH].
Qed.

(** Selecting by a condition that does not read the key commutes with
    forgetting the key. *)
Lemma forget_filter (q : Transaction -> bool) l l' :
  (forall t, q (forget_id t) = q t) ->
  map forget_id l = map forget_id l' ->
  map forget_id (filter q l) = map forget_id (filter q l').
Proof.
  intros Hq. revert l'. induction l as [|x l IH]; intros [|y l'] H; cbn [map filter] in *;
    try discriminate; [reflexivity|].
  assert (Hxy : forget_id x = forget_id y) by congruence.
  assert (Hrest : map forget_id l = map forget_id l') by congruence.
  assert (E : q x = q y) by (rewrite <- (Hq x), <- (Hq y), Hxy; reflexivity).
  rewrite E. destruct (q y); cbn [map]; [rewrite Hxy; f_equal|]; apply IH, Hrest.
Qed.

Lemma forget_map {B} (f : Transaction -> B) l l' :
  (forall t, f (forget_id t) = f t) ->
  map forget_id l = map forget_id l' -> map f l = map f l'.
Proof.
  intros Hf H.
  rewrite <- (map_ext (fun t => f (forget_id t)) f Hf l).
  rewrite <- (map_ext (fun t => f (forget_id t)) f Hf l').
  rewrite <- !(map_map forget_id f). rewrite H. reflexivity.
Qed.

Lemma rule_rows_of st u sid :
  rule_rows st u sid
  = filter (fun t => opt_Z_eqb (t_schedule_id t) sid) (transactions_of st u).
Proof. unfold rule_rows, transactions_of. apply filter_andb. Qed.

Lemma selected_after_of st u a :
  selected_after st u a
  = filter (fun t => date_leb a (t_date t)) (transactions_of st u).
Proof. unfold selected_after, transactions_of. apply filter_andb. Qed.

Lemma get_last_generated_date_same st st' u sid :
  map forget_id (transactions_of st u) = map forget_id (transactions_of st' u) ->
  get_last_generated_date st u sid = get_last_generated_date st' u sid.
Proof.
  intros H. unfold get_last_generated_date.
  fold (rule_rows st u sid). fold (rule_rows st' u sid). rewrite !rule_rows_of.
  f_equal. apply forget_map; [reflexivity|].
  apply forget_filter; [reflexivity | exact H].
Qed.

(** ** The calendar reads the data of its user only *)

Lemma get_calendar_data_eq st u vs ve :
  get_calendar_data st u vs ve
  = match get_user_settings st u with
    | None => []
    | Some (B, a) =>
        match selected_after st u a with
        | [] => map (fun d => mkDaily d 0 0 true None B) (date_range vs ve)
        | _ :: _ =>
            calendar_rows B a vs ve
              (merge_day (daily_summary (order_by tx_before (selected_after st u a))))
        end
    end.
Proof.
  destruct (get_user_settings st u) as [[B a]|] eqn:Hs.
  - destruct (selected_after st u a) as [|t0 sel] eqn:Esel.
    + apply (calendar_flat st u vs ve B a Hs Esel).
    + unfold get_calendar_data. rewrite Hs.
      destruct (get_all_transactions_after st u a) as [|p l] eqn:Eall.
      * exfalso.
        assert (H : map fst (get_all_transactions_after st u a) = []) by (rewrite Eall; reflexivity).
        rewrite get_all_transactions_after_fst in H.
        apply order_by_nil in H. congruence.
      * rewrite <- Eall, get_all_transactions_after_fst, Esel. reflexivity.
  - unfold get_calendar_data. rewrite Hs. reflexivity.
Qed.

Lemma forallb_forget (q : Transaction -> bool) l l' :
  (forall t, q (forget_id t) = q t) ->
  map forget_id l = map forget_id l' -> forallb q l = forallb q l'.
Proof.
  intros Hq H.
  assert (E : forall k, forallb q k = forallb q (map forget_id k)).
  { induction k as [|x k IH]; simpl; [reflexivity|]. rewrite Hq, IH. reflexivity. }
  rewrite (E l), (E l'), H. reflexivity.
Qed.

Lemma group_of_same sel sel' d :
  map forget_id sel = map forget_id sel' ->
  group_of (order_by tx_before sel) d = group_of (order_by tx_before sel') d.
Proof.
  intros H. unfold group_of, on_day.
  assert (Hsum : forall f : Transaction -> Z,
            (forall t, f (forget_id t) = f t) ->
            sum_Z (map f (filter (fun t => date_eqb (t_date t) d) (order_by tx_before sel)))
            = sum_Z (map f (filter (fun t => date_eqb (t_date t) d) (order_by tx_before sel')))).
  { intros f Hf. rewrite !sum_Z_filter, !order_by_sum. f_equal.
    apply forget_map; [|exact H]. intros t. simpl. rewrite Hf. reflexivity. }
  assert (Hall : forallb (fun t => is_confirmed t =? 1)
                   (filter (fun t => date_eqb (t_date t) d) (order_by tx_before sel))
                 = forallb (fun t => is_confirmed t =? 1)
                   (filter (fun t => date_eqb (t_date t) d) (order_by tx_before sel'))).
  { rewrite (forallb_ext_In _ _ (filter (fun t => date_eqb (t_date t) d) sel)).
    - rewrite (forallb_ext_In _ (filter _ (order_by tx_before sel'))
                 (filter (fun t => date_eqb (t_date t) d) sel')).
      + apply forallb_forget; [reflexivity|]. apply forget_filter; [reflexivity | exact H].
      + intros x. rewrite !filter_In, order_by_In. tauto.
    - intros x. rewrite !filter_In, order_by_In. tauto. }
  rewrite (Hsum credit_of), (Hsum debit_of), Hall by reflexivity. reflexivity.
Qed.

Lemma in_span_ext df df' d :
  (forall x, In x (map t_date df) <-> In x (map t_date df')) ->
  in_span df d = in_span df' d.
Proof.
  intros H. unfold in_span. destruct df as [|t0 l], df' as [|t0' l'].
  - reflexivity.
  - exfalso. apply (proj2 (H (t_date t0'))). left. reflexivity.
  - exfalso. apply (proj1 (H (t_date t0))). left. reflexivity.
  - pose proof (min_date_of_spec (t_date t0) (map t_date (t0 :: l))) as [Hm1 Hm2].
    pose proof (min_date_of_spec (t_date t0') (map t_date (t0' :: l'))) as [Hm1' Hm2'].
    pose proof (max_date_of_spec (t_date t0) (map t_date (t0 :: l))) as [HM1 HM2].
    pose proof (max_date_of_spec (t_date t0') (map t_date (t0' :: l'))) as [HM1' HM2'].
    assert (Hin : forall x, In x (t_date t0 :: map t_date (t0 :: l)) ->
                            In x (t_date t0' :: map t_date (t0' :: l'))).
    { intros x [<-|Hx]; right; apply H; [left; reflexivity | exact Hx]. }
    assert (Hin' : forall x, In x (t_date t0' :: map t_date (t0' :: l')) ->
                             In x (t_date t0 :: map t_date (t0 :: l))).
    { intros x [<-|Hx]; right; apply H; [left; reflexivity | exact Hx]. }
    assert (Emin : min_date_of (t_date t0) (map t_date (t0 :: l))
                   = min_date_of (t_date t0') (map t_date (t0' :: l'))).
    { apply date_le_antisym; [apply Hm2, Hin', Hm1' | apply Hm2', Hin, Hm1]. }
    assert (Emax : max_date_of (t_date t0) (map t_date (t0 :: l))
                   = max_date_of (t_date t0') (map t_date (t0' :: l'))).
    { apply date_le_antisym; [apply HM2', Hin, HM1 | apply HM2, Hin', HM1']. }
    rewrite Emin, Emax. reflexivity.
Qed.

Lemma order_by_map_In {A B} (before : A -> A -> bool) (f : A -> B) x l :
  In x (map f (order_by before l)) <-> In x (map f l).
Proof.
  rewrite !in_map_iff. split; intros (t & Ht & Hin); exists t;
    (split; [exact Ht|]); apply (order_by_In before); exact Hin.
Qed.

Lemma merge_day_same sel sel' d :
  map forget_id sel = map forget_id sel' ->
  merge_day (daily_summary (order_by tx_before sel)) d
  = merge_day (daily_summary (order_by tx_before sel')) d.
Proof.
  intros H. rewrite !merge_day_eq, (group_of_same sel sel' d H).
  rewrite (in_span_ext (order_by tx_before sel) (order_by tx_before sel') d);
    [reflexivity|].
  assert (E : map t_date sel = map t_date sel') by (apply forget_map; [reflexivity | exact H]).
  intros x. rewrite !order_by_map_In, E. reflexivity.
Qed.

Lemma get_calendar_data_same st st' u vs ve :
  same_data u st st' ->
  get_calendar_data st u vs ve = get_calendar_data st' u vs ve.
Proof.
  intros (Hset & _ & Htx). rewrite !get_calendar_data_eq.
  rewrite (get_user_settings_same st st' u Hset).
  destruct (get_user_settings st' u) as [[B a]|]; [|reflexivity].
  assert (Hsel : map forget_id (selected_after st u a)
                 = map forget_id (selected_after st' u a)).
  { rewrite !selected_after_of. apply forget_filter; [reflexivity | exact Htx]. }
  destruct (selected_after st u a) as [|t0 sel] eqn:E,
           (selected_after st' u a) as [|t0' sel'] eqn:E'; try discriminate.
  - reflexivity.
  - unfold calendar_rows.
    rewrite (map_ext _ _ (fun d => merge_day_same _ _ d Hsel)). reflexivity.
Qed.

(** ** The expansion reads and writes the data of its user only *)

Lemma same_data_refl u st : same_data u st st.
Proof. repeat split. Qed.

Lemma same_data_add st st' u d c desc amt conf sid :
  same_data u st st' ->
  same_data u (fst (add_transaction st u d c desc amt conf sid))
              (fst (add_transaction st' u d c desc amt conf sid)).
Proof.
  intros (Hset & Hsch & Htx). unfold same_data. split; [exact Hset|].
  split; [exact Hsch|].
  unfold transactions_of, add_transaction in *. simpl.
  rewrite !filter_app, !map_app. simpl. rewrite String.eqb_refl. simpl.
  rewrite Htx. reflexivity.
Qed.

Lemma while_loop_same fuel u sch e c db db' :
  same_data u db db' ->
  option_rel (same_data u)
    (while_loop fuel u sch e (mkLoop c db)) (while_loop fuel u sch e (mkLoop c db')).
Proof.
  revert c db db'. induction fuel as [|fuel IH]; intros c db db' H; simpl; [exact I|].
  destruct (date_leb c e); [|exact H].
  unfold loop_body. cbn [current_date conn].
  destruct (date_leb (s_start_date sch) c); apply IH; [|exact H].
  apply same_data_add, H.
Qed.

Lemma expand_all_same fuel u rules e db db' :
  same_data u db db' ->
  option_rel (same_data u) (expand_all fuel db u rules e) (expand_all fuel db' u rules e).
Proof.
  revert db db'. induction rules as [|sch rules IH]; intros db db' H; simpl; [exact H|].
  unfold expand_schedule, resume_date.
  rewrite (get_last_generated_date_same db db' u (schedule_id sch) (proj2 (proj2 H))).
  pose proof (while_loop_same fuel u sch (loop_end sch e)
                (advance (frequency sch)
                   match get_last_generated_date db' u (schedule_id sch) with
                   | Some d => d
                   | None => s_start_date sch
                   end) db db' H) as Hloop.
  destruct (while_loop fuel u sch (loop_end sch e) (mkLoop _ db)) as [x|],
           (while_loop fuel u sch (loop_end sch e) (mkLoop _ db')) as [y|];
    simpl in Hloop; try contradiction; [apply IH, Hloop | exact I].
Qed.

Lemma run_projection_same fuel st st' u e :
  same_data u st st' ->
  option_rel (same_data u) (run_projection fuel st u e) (run_projection fuel st' u e).
Proof.
  intros H. unfold run_projection. rewrite !get_scheduled_transactions_fst.
  rewrite (proj1 (proj2 H)). apply expand_all_same, H.
Qed.

Lemma same_rows_trans u a b c : same_rows u a b -> same_rows u b c -> same_rows u a c.
Proof.
  intros (H1 & H2 & H3 & H4) (K1 & K2 & K3 & K4). unfold same_rows.
  rewrite H1, H2, H3, H4. auto.
Qed.

Lemma while_loop_frame fuel u v sch e s db :
  v <> u -> while_loop fuel u sch e s = Some db -> same_rows v db (conn s).
Proof.
  intros Hvu. revert s. induction fuel as [|fuel IH]; intros s; simpl; [discriminate|].
  destruct (date_leb (current_date s) e).
  - intros H. apply IH in H. eapply same_rows_trans; [exact H|].
    unfold loop_body. cbn [conn].
    destruct (date_leb (s_start_date sch) (current_date s));
      [apply add_transaction_frame, Hvu | apply same_rows_refl].
  - intros H. inversion H. apply same_rows_refl.
Qed.

Lemma expand_all_frame fuel u v rules e st db :
  v <> u -> expand_all fuel st u rules e = Some db -> same_rows v db st.
Proof.
  intros Hvu. revert st. induction rules as [|sch rules IH]; intros st; simpl.
  - intros H. inversion H. apply same_rows_refl.
  - destruct (expand_schedule fuel st u sch e) as [st'|] eqn:E; [|discriminate].
    intros H. apply IH in H. eapply same_rows_trans; [exact H|].
    unfold expand_schedule in E. apply (while_loop_frame _ _ _ _ _ _ _ Hvu) in E. exact E.
Qed.

Lemma run_projection_frame fuel u v e st db :
  v <> u -> run_projection fuel st u e = Some db -> same_rows v db st.
Proof. intros Hvu. apply expand_all_frame, Hvu. Qed.

Lemma same_rows_same_data u st st' : same_rows u st st' -> same_data u st st'.
Proof.
  intros (H1 & _ & H3 & H4). unfold same_data. rewrite H1, H3, H4. auto.
Qed.

(** *** The store operations *)

Lemma existsb_eqb_In u l : existsb (String.eqb u) l = true <-> In u l.
Proof.
  rewrite existsb_exists. split.
  - intros (x & Hin & E). apply String.eqb_eq in E. subst. exact Hin.
  - intros H. exists u. split; [exact H | apply String.eqb_refl].
Qed.

Lemma map_id_In {A} (f : A -> A) l : (forall x, In x l -> f x = x) -> map f l = l.
Proof.
  induction l as [|x l IH]; intros H; simpl; [reflexivity|].
  rewrite H by (left; reflexivity). f_equal. apply IH. intros y Hy. apply H. right. exact Hy.
Qed.

Lemma filter_all {A} (p : A -> bool) l : (forall x, In x l -> p x = true) -> filter p l = l.
Proof.
  induction l as [|x l IH]; intros H; simpl; [reflexivity|].
  rewrite H by (left; reflexivity). f_equal. apply IH. intros y Hy. apply H. right. exact Hy.
Qed.

Lemma filter_none {A} (p : A -> bool) l : (forall x, In x l -> p x = false) -> filter p l = [].
Proof. apply filter_nil_iff. Qed.

Lemma store_eta st :
  mkStore (users st) (user_settings st) (categories st) (scheduled_transactions st)
          (transactions st) (seq_categories st) (seq_schedules st) (seq_transactions st)
  = st.
Proof. destruct st; reflexivity. Qed.

(** *** [ORDER BY] *)

Lemma string_leb_trans a b c :
  String.leb a b = true -> String.leb b c = true -> String.leb a c = true.
Proof.
  unfold String.leb. revert b c.
  induction a as [|x a IH]; intros [|y b] [|z c]; simpl; try congruence.
  unfold Ascii.compare.
  destruct (N.compare_spec (Ascii.N_of_ascii x) (Ascii.N_of_ascii y));
    destruct (N.compare_spec (Ascii.N_of_ascii y) (Ascii.N_of_ascii z));
    destruct (N.compare_spec (Ascii.N_of_ascii x) (Ascii.N_of_ascii z));
    try congruence; try lia.
  apply IH.
Qed.

Lemma tx_before_spec a b :
  tx_before a b = true <->
  date_lt (t_date a) (t_date b)
  \/ (t_date a = t_date b /\ transaction_id a <= transaction_id b).
Proof.
  unfold tx_before. rewrite orb_true_iff, andb_true_iff, date_eqb_eq, Z.leb_le.
  reflexivity.
Qed.

Lemma tx_before_total a b : tx_before a b = true \/ tx_before b a = true.
Proof.
  rewrite !tx_before_spec.
  destruct (date_le_total (t_date a) (t_date b)) as [H|H]; [|tauto].
  apply date_le_cases in H. destruct H as [H|H]; [|tauto].
  destruct (Z.le_ge_cases (transaction_id a) (transaction_id b)); [left|right]; right; auto.
Qed.

Lemma tx_before_trans a b c :
  tx_before a b = true -> tx_before b c = true -> tx_before a c = true.
Proof.
  rewrite !tx_before_spec. intros [H1|[E1 H1]] [H2|[E2 H2]].
  - left. eapply date_lt_le_trans; [exact H1 | apply date_lt_le; exact H2].
  - left. rewrite <- E2. exact H1.
  - left. rewrite E1. exact H2.
  - right. split; [congruence | lia].
Qed.

Lemma tx_before_date a b : tx_before a b = true -> date_le (t_date a) (t_date b).
Proof.
  rewrite tx_before_spec. intros [H|[E _]].
  - apply date_lt_le. exact H.
  - rewrite E. apply date_le_refl.
Qed.

Section OrderBySorted.
Context {A : Type} (before : A -> A -> bool).
Hypothesis before_total : forall a b, before a b = true \/ before b a = true.
Hypothesis before_trans :
  forall a b c, before a b = true -> before b c = true -> before a c = true.

Let R (a b : A) : Prop := before a b = true.

Lemma insert_by_all (P : A -> Prop) x l :
  P x -> Forall P l -> Forall P (insert_by before x l).
Proof.
  intros Hx Hl. apply Forall_forall. intros y Hy.
  apply insert_by_In in Hy. destruct Hy as [->|Hy]; [exact Hx|].
  rewrite Forall_forall in Hl. apply Hl. exact Hy.
Qed.

Lemma insert_by_sorted x l :
  StronglySorted R l -> StronglySorted R (insert_by before x l).
Proof.
  induction 1 as [|y l Hs IH Hy]; simpl.
  - constructor; constructor.
  - destruct (before x y) eqn:E.
    + constructor; [constructor; assumption|].
      constructor; [exact E|].
      apply Forall_forall. intros z Hz. rewrite Forall_forall in Hy.
      apply (before_trans x y z E). apply Hy. exact Hz.
    + constructor; [exact IH|].
      apply insert_by_all; [|exact Hy].
      destruct (before_total x y) as [H|H]; [unfold R; congruence | exact H].
Qed.

Lemma order_by_sorted l : StronglySorted R (order_by before l).
Proof.
  induction l as [|x l IH]; simpl; [constructor|].
  apply insert_by_sorted. exact IH.
Qed.
End OrderBySorted.

Lemma insert_by_perm {A} (before : A -> A -> bool) x l :
  Permutation (insert_by before x l) (x :: l).
Proof.
  induction l as [|y l IH]; simpl; [reflexivity|].
  destruct (before x y); [reflexivity|].
  rewrite IH. apply perm_swap.
Qed.

Lemma order_by_perm {A} (before : A -> A -> bool) l :
  Permutation (order_by before l) l.
Proof.
  induction l as [|x l IH]; simpl; [reflexivity|].
  rewrite insert_by_perm. constructor. exact IH.
Qed.

Lemma order_by_length {A} (before : A -> A -> bool) l :
  List.length (order_by before l) = List.length l.
Proof. apply Permutation_length, order_by_perm. Qed.

(** A list sorted by a key is determined by its key order: on a sorted
    input, [order_by] under a map that keeps the order. *)
Lemma insert_by_map {A} (before : A -> A -> bool) (f : A -> A) x l :
  (forall a b, before (f a) (f b) = before a b) ->
  insert_by before (f x) (map f l) = map f (insert_by before x l).
Proof.
  intros Hf. induction l as [|y l IH]; simpl; [reflexivity|].
  rewrite Hf. destruct (before x y); simpl; [reflexivity|]. rewrite IH. reflexivity.
Qed.

Lemma order_by_map {A} (before : A -> A -> bool) (f : A -> A) l :
  (forall a b, before (f a) (f b) = before a b) ->
  order_by before (map f l) = map f (order_by before l).
Proof.
  intros Hf. induction l as [|x l IH]; simpl; [reflexivity|].
  rewrite IH. apply insert_by_map. exact Hf.
Qed.

(** *** Keys *)

Lemma NoDup_snoc {A} (l : list A) x : NoDup l -> ~ In x l -> NoDup (l ++ [x]).
Proof.
  intros Hl Hx. apply NoDup_app; [exact Hl | constructor; [intros [] | constructor] |].
  intros y Hy [<-|[]]. contradiction.
Qed.

Lemma NoDup_map_filter {A B} (f : A -> B) (p : A -> bool) l :
  NoDup (map f l) -> NoDup (map f (filter p l)).
Proof.
  induction l as [|x l IH]; simpl; intros H; [constructor|].
  inversion H as [|? ? Hn Hl]; subst.
  destruct (p x); simpl; [|apply IH; exact Hl].
  constructor; [|apply IH; exact Hl].
  intros Hin. apply Hn. apply in_map_iff in Hin. destruct Hin as (y & E & Hy).
  apply filter_In in Hy. apply in_map_iff. exists y. tauto.
Qed.

Lemma fresh_key {A} (key : A -> Z) (l : list A) (n : Z) :
  (forall x, In x l -> key x <= n) -> ~ In (n + 1) (map key l).
Proof.
  intros H Hin. apply in_map_iff in Hin. destruct Hin as (x & E & Hx).
  apply H in Hx. lia.
Qed.

Lemma primary_keys_empty : primary_keys empty_store.
Proof.
  unfold primary_keys, empty_store; simpl.
  repeat split; try constructor; intros ? [].
Qed.

Lemma primary_keys_add_transaction st u d c desc amt conf sid :
  primary_keys st -> primary_keys (fst (add_transaction st u d c desc amt conf sid)).
Proof.
  intros (Hc & Hcs & Hr & Hrs & Ht & Hts). unfold primary_keys; simpl.
  split; [exact Hc|]. split; [exact Hcs|]. split; [exact Hr|]. split; [exact Hrs|].
  split.
  - rewrite map_app. simpl. apply NoDup_snoc; [exact Ht|].
    apply fresh_key. exact Hts.
  - intros t Hin. apply in_app_iff in Hin. destruct Hin as [Hin|[<-|[]]]; simpl.
    + apply Hts in Hin. lia.
    + lia.
Qed.

Lemma primary_keys_while_loop fuel u sch e s db :
  primary_keys (conn s) ->
  while_loop fuel u sch e s = Some db -> primary_keys db.
Proof.
  revert s. induction fuel as [|fuel IH]; intros s Hk H; simpl in H; [discriminate|].
  destruct (date_leb (current_date s) e).
  - apply IH in H; [exact H|]. cbn [loop_body conn current_date].
    destruct (date_leb (s_start_date sch) (current_date s)); [|exact Hk].
    apply primary_keys_add_transaction. exact Hk.
  - inversion H; subst. exact Hk.
Qed.

Lemma primary_keys_expand_all fuel u rules e st db :
  primary_keys st -> expand_all fuel st u rules e = Some db -> primary_keys db.
Proof.
  revert st. induction rules as [|sch rules IH]; intros st Hk H; simpl in H.
  - inversion H; subst. exact Hk.
  - destruct (expand_schedule fuel st u sch e) as [st'|] eqn:E; [|discriminate].
    apply (IH st'); [|exact H].
    unfold expand_schedule in E. apply primary_keys_while_loop in E; assumption.
Qed.

Lemma NoDup_map_same_key {A} (key : A -> Z) (f : A -> A) l :
  (forall x, key (f x) = key x) -> map key (map f l) = map key l.
Proof. intros H. rewrite map_map. apply map_ext. exact H. Qed.

Lemma key_bound_map {A} (key : A -> Z) (f : A -> A) l n :
  (forall x, key (f x) = key x) ->
  (forall x, In x l -> key x <= n) -> forall x, In x (map f l) -> key x <= n.
Proof.
  intros Hf H x Hin. apply in_map_iff in Hin. destruct Hin as (y & <- & Hy).
  rewrite Hf. apply H. exact Hy.
Qed.

Lemma key_bound_filter {A} (key : A -> Z) (p : A -> bool) l n :
  (forall x, In x l -> key x <= n) -> forall x, In x (filter p l) -> key x <= n.
Proof. intros H x Hin. apply filter_In in Hin. apply H. tauto. Qed.

Lemma primary_keys_get_or_create_user st today u :
  primary_keys st -> primary_keys (get_or_create_user st today u).
Proof.
  intros Hk. unfold get_or_create_user.
  destruct (existsb (String.eqb u) (users st)); [exact Hk|].
  destruct Hk as (Hc & Hcs & Hr & Hrs & Ht & Hts). unfold primary_keys; simpl.
  split; [|split; [|tauto]].
  - rewrite map_app. simpl. apply NoDup_app.
    + exact Hc.
    + repeat constructor; simpl; intros H; lia.
    + intros x Hx Hin. apply in_map_iff in Hx. destruct Hx as (c & <- & Hcin).
      apply Hcs in Hcin. simpl in Hin. lia.
  - intros c Hin. apply in_app_iff in Hin. destruct Hin as [Hin|Hin].
    + apply Hcs in Hin. lia.
    + simpl in Hin.
      destruct Hin as [<-|[<-|[<-|[<-|[<-|[]]]]]]; simpl; lia.
Qed.

Lemma primary_keys_add_category st u name type :
  primary_keys st -> primary_keys (add_category st u name type).
Proof.
  intros (Hc & Hcs & Hrest). unfold primary_keys; simpl.
  split; [|split; [|exact Hrest]].
  - rewrite map_app. simpl. apply NoDup_snoc; [exact Hc|]. apply fresh_key. exact Hcs.
  - intros c Hin. apply in_app_iff in Hin. destruct Hin as [Hin|[<-|[]]]; simpl.
    + apply Hcs in Hin. lia.
    + lia.
Qed.

Lemma primary_keys_delete_category st cid u :
  primary_keys st -> primary_keys (delete_category st cid u).
Proof.
  intros (Hc & Hcs & Hr & Hrs & Ht & Hts). unfold primary_keys; simpl.
  split; [apply NoDup_map_filter; exact Hc|].
  split; [apply key_bound_filter; exact Hcs|].
  assert (Es : forall s, schedule_id
            (if opt_Z_eqb (s_category_id s) cid && String.eqb (s_user_id s) u
             then mkSchedule (schedule_id s) (s_user_id s) None (s_description s)
                             (s_amount s) (frequency s) (s_start_date s) (s_end_date s)
             else s) = schedule_id s).
  { intros s. destruct (_ && _); reflexivity. }
  assert (Et : forall t, transaction_id
            (if opt_Z_eqb (t_category_id t) cid && String.eqb (t_user_id t) u
             then mkTransaction (transaction_id t) (t_user_id t) (t_schedule_id t) None
                                (t_date t) (t_description t) (t_amount t) (is_confirmed t)
             else t) = transaction_id t).
  { intros t. destruct (_ && _); reflexivity. }
  split; [rewrite (NoDup_map_same_key schedule_id _ _ Es); exact Hr|].
  split; [apply (key_bound_map schedule_id _ _ _ Es); exact Hrs|].
  split; [rewrite (NoDup_map_same_key transaction_id _ _ Et); exact Ht|].
  apply (key_bound_map transaction_id _ _ _ Et); exact Hts.
Qed.

Lemma primary_keys_update_transaction st tid u d c desc amt conf :
  primary_keys st -> primary_keys (update_transaction st tid u d c desc amt conf).
Proof.
  intros (Hc & Hcs & Hr & Hrs & Ht & Hts). unfold primary_keys; simpl.
  assert (Et : forall t, transaction_id
            (if (transaction_id t =? tid) && String.eqb (t_user_id t) u
             then mkTransaction (transaction_id t) (t_user_id t) (t_schedule_id t)
                                c d desc amt conf
             else t) = transaction_id t).
  { intros t. destruct (_ && _); reflexivity. }
  repeat (split; [assumption|]).
  split; [rewrite (NoDup_map_same_key transaction_id _ _ Et); exact Ht|].
  apply (key_bound_map transaction_id _ _ _ Et); exact Hts.
Qed.

Lemma primary_keys_delete_transaction st tid u :
  primary_keys st -> primary_keys (delete_transaction st tid u).
Proof.
  intros (Hc & Hcs & Hr & Hrs & Ht & Hts). unfold primary_keys; simpl.
  repeat (split; [assumption|]).
  split; [apply NoDup_map_filter; exact Ht | apply key_bound_filter; exact Hts].
Qed.

Lemma primary_keys_add_scheduled_transaction st u c desc amt f sd ed :
  primary_keys st -> primary_keys (fst (add_scheduled_transaction st u c desc amt f sd ed)).
Proof.
  intros (Hc & Hcs & Hr & Hrs & Ht & Hts). unfold primary_keys; simpl.
  repeat (split; [assumption|]).
  split; [|split; [|split; assumption]].
  - rewrite map_app. simpl. apply NoDup_snoc; [exact Hr|]. apply fresh_key. exact Hrs.
  - intros s Hin. apply in_app_iff in Hin. destruct Hin as [Hin|[<-|[]]]; simpl.
    + apply Hrs in Hin. lia.
    + lia.
Qed.

Lemma primary_keys_delete_scheduled_transaction st sid u future :
  primary_keys st -> primary_keys (delete_scheduled_transaction st sid u future).
Proof.
  intros (Hc & Hcs & Hr & Hrs & Ht & Hts). unfold primary_keys; simpl.
  repeat (split; [assumption|]).
  split; [apply NoDup_map_filter; exact Hr|].
  split; [apply key_bound_filter; exact Hrs|].
  destruct future; [|split; assumption].
  split; [apply NoDup_map_filter; exact Ht | apply key_bound_filter; exact Hts].
Qed.

Lemma primary_keys_update_user_settings st u B a :
  primary_keys st -> primary_keys (update_user_settings st u B a).
Proof. intros H. exact H. Qed.

Lemma primary_keys_run_projection fuel st u e db :
  primary_keys st -> run_projection fuel st u e = Some db -> primary_keys db.
Proof. intros Hk H. exact (primary_keys_expand_all fuel u _ e st db Hk H). Qed.

(** *** Settings *)

Lemma get_user_settings_update st u B a :
  get_user_settings (update_user_settings st u B a) u
  = match get_user_settings st u with Some _ => Some (B, a) | None => None end.
Proof.
  unfold get_user_settings, update_user_settings; simpl.
  induction (user_settings st) as [|r l IH]; simpl; [reflexivity|].
  destruct (String.eqb (us_user_id r) u) eqn:E; simpl; rewrite E; [reflexivity | exact IH].
Qed.

Lemma get_user_settings_none st u r :
  get_user_settings st u = None -> In r (user_settings st) ->
  String.eqb (us_user_id r) u = false.
Proof.
  unfold get_user_settings. intros H Hin.
  destruct (find _ (user_settings st)) eqn:E; [discriminate|].
  exact (find_none _ _ E r Hin).
Qed.

(** *** What the loop writes *)

Lemma advance_ge f d : date_le d (advance f d).
Proof.
  destruct (known_frequency f) eqn:E.
  - apply date_lt_le, advance_gt, E.
  - rewrite (advance_unknown f d E). apply date_le_refl.
Qed.

Lemma loop_end_le sch h :
  date_le (loop_end sch h) h /\
  forall e, s_end_date sch = Some e -> date_le (loop_end sch h) e.
Proof.
  unfold loop_end. destruct (s_end_date sch) as [e|].
  - destruct (date_ltb e h) eqn:E.
    + split; [apply date_lt_le; exact E|]. intros e' He. inversion He; subst.
      apply date_le_refl.
    + split; [apply date_le_refl|]. intros e' He. inversion He; subst.
      unfold date_le, date_leb. rewrite E. reflexivity.
  - split; [apply date_le_refl | discriminate].
Qed.

Lemma loop_end_mono sch h1 h2 :
  date_le h1 h2 -> date_le (loop_end sch h1) (loop_end sch h2).
Proof.
  intros H. unfold loop_end. destruct (s_end_date sch) as [e|]; [|exact H].
  destruct (date_ltb e h1) eqn:E1, (date_ltb e h2) eqn:E2.
  - apply date_le_refl.
  - exfalso. assert (Hlt : date_lt e h2) by (eapply date_lt_le_trans; eassumption).
    unfold date_lt in Hlt. congruence.
  - unfold date_le, date_leb. rewrite E1. reflexivity.
  - exact H.
Qed.

Lemma while_loop_appends fuel u sch e s db :
  while_loop fuel u sch e s = Some db ->
  same_tables db (conn s) /\
  exists new,
    transactions db = transactions (conn s) ++ new /\
    forall t, In t new ->
      generated_by u sch t /\
      date_le (s_start_date sch) (t_date t) /\ date_le (t_date t) e /\
      date_le (current_date s) (t_date t).
Proof.
  revert s. induction fuel as [|fuel IH]; intros s H; simpl in H; [discriminate|].
  destruct (date_leb (current_date s) e) eqn:E.
  - apply IH in H. destruct H as (Htab & new & Hnew & Hall).
    cbn [loop_body conn current_date] in Htab, Hnew, Hall.
    assert (Hmono : forall t, date_le (advance (frequency sch) (current_date s)) (t_date t) ->
                              date_le (current_date s) (t_date t)).
    { intros t Ht. eapply date_le_trans; [apply advance_ge | exact Ht]. }
    destruct (date_leb (s_start_date sch) (current_date s)) eqn:Es.
    + split; [exact Htab|].
      exists (mkTransaction (seq_transactions (conn s) + 1) u (Some (schedule_id sch))
                (s_category_id sch) (current_date s) (s_description sch) (s_amount sch) 0
              :: new).
      split.
      * rewrite Hnew. simpl. rewrite <- app_assoc. reflexivity.
      * intros t [<-|Ht].
        -- simpl. split; [repeat split|].
           split; [exact Es|]. split; [exact E | apply date_le_refl].
        -- destruct (Hall t Ht) as (Hg & Hs & He & Hc).
           split; [exact Hg|]. split; [exact Hs|]. split; [exact He|].
           apply Hmono. exact Hc.
    + split; [exact Htab|]. exists new. split; [exact Hnew|].
      intros t Ht. destruct (Hall t Ht) as (Hg & Hs & He & Hc).
      split; [exact Hg|]. split; [exact Hs|]. split; [exact He|].
      apply Hmono. exact Hc.
  - inversion H; subst. split; [repeat split|].
    exists []. split; [rewrite app_nil_r; reflexivity | intros t []].
Qed.

Lemma same_tables_trans a b c : same_tables a b -> same_tables b c -> same_tables a c.
Proof.
  intros (H1 & H2 & H3 & H4) (K1 & K2 & K3 & K4).
  repeat split; congruence.
Qed.

Lemma expand_all_appends fuel u rules h st db :
  expand_all fuel st u rules h = Some db ->
  same_tables db st /\
  exists new,
    transactions db = transactions st ++ new /\
    forall t, In t new ->
      exists sch, In sch rules /\ generated_by u sch t /\
        date_le (s_start_date sch) (t_date t) /\ date_le (t_date t) h /\
        (forall e, s_end_date sch = Some e -> date_le (t_date t) e).
Proof.
  revert st. induction rules as [|sch rules IH]; intros st H; simpl in H.
  - inversion H; subst. split; [repeat split|].
    exists []. split; [rewrite app_nil_r; reflexivity | intros t []].
  - destruct (expand_schedule fuel st u sch h) as [st'|] eqn:E; [|discriminate].
    unfold expand_schedule in E. apply while_loop_appends in E.
    destruct E as (Htab & new & Hnew & Hall). cbn [conn current_date] in *.
    apply IH in H. destruct H as (Htab' & new' & Hnew' & Hall').
    split; [eapply same_tables_trans; eassumption|].
    exists (new ++ new'). split; [rewrite Hnew', Hnew, app_assoc; reflexivity|].
    intros t Ht. apply in_app_or in Ht. destruct Ht as [Ht|Ht].
    + destruct (Hall t Ht) as (Hg & Hs & He & _). exists sch.
      destruct (loop_end_le sch h) as [Hh Hend].
      split; [left; reflexivity|]. split; [exact Hg|]. split; [exact Hs|].
      split; [eapply date_le_trans; eassumption|].
      intros e' He'. eapply date_le_trans; [exact He | apply Hend, He'].
    + destruct (Hall' t Ht) as (sch' & Hin & Hrest). exists sch'.
      split; [right; exact Hin | exact Hrest].
Qed.

(** *** A rule that cannot fire *)

Lemma while_loop_before_start fuel u sch e s db :
  date_lt e (s_start_date sch) ->
  while_loop fuel u sch e s = Some db -> db = conn s.
Proof.
  intros He. revert s. induction fuel as [|fuel IH]; intros s H; simpl in H; [discriminate|].
  destruct (date_leb (current_date s) e) eqn:E.
  - apply IH in H. cbn [loop_body conn current_date] in H.
    assert (Es : date_leb (s_start_date sch) (current_date s) = false).
    { apply not_true_is_false. intros Hs. apply (date_lt_irrefl e).
      eapply date_lt_le_trans; [exact He|]. eapply date_le_trans; eassumption. }
    rewrite Es in H. exact H.
  - inversion H. reflexivity.
Qed.

(** *** The cursor and the stored dates *)

Lemma loop_body_invariant u sch s :
  known_frequency (frequency sch) = true ->
  rows_before_cursor u sch s ->
  rows_before_cursor u sch (loop_body u sch s) /\
  ((conn (loop_body u sch s) = conn s /\ date_lt (current_date s) (s_start_date sch))
   \/ (date_le (s_start_date sch) (current_date s) /\
       current_date (loop_body u sch s)
       = resume_date (conn (loop_body u sch s)) u sch)).
Proof.
  intros Hf Hrows.
  pose proof (advance_gt _ (current_date s) Hf) as Hgt.
  unfold rows_before_cursor. cbn [loop_body conn current_date].
  destruct (date_leb (s_start_date sch) (current_date s)) eqn:Es.
  - split.
    + intros t Ht. rewrite rule_rows_add in Ht.
      apply in_app_or in Ht. destruct Ht as [Ht|[<-|[]]]; simpl.
      * eapply date_lt_le_trans; [apply Hrows, Ht | apply date_lt_le, Hgt].
      * exact Hgt.
    + right. split; [exact Es|]. unfold resume_date.
      rewrite last_generated_after_add by exact Hrows. reflexivity.
  - split.
    + intros t Ht. eapply date_lt_le_trans; [apply Hrows, Ht | apply date_lt_le, Hgt].
    + left. split; [reflexivity|].
      unfold date_leb in Es. apply negb_false_iff in Es. exact Es.
Qed.

Lemma iterate_body_succ n u sch s :
  iterate_body (S n) u sch s = loop_body u sch (iterate_body n u sch s).
Proof.
  revert s. induction n as [|n IH]; intros s; [reflexivity|].
  change (iterate_body (S (S n)) u sch s)
    with (iterate_body (S n) u sch (loop_body u sch s)).
  rewrite IH. reflexivity.
Qed.

Lemma iterate_body_invariant n u sch s :
  known_frequency (frequency sch) = true ->
  rows_before_cursor u sch s ->
  let s' := iterate_body n u sch s in
  rows_before_cursor u sch s' /\
  (conn s' = conn s
   \/ (date_le (s_start_date sch) (current_date s') /\
       current_date s' = resume_date (conn s') u sch)).
Proof.
  intros Hf Hrows. induction n as [|n IH].
  - simpl. split; [exact Hrows | left; reflexivity].
  - cbv zeta in *. rewrite iterate_body_succ.
    destruct IH as [Hinv Hcase].
    destruct (loop_body_invariant u sch _ Hf Hinv) as [Hinv' Hstep].
    split; [exact Hinv'|].
    destruct Hstep as [[Hconn Hlt]|[Hs Hcur]].
    + destruct Hcase as [Hsame|[Hs _]].
      * left. congruence.
      * exfalso. apply (date_lt_irrefl (current_date (iterate_body n u sch s))).
        eapply date_lt_le_trans; eassumption.
    + right. split; [|exact Hcur].
      eapply date_le_trans; [exact Hs|]. cbn [loop_body current_date]. apply advance_ge.
Qed.

(** A run of the loop is a number of passes; a loop with a later end
    makes the same passes first. *)
Lemma while_loop_split fuel u sch e1 s db :
  while_loop fuel u sch e1 s = Some db ->
  exists n,
    conn (iterate_body n u sch s) = db /\
    forall e2 f, date_le e1 e2 ->
      while_loop (n + f) u sch e2 s = while_loop f u sch e2 (iterate_body n u sch s).
Proof.
  revert s. induction fuel as [|fuel IH]; intros s H; simpl in H; [discriminate|].
  destruct (date_leb (current_date s) e1) eqn:E.
  - apply IH in H. destruct H as (n & Hn & Hrun). exists (S n).
    split; [exact Hn|]. intros e2 f He.
    change (S n + f)%nat with (S (n + f)). cbn [while_loop iterate_body].
    assert (E2 : date_leb (current_date s) e2 = true).
    { eapply date_le_trans; [exact E | exact He]. }
    rewrite E2. apply Hrun. exact He.
  - inversion H; subst. exists O. split; [reflexivity|]. intros. reflexivity.
Qed.

Lemma expand_schedule_extend f1 st u sch h1 h2 st1 st2 :
  date_le h1 h2 ->
  expand_schedule f1 st u sch h1 = Some st1 ->
  (expands_to st1 u sch h2 st2 <-> expands_to st u sch h2 st2).
Proof.
  intros Hh H1. unfold expand_schedule in H1.
  destruct (known_frequency (frequency sch)) eqn:Hf.
  - destruct (while_loop_split _ _ _ _ _ _ H1) as (n & Hn & Hrun).
    pose proof (iterate_body_invariant n u sch (mkLoop (resume_date st u sch) st) Hf
                  (resume_after_rows st u sch Hf)) as [_ Hcase].
    cbv zeta in Hcase. cbn [conn] in Hcase.
    destruct Hcase as [Hsame|[_ Hcur]].
    + rewrite Hsame in Hn. rewrite <- Hn. reflexivity.
    + rewrite Hn in Hcur.
      assert (Es : iterate_body n u sch (mkLoop (resume_date st u sch) st)
                   = mkLoop (resume_date st1 u sch) st1).
      { destruct (iterate_body n u sch _) as [c db]. simpl in *. congruence. }
      rewrite Es in Hrun.
      pose proof (loop_end_mono sch h1 h2 Hh) as He.
      split; intros [f Hf2]; unfold expands_to, expand_schedule in *.
      * exists (n + f)%nat. rewrite (Hrun _ f He). exact Hf2.
      * exists f. rewrite <- (Hrun _ f He).
        rewrite Nat.add_comm. apply while_loop_fuel_mono. exact Hf2.
  - apply (while_loop_unknown _ _ _ _ _ _ Hf) in H1. destruct H1 as [H1 _].
    simpl in H1. subst st1. reflexivity.
Qed.

(** The dates that a run of the loop adds for the rule. *)
Lemma while_loop_dates fuel u sch e s db :
  known_frequency (frequency sch) = true ->
  while_loop fuel u sch e s = Some db ->
  exists ds,
    map t_date (rule_rows db u (schedule_id sch))
    = map t_date (rule_rows (conn s) u (schedule_id sch)) ++ ds /\
    StronglySorted date_lt ds /\
    forall d, In d ds -> date_le (current_date s) d.
Proof.
  intros Hf. revert s. induction fuel as [|fuel IH]; intros s H; simpl in H; [discriminate|].
  destruct (date_leb (current_date s) e) eqn:E.
  - apply IH in H. destruct H as (ds & Hds & Hsorted & Hge).
    cbn [loop_body conn current_date] in Hds, Hge.
    pose proof (advance_gt _ (current_date s) Hf) as Hgt.
    destruct (date_leb (s_start_date sch) (current_date s)) eqn:Es.
    + exists (current_date s :: ds). rewrite rule_rows_add, map_app in Hds. simpl in Hds.
      rewrite <- app_assoc in Hds. split; [exact Hds|]. split.
      * constructor; [exact Hsorted|]. apply Forall_forall. intros d Hd.
        eapply date_lt_le_trans; [exact Hgt | apply Hge, Hd].
      * intros d [<-|Hd]; [apply date_le_refl|].
        apply date_lt_le. eapply date_lt_le_trans; [exact Hgt | apply Hge, Hd].
    + exists ds. split; [exact Hds|]. split; [exact Hsorted|].
      intros d Hd. apply date_lt_le. eapply date_lt_le_trans; [exact Hgt | apply Hge, Hd].
  - inversion H; subst. exists []. split; [rewrite app_nil_r; reflexivity|].
    split; [constructor | intros d []].
Qed.

(** *** Deleting an occurrence that is not the last of its rule *)

Lemma rule_rows_delete st tid v u sid t :
  In t (rule_rows (delete_transaction st tid v) u sid) <->
  In t (rule_rows st u sid) /\ ~ (transaction_id t = tid /\ t_user_id t = v).
Proof.
  unfold rule_rows, delete_transaction; simpl. rewrite !filter_In.
  rewrite negb_true_iff, andb_false_iff, Z.eqb_neq.
  split.
  - intros [[Hin Hb] Hr]. split; [tauto|]. intros [H1 H2].
    destruct Hb as [Hb|Hb]; [contradiction|]. apply String.eqb_neq in Hb. contradiction.
  - intros [[Hin Hr] Hn]. split; [|exact Hr]. split; [exact Hin|].
    destruct (Z.eq_dec (transaction_id t) tid) as [E|E]; [|left; exact E].
    right. apply String.eqb_neq. intros Hu. apply Hn. split; assumption.
Qed.

Lemma last_generated_delete st tid v u sid t' :
  In t' (rule_rows st u sid) -> transaction_id t' <> tid ->
  (forall x, In x (rule_rows st u sid) -> date_le (t_date x) (t_date t')) ->
  get_last_generated_date (delete_transaction st tid v) u sid
  = get_last_generated_date st u sid.
Proof.
  intros Hin Hne Hmax.
  assert (E : forall s, get_last_generated_date s u sid
                        = max_date (map t_date (rule_rows s u sid))) by reflexivity.
  rewrite !E.
  assert (H1 : max_date (map t_date (rule_rows st u sid)) = Some (t_date t')).
  { apply max_date_spec. split; [apply in_map; exact Hin|].
    intros x Hx. apply in_map_iff in Hx. destruct Hx as (y & <- & Hy). apply Hmax, Hy. }
  rewrite H1. apply max_date_spec. split.
  - apply in_map. apply rule_rows_delete. split; [exact Hin | tauto].
  - intros x Hx. apply in_map_iff in Hx. destruct Hx as (y & <- & Hy).
    apply rule_rows_delete in Hy. apply Hmax. tauto.
Qed.

(** *** The calendar in closed form *)

Lemma on_day_order_sum (f : Transaction -> Z) d sel :
  sum_Z (map f (on_day d (order_by tx_before sel))) = sum_Z (map f (on_day d sel)).
Proof. unfold on_day. rewrite !sum_Z_filter, order_by_sum. reflexivity. Qed.

Lemma on_day_order_all (q : Transaction -> bool) d sel :
  forallb q (on_day d (order_by tx_before sel)) = forallb q (on_day d sel).
Proof.
  apply forallb_ext_In. intros x. unfold on_day. rewrite !filter_In, order_by_In.
  reflexivity.
Qed.

Lemma in_span_order sel d : in_span (order_by tx_before sel) d = in_span sel d.
Proof. apply in_span_ext. intros x. apply order_by_map_In. Qed.

Lemma on_day_outside df d :
  (forall x, In x df -> valid_date (t_date x) = true) ->
  in_span df d = false -> on_day d df = [].
Proof.
  intros Hv E. apply filter_nil_iff. intros t Ht.
  destruct (date_eqb (t_date t) d) eqn:Ed; [|reflexivity].
  apply date_eqb_eq in Ed. subst d.
  rewrite (in_span_complete df t Hv Ht) in E. discriminate.
Qed.

Lemma merge_day_closed sel d :
  (forall x, In x sel -> valid_date (t_date x) = true) ->
  merge_day (daily_summary (order_by tx_before sel)) d
  = mkGroup d (sum_Z (map credit_of (on_day d sel))) (sum_Z (map debit_of (on_day d sel)))
            (in_span sel d && forallb (fun t => is_confirmed t =? 1) (on_day d sel))
            (sum_Z (map t_amount (on_day d sel))).
Proof.
  intros Hv. rewrite merge_day_eq, in_span_order. unfold group_of.
  rewrite !on_day_order_sum, on_day_order_all.
  destruct (in_span sel d) eqn:E; simpl.
  - f_equal. rewrite <- sum_Z_map_add. apply sum_Z_map_ext.
    intros t _. apply credit_debit_amount.
  - rewrite (on_day_outside sel d Hv E). reflexivity.
Qed.

Lemma calendar_rows_In B a vs ve m r :
  (forall d, g_date (m d) = d) ->
  In r (calendar_rows B a vs ve m) ->
  exists pre post,
    date_range a ve = pre ++ date r :: post /\
    in_view vs ve (date r) = true /\
    r = mkDaily (date r) (g_credits (m (date r))) (g_debits (m (date r)))
          (g_is_actual (m (date r))) (Some (g_net_change (m (date r))))
          (B + (0 + sum_Z (map g_net_change (map m pre)) + g_net_change (m (date r)))).
Proof.
  intros Hm Hin. unfold calendar_rows in Hin.
  apply in_map_iff in Hin. destruct Hin as ([g b] & <- & Hin).
  apply filter_In in Hin. destruct Hin as [Hin Hview]. simpl in *.
  apply combine_cumsum_In in Hin. destruct Hin as (pre & post & Hl & Hb).
  apply map_eq_app in Hl. destruct Hl as (gpre & grest & Hgrid & Hpre & Hrest).
  apply map_eq_cons in Hrest. destruct Hrest as (d & gpost & -> & Hg & Hpost).
  subst g pre b. rewrite Hm in *.
  exists gpre, gpost. repeat split; auto.
Qed.

Lemma selected_after_valid st u a :
  dates_valid st -> forall x, In x (selected_after st u a) -> valid_date (t_date x) = true.
Proof. intros Hd x Hx. apply filter_In in Hx. apply Hd. tauto. Qed.

Lemma calendar_row_of st u vs ve B a r :
  get_user_settings st u = Some (B, a) ->
  selected_after st u a <> [] ->
  valid_date a = true -> valid_date ve = true -> dates_valid st ->
  In r (get_calendar_data st u vs ve) ->
  r = calendar_row st u B a (date r).
Proof.
  intros Hs Hne Ha Hve Hd Hin. rewrite get_calendar_data_eq, Hs in Hin.
  destruct (selected_after st u a) as [|t0 sel] eqn:Esel; [congruence|].
  rewrite <- Esel in Hin.
  apply calendar_rows_In in Hin; [|intros d; apply merge_day_date].
  destruct Hin as (pre & post & Hgrid & _ & Hr).
  pose proof (grid_balance st u a ve B pre (date r) post Ha Hve Hd Hgrid) as Hb.
  cbv zeta in Hb. rewrite Hb in Hr.
  rewrite (merge_day_closed _ (date r) (selected_after_valid st u a Hd)) in Hr.
  simpl in Hr. exact Hr.
Qed.

Lemma get_calendar_data_closed st u vs ve B a :
  get_user_settings st u = Some (B, a) ->
  selected_after st u a <> [] ->
  valid_date a = true -> valid_date vs = true -> valid_date ve = true ->
  dates_valid st ->
  get_calendar_data st u vs ve
  = map (calendar_row st u B a) (date_range (date_max a vs) ve).
Proof.
  intros Hs Hne Ha Hvs Hve Hd.
  rewrite <- (calendar_dates st u vs ve B a Hs Hne Ha Hvs Hve), map_map.
  rewrite <- (map_id (get_calendar_data st u vs ve)) at 1.
  apply map_ext_in. intros r Hr.
  apply (calendar_row_of st u vs ve B a r); assumption.
Qed.

Lemma in_span_spec df d :
  (forall x, In x df -> valid_date (t_date x) = true) ->
  in_span df d = true <->
  valid_date d = true /\
  exists t1 t2, In t1 df /\ In t2 df /\
                date_le (t_date t1) d /\ date_le d (t_date t2).
Proof.
  intros Hv. unfold in_span. destruct df as [|t0 df].
  - split; [discriminate|]. intros (_ & t1 & _ & [] & _).
  - pose proof (min_date_of_spec (t_date t0) (map t_date (t0 :: df))) as [Hmin1 Hmin2].
    pose proof (max_date_of_spec (t_date t0) (map t_date (t0 :: df))) as [Hmax1 Hmax2].
    assert (Hmem : forall x, In x (t_date t0 :: map t_date (t0 :: df)) ->
                             exists t, In t (t0 :: df) /\ t_date t = x).
    { intros x [<-|Hx]; [exists t0; split; [left|]; reflexivity|].
      apply in_map_iff in Hx. destruct Hx as (y & <- & Hy). exists y. tauto. }
    assert (Hdates : forall x, In x (t_date t0 :: map t_date (t0 :: df)) ->
                               valid_date x = true).
    { intros x Hx. destruct (Hmem x Hx) as (t & Ht & <-). apply Hv, Ht. }
    rewrite existsb_date_In, date_range_spec by auto. split.
    + intros (Hd & Hlo & Hhi). split; [exact Hd|].
      destruct (Hmem _ Hmin1) as (t1 & Ht1 & E1).
      destruct (Hmem _ Hmax1) as (t2 & Ht2 & E2).
      exists t1, t2. rewrite E1, E2. tauto.
    + intros (Hd & t1 & t2 & Ht1 & Ht2 & Hlo & Hhi). split; [exact Hd|]. split.
      * eapply date_le_trans; [apply Hmin2|exact Hlo]. right. apply in_map. exact Ht1.
      * eapply date_le_trans; [exact Hhi|apply Hmax2]. right. apply in_map. exact Ht2.
Qed.

(** *** What the calendar reads of an occurrence *)

Section Factor.
Context {A K : Type} (k : A -> K).

Lemma factor_map {B} (f : A -> B) l l' :
  (forall t t', k t = k t' -> f t = f t') ->
  map k l = map k l' -> map f l = map f l'.
Proof.
  intros Hf. revert l'.
  induction l as [|x l IH]; intros [|y l'] H; simpl in *; try discriminate; [reflexivity|].
  inversion H. f_equal; auto.
Qed.

Lemma factor_filter (q : A -> bool) l l' :
  (forall t t', k t = k t' -> q t = q t') ->
  map k l = map k l' -> map k (filter q l) = map k (filter q l').
Proof.
  intros Hq. revert l'.
  induction l as [|x l IH]; intros [|y l'] H; simpl in *; try discriminate; [reflexivity|].
  inversion H as [[E1 E2]]. rewrite (Hq x y E1).
  destruct (q y); simpl; [f_equal|]; auto.
Qed.

Lemma factor_forallb (q : A -> bool) l l' :
  (forall t t', k t = k t' -> q t = q t') ->
  map k l = map k l' -> forallb q l = forallb q l'.
Proof.
  intros Hq. revert l'.
  induction l as [|x l IH]; intros [|y l'] H; simpl in *; try discriminate; [reflexivity|].
  inversion H as [[E1 E2]]. rewrite (Hq x y E1), (IH l' E2). reflexivity.
Qed.
End Factor.

Lemma forallb_filter {A} (p q : A -> bool) l :
  forallb q (filter p l) = forallb (fun t => negb (p t) || q t) l.
Proof.
  induction l as [|x l IH]; simpl; [reflexivity|].
  destruct (p x); simpl; rewrite IH; reflexivity.
Qed.

Lemma tx_amounts_eq t t' :
  tx_amounts t = tx_amounts t' -> t_date t = t_date t' /\ t_amount t = t_amount t'.
Proof. unfold tx_amounts. intros H. inversion H. auto. Qed.

Lemma tx_day_amounts l l' : map tx_day l = map tx_day l' -> map tx_amounts l = map tx_amounts l'.
Proof.
  apply factor_map. intros t t' H. unfold tx_day in H. inversion H.
  unfold tx_amounts. congruence.
Qed.

Lemma group_of_order sel d : group_of (order_by tx_before sel) d = group_of sel d.
Proof.
  unfold group_of. rewrite !on_day_order_sum, on_day_order_all. reflexivity.
Qed.

Lemma on_day_sum_amounts (f : Transaction -> Z) sel sel' d :
  (forall t t', tx_amounts t = tx_amounts t' -> f t = f t') ->
  map tx_amounts sel = map tx_amounts sel' ->
  sum_Z (map f (on_day d sel)) = sum_Z (map f (on_day d sel')).
Proof.
  intros Hf H. unfold on_day. rewrite !sum_Z_filter. f_equal.
  apply (factor_map tx_amounts); [|exact H].
  intros t t' E. destruct (tx_amounts_eq t t' E) as [Ed _].
  rewrite Ed, (Hf t t' E). reflexivity.
Qed.

Lemma credit_of_amounts t t' : tx_amounts t = tx_amounts t' -> credit_of t = credit_of t'.
Proof. intros E. destruct (tx_amounts_eq t t' E) as [_ Ea]. unfold credit_of. rewrite Ea. reflexivity. Qed.

Lemma debit_of_amounts t t' : tx_amounts t = tx_amounts t' -> debit_of t = debit_of t'.
Proof. intros E. destruct (tx_amounts_eq t t' E) as [_ Ea]. unfold debit_of. rewrite Ea. reflexivity. Qed.

Lemma in_span_amounts sel sel' d :
  map tx_amounts sel = map tx_amounts sel' -> in_span sel d = in_span sel' d.
Proof.
  intros H. apply in_span_ext.
  assert (E : map t_date sel = map t_date sel').
  { apply (factor_map tx_amounts); [|exact H]. intros t t' Et. apply tx_amounts_eq, Et. }
  rewrite E. reflexivity.
Qed.

Lemma merge_day_amounts sel sel' d :
  map tx_amounts sel = map tx_amounts sel' ->
  strip_actual (merge_day (daily_summary (order_by tx_before sel)) d)
  = strip_actual (merge_day (daily_summary (order_by tx_before sel')) d).
Proof.
  intros H. rewrite !merge_day_eq, !in_span_order, !group_of_order.
  rewrite (in_span_amounts sel sel' d H).
  destruct (in_span sel' d); [|reflexivity].
  unfold group_of, strip_actual; simpl.
  rewrite (on_day_sum_amounts credit_of sel sel' d credit_of_amounts H).
  rewrite (on_day_sum_amounts debit_of sel sel' d debit_of_amounts H).
  reflexivity.
Qed.

Lemma merge_day_days sel sel' d :
  map tx_day sel = map tx_day sel' ->
  merge_day (daily_summary (order_by tx_before sel)) d
  = merge_day (daily_summary (order_by tx_before sel')) d.
Proof.
  intros H. pose proof (tx_day_amounts sel sel' H) as Ha.
  pose proof (merge_day_amounts sel sel' d Ha) as Hstrip.
  assert (Hact : g_is_actual (merge_day (daily_summary (order_by tx_before sel)) d)
                 = g_is_actual (merge_day (daily_summary (order_by tx_before sel')) d)).
  { rewrite !merge_day_eq, !in_span_order, !group_of_order.
    rewrite (in_span_amounts sel sel' d Ha).
    destruct (in_span sel' d); [|reflexivity].
    unfold group_of, on_day; simpl. rewrite !forallb_filter.
    apply (factor_forallb tx_day); [|exact H].
    intros t t' E. unfold tx_day in E. inversion E as [[E1 E2 E3]].
    rewrite E1, E3. reflexivity. }
  destruct (merge_day (daily_summary (order_by tx_before sel)) d),
           (merge_day (daily_summary (order_by tx_before sel')) d).
  unfold strip_actual in Hstrip. simpl in *. inversion Hstrip. subst. reflexivity.
Qed.

Lemma calendar_rows_amounts B a vs ve m m' :
  (forall d, strip_actual (m d) = strip_actual (m' d)) ->
  map row_amounts (calendar_rows B a vs ve m)
  = map row_amounts (calendar_rows B a vs ve m').
Proof.
  intros Hm. unfold calendar_rows.
  assert (Hdate : forall d, g_date (m d) = g_date (m' d)).
  { intros d. exact (f_equal g_date (Hm d)). }
  assert (Hnet : forall d, g_net_change (m d) = g_net_change (m' d)).
  { intros d. exact (f_equal g_net_change (Hm d)). }
  assert (Hc : forall d, g_credits (m d) = g_credits (m' d)).
  { intros d. exact (f_equal g_credits (Hm d)). }
  assert (Hb : forall d, g_debits (m d) = g_debits (m' d)).
  { intros d. exact (f_equal g_debits (Hm d)). }
  assert (E : map g_net_change (map m (date_range a ve))
              = map g_net_change (map m' (date_range a ve))).
  { rewrite !map_map. apply map_ext. exact Hnet. }
  rewrite E. clear E.
  generalize (map (Z.add B) (cumsum 0 (map g_net_change (map m' (date_range a ve))))).
  induction (date_range a ve) as [|d L IH]; intros bal; [reflexivity|].
  destruct bal as [|b bal]; [reflexivity|]. simpl.
  rewrite <- (Hdate d). destruct (in_view vs ve (g_date (m d))); simpl.
  - rewrite IH. unfold row_amounts at 1 3. simpl.
    rewrite (Hdate d), (Hc d), (Hb d), (Hnet d). reflexivity.
  - apply IH.
Qed.

Lemma get_calendar_data_days st st' u vs ve :
  get_user_settings st u = get_user_settings st' u ->
  (forall a, map tx_day (selected_after st u a) = map tx_day (selected_after st' u a)) ->
  get_calendar_data st u vs ve = get_calendar_data st' u vs ve.
Proof.
  intros Hs Hsel. rewrite !get_calendar_data_eq, Hs.
  destruct (get_user_settings st' u) as [[B a]|]; [|reflexivity].
  specialize (Hsel a).
  destruct (selected_after st u a) as [|t0 sel] eqn:E,
           (selected_after st' u a) as [|t0' sel'] eqn:E'; try discriminate.
  - reflexivity.
  - unfold calendar_rows.
    rewrite (map_ext _ _ (fun d => merge_day_days _ _ d Hsel)). reflexivity.
Qed.

Lemma get_calendar_data_amounts st st' u vs ve :
  get_user_settings st u = get_user_settings st' u ->
  (forall a, map tx_amounts (selected_after st u a)
             = map tx_amounts (selected_after st' u a)) ->
  map row_amounts (get_calendar_data st u vs ve)
  = map row_amounts (get_calendar_data st' u vs ve).
Proof.
  intros Hs Hsel. rewrite !get_calendar_data_eq, Hs.
  destruct (get_user_settings st' u) as [[B a]|]; [|reflexivity].
  specialize (Hsel a).
  destruct (selected_after st u a) as [|t0 sel] eqn:E,
           (selected_after st' u a) as [|t0' sel'] eqn:E'; try discriminate.
  - reflexivity.
  - apply calendar_rows_amounts. intros d. apply merge_day_amounts. exact Hsel.
Qed.

(** The rows selected from a table whose rows were rewritten in place. *)
Lemma selected_after_map (f : Transaction -> Transaction) l u a :
  (forall t, In t l -> t_user_id (f t) = t_user_id t /\ t_date (f t) = t_date t) ->
  filter (fun t => String.eqb (t_user_id t) u && date_leb a (t_date t)) (map f l)
  = map f (filter (fun t => String.eqb (t_user_id t) u && date_leb a (t_date t)) l).
Proof.
  intros Hf. rewrite map_filter_comm. f_equal. apply filter_ext_in.
  intros t Ht. destruct (Hf t Ht) as [-> ->]. reflexivity.
Qed.

Lemma map_map_In {A B} (k : A -> B) (f : A -> A) l :
  (forall t, In t l -> k (f t) = k t) -> map k (map f l) = map k l.
Proof. intros H. rewrite map_map. apply map_ext_in. exact H. Qed.

(** *** Day arithmetic of the first view *)

Lemma next_day_in_month y m d :
  d < days_in_month y m -> next_day (mkdate y m d) = mkdate y m (d + 1).
Proof. intros H. unfold next_day. simpl. apply Z.ltb_lt in H. rewrite H. reflexivity. Qed.

Lemma next_day_month_end y m d :
  days_in_month y m <= d -> m < 12 -> next_day (mkdate y m d) = mkdate y (m + 1) 1.
Proof.
  intros H Hm. unfold next_day. simpl.
  apply Z.ltb_ge in H. rewrite H. apply Z.ltb_lt in Hm. rewrite Hm. reflexivity.
Qed.

Lemma next_day_year_end y m d :
  days_in_month y m <= d -> 12 <= m -> next_day (mkdate y m d) = mkdate (y + 1) 1 1.
Proof.
  intros H Hm. unfold next_day. simpl.
  apply Z.ltb_ge in H. rewrite H. apply Z.ltb_ge in Hm. rewrite Hm. reflexivity.
Qed.

Lemma prev_day_in_month y m d :
  1 < d -> prev_day (mkdate y m d) = mkdate y m (d - 1).
Proof. intros H. unfold prev_day. simpl. apply Z.ltb_lt in H. rewrite H. reflexivity. Qed.

Lemma prev_day_month_start y m d :
  d <= 1 -> 1 < m ->
  prev_day (mkdate y m d) = mkdate y (m - 1) (days_in_month y (m - 1)).
Proof.
  intros H Hm. unfold prev_day. simpl.
  apply Z.ltb_ge in H. rewrite H. apply Z.ltb_lt in Hm. rewrite Hm. reflexivity.
Qed.

Lemma prev_day_year_start y m d :
  d <= 1 -> m <= 1 -> prev_day (mkdate y m d) = mkdate (y - 1) 12 31.
Proof.
  intros H Hm. unfold prev_day. simpl.
  apply Z.ltb_ge in H. rewrite H. apply Z.ltb_ge in Hm. rewrite Hm. reflexivity.
Qed.

Ltac step_days :=
  repeat first
    [ rewrite next_day_in_month by lia
    | rewrite next_day_month_end by lia
    | rewrite next_day_year_end by lia
    | rewrite prev_day_in_month by lia
    | rewrite prev_day_month_start by lia
    | rewrite prev_day_year_start by lia ].

(** Day 28 plus four days is in the next month, and going back by its
    day number reaches the last day of the month. *)
Lemma calendar_view_end_eq today :
  1 <= month today <= 12 ->
  calendar_view_end today
  = mkdate (year today) (month today) (days_in_month (year today) (month today)).
Proof.
  destruct today as [y m d]; cbn [year month day]. intros Hm.
  pose proof (days_in_month_bounds y m) as HD.
  pose proof (days_in_month_bounds y (m + 1)) as HD1.
  pose proof (days_in_month_bounds (y + 1) 1) as HD2.
  unfold calendar_view_end, replace_day, add_days, sub_days.
  cbn [year month day Nat.iter nat_rect].
  assert (Hc : days_in_month y m = 28 \/ days_in_month y m = 29
               \/ days_in_month y m = 30 \/ days_in_month y m = 31) by lia.
  assert (H12 : m = 12 -> days_in_month y m = 31) by (intros ->; reflexivity).
  destruct (Z_lt_le_dec m 12) as [Hlt|Hge];
    destruct Hc as [E|[E|[E|E]]]; step_days; cbn [day].
  all: try match goal with
    | |- context [Z.to_nat ?z] =>
        let n := eval vm_compute in (Z.to_nat z) in change (Z.to_nat z) with n
    end.
  all: cbn [Nat.iter nat_rect]; step_days.
  all: try replace (m + 1 - 1) with m by lia.
  all: rewrite ?E; f_equal; lia.
Qed.

(** *** Windows of the calendar *)

Lemma date_range_slice s e w s' e' :
  valid_date s = true -> valid_date e = true ->
  valid_date s' = true -> valid_date e' = true ->
  date_le e' e ->
  (forall x, date_le w x /\ date_le s x <-> date_le s' x) ->
  filter (in_view w e') (date_range s e) = date_range s' e'.
Proof.
  intros Hs He Hs' He' Hee Hw. apply sorted_date_ext.
  - apply sorted_date_filter, date_range_sorted.
  - apply date_range_sorted.
  - intros x. rewrite filter_In, !date_range_spec by assumption.
    unfold in_view. rewrite andb_true_iff. fold (date_le w x) (date_le x e').
    specialize (Hw x). split.
    + intros ((Hx & H1 & H2) & H3 & H4). tauto.
    + intros (Hx & H1 & H2).
      assert (date_le x e) by (eapply date_le_trans; eassumption). tauto.
Qed.

Lemma filter_map_date {A} (f : A -> DailySummary) (g : A -> Date) (p : Date -> bool) l :
  (forall x, date (f x) = g x) ->
  filter (fun r => p (date r)) (map f l) = map f (filter (fun x => p (g x)) l).
Proof.
  intros H. rewrite map_filter_comm. f_equal. apply filter_ext.
  intros x. rewrite H. reflexivity.
Qed.

Lemma occurrences_between_add st u d c desc amt conf sid a x :
  occurrences_between (fst (add_transaction st u d c desc amt conf sid)) u a x
  = occurrences_between st u a x
    ++ (if date_leb a d && date_leb d x
        then [mkTransaction (seq_transactions st + 1) u sid c d desc amt conf]
        else []).
Proof.
  unfold occurrences_between, add_transaction. cbn [fst transactions].
  rewrite filter_app. f_equal. cbn [filter t_user_id t_date].
  rewrite String.eqb_refl. cbn [andb].
  destruct (date_leb a d && date_leb d x); reflexivity.
Qed.

Lemma dates_valid_add st u d c desc amt conf sid :
  dates_valid st -> valid_date d = true ->
  dates_valid (fst (add_transaction st u d c desc amt conf sid)).
Proof.
  intros Hd Hv t Ht. cbn in Ht. apply in_app_or in Ht.
  destruct Ht as [Ht|[<-|[]]]; [apply Hd, Ht | exact Hv].
Qed.

Lemma on_day_selected st u a d t :
  date_le a d ->
  In t (on_day d (selected_after st u a)) <-> In t (occurrences_on st u d).
Proof.
  intros Ha. unfold on_day, selected_after, occurrences_on.
  rewrite !filter_In, !andb_true_iff. split.
  - tauto.
  - intros (Ht & Hu & Hd). repeat split; try assumption.
    apply date_eqb_eq in Hd. rewrite Hd. exact Ha.
Qed.

Lemma calendar_row_date st u B a d : date (calendar_row st u B a d) = d.
Proof. reflexivity. Qed.

Lemma month_window y m x :
  1 <= m <= 12 ->
  valid_date x = true /\
  date_le (mkdate y m 1) x /\ date_le x (mkdate y m (days_in_month y m))
  <-> valid_date x = true /\ year x = y /\ month x = m.
Proof.
  intros Hm. rewrite valid_date_spec. unfold date_le. rewrite !date_leb_spec.
  cbn [year month day]. split.
  - intros (Hx & H1 & H2). split; [exact Hx|]. lia.
  - intros (Hx & <- & <-). split; [exact Hx|]. lia.
Qed.

(** ** The running balance *)

(** C1. The balance that the code returns is not the starting balance
    plus the sum of the amounts: the amounts are held and added as
    binary64 numbers.  With starting balance 0.00 and the occurrences
    0.10, 0.20 and -0.30 on three consecutive days from the anchor date,
    the required balances are 0.10, 0.30 and 0.00; the code returns the
    doubles 0.1, 0.30000000000000004 (one unit in the last place above
    the double of 0.30) and 2^-54 (about 5.55e-17), which is not 0.
    Each day has one occurrence, so the drift is that of the running sum
    alone. *)
Theorem binary64_balance_drifts :
  get_user_settings drift_store "u" = Some (0, mkdate 2024 1 1) /\
  map (fun t => (t_date t, t_amount t)) (transactions drift_store)
  = [ (mkdate 2024 1 1, 10); (mkdate 2024 1 2, 20); (mkdate 2024 1 3, -30) ] /\
  map (fun d => 0 + sum_Z (map t_amount
                   (occurrences_between drift_store "u" (mkdate 2024 1 1) d)))
      (date_range (mkdate 2024 1 1) (mkdate 2024 1 3))
  = [10; 30; 0] /\
  map (fun r => (Binary64.date r, Binary64.balance r))
      (Binary64.get_calendar_data drift_store "u" (mkdate 2024 1 1) (mkdate 2024 1 3))
  = [ (mkdate 2024 1 1, Binary64.of_minor 10);
      (mkdate 2024 1 2, S754_finite false 5404319552844596 (-54));
      (mkdate 2024 1 3, S754_finite false 4503599627370496 (-106)) ] /\
  Binary64.of_minor 30 = S754_finite false 5404319552844595 (-54) /\
  SFeqb (S754_finite false 5404319552844596 (-54)) (Binary64.of_minor 30) = false /\
  SFeqb (S754_finite false 4503599627370496 (-106)) (Binary64.of_minor 0) = false.
Proof.
  split; [reflexivity|]. split; [reflexivity|].
  split; [vm_compute; reflexivity|]. split; [vm_compute; reflexivity|].
  split; [vm_compute; reflexivity|]. split; vm_compute; reflexivity.
Qed.

Lemma one_confirmed_dates_valid : dates_valid one_confirmed_store.
Proof. intros t [<-|[]]. reflexivity. Qed.

(** ** The end-to-end scenario *)

(** C2. In the scenario (anchor 2024-01-01, balance 1000.00, one monthly
    rule of -100.00 starting 2024-01-01, horizon 2024-04-01) the code
    writes three occurrences, on 2024-02-01, 2024-03-01 and 2024-04-01,
    and none on the start date; the balance is 1000.00 through January,
    900.00 through February, 800.00 through March and 700.00 from
    2024-04-01. *)
Theorem scenario_skips_start_date :
  exists st',
    run_projection 10 scenario_store "u" (mkdate 2024 4 1) = Some st' /\
    map (fun t => (t_date t, t_amount t)) (transactions st')
    = [ (mkdate 2024 2 1, -10000); (mkdate 2024 3 1, -10000);
        (mkdate 2024 4 1, -10000) ] /\
    map date (get_calendar_data st' "u" (mkdate 2024 1 1) (mkdate 2024 4 30))
    = date_range (mkdate 2024 1 1) (mkdate 2024 4 30) /\
    forallb (fun r => balance r =? scenario_balance (date r))
            (get_calendar_data st' "u" (mkdate 2024 1 1) (mkdate 2024 4 30)) = true.
Proof. eexists. split; [vm_compute; reflexivity|]. vm_compute. auto. Qed.

(** ** Idempotence *)

(** C3. Expanding a rule a second time, on the store the first expansion
    left and with the same horizon, inserts nothing: the store is the
    same.  The first expansion returns whenever the frequency is one of
    the five and the dates are calendar dates.  The same holds for a whole
    run of [run_projection] over the rules of a user (rule keys being a
    primary key). *)
Theorem expansion_idempotent st u sch horizon :
  (known_frequency (frequency sch) = true ->
   valid_date (s_start_date sch) = true -> dates_valid st ->
   exists fuel st1, expand_schedule fuel st u sch horizon = Some st1) /\
  (forall fuel st1,
     expand_schedule fuel st u sch horizon = Some st1 ->
     expand_schedule fuel st1 u sch horizon = Some st1) /\
  (forall fuel st1,
     NoDup (map schedule_id (schedules_of st u)) ->
     run_projection fuel st u horizon = Some st1 ->
     run_projection fuel st1 u horizon = Some st1).
Proof.
  split; [|split].
  - apply expand_schedule_terminates.
  - intros fuel st1. apply expand_schedule_again.
  - intros fuel st1. apply run_projection_again.
Qed.

Lemma expansion_idempotent_witness :
  exists st1,
    run_projection 10 scenario_store "u" (mkdate 2024 4 1) = Some st1 /\
    run_projection 10 st1 "u" (mkdate 2024 4 1) = Some st1.
Proof.
  eexists. split; [vm_compute; reflexivity|].
  apply (proj2 (proj2 (expansion_idempotent scenario_store "u" yearly_rule
                         (mkdate 2024 4 1))) 10%nat).
  - vm_compute. constructor; [intros [] | constructor].
  - vm_compute. reflexivity.
Defined.

(** ** Termination *)

(** C4. For a rule whose frequency is none of the five the cursor never
    moves: with start date 2024-01-01 and horizon 2024-04-01 the cursor is
    2024-01-01 after any number of passes, never beyond the ceiling, and
    the loop has not returned after any number of steps. *)
Theorem unknown_frequency_loops_forever :
  known_frequency (frequency yearly_rule) = false /\
  (forall n,
     current_date (iterate_body n "u" yearly_rule
                     (mkLoop (resume_date yearly_store "u" yearly_rule) yearly_store))
     = mkdate 2024 1 1) /\
  date_le (mkdate 2024 1 1) (loop_end yearly_rule (mkdate 2024 4 1)) /\
  (forall fuel,
     expand_schedule fuel yearly_store "u" yearly_rule (mkdate 2024 4 1) = None).
Proof.
  split; [reflexivity|]. split; [|split; [reflexivity|]].
  - intros n.
    assert (H : forall s, current_date (iterate_body n "u" yearly_rule s) = current_date s).
    { induction n as [|n IH]; intros s; [reflexivity|]. simpl. rewrite IH. reflexivity. }
    rewrite H. reflexivity.
  - intros fuel. apply while_loop_unknown_diverges; reflexivity.
Qed.

(** ** Unknown frequencies *)

(** C5. A rule whose frequency is none of the five is not rejected: each
    pass of its loop writes one more occurrence for it (all on its start
    date), the loop does not end, and the monthly rule that follows it is
    never expanded: [run_projection] has not returned after any number of
    steps. *)
Theorem unknown_frequency_keeps_writing :
  map fst (get_scheduled_transactions yearly_store "u")
  = [ yearly_rule;
      mkSchedule 2 "u" None "rent" (-10000) "monthly" (mkdate 2024 1 1) None ] /\
  (forall n,
     List.length
       (rule_rows
          (conn (iterate_body n "u" yearly_rule
                   (mkLoop (resume_date yearly_store "u" yearly_rule) yearly_store)))
          "u" 1)
     = n) /\
  (forall fuel, run_projection fuel yearly_store "u" (mkdate 2024 4 1) = None).
Proof.
  split; [reflexivity|]. split.
  - intros n.
    rewrite (iterate_unknown_rows n "u" yearly_rule); reflexivity.
  - intros fuel. unfold run_projection.
    change (map fst (get_scheduled_transactions yearly_store "u"))
      with [ yearly_rule;
             mkSchedule 2 "u" None "rent" (-10000) "monthly" (mkdate 2024 1 1) None ].
    cbn [expand_all]. unfold expand_schedule.
    rewrite while_loop_unknown_diverges; reflexivity.
Qed.

(** ** Month clamping *)

(** C6, as stated, fails: from the empty store the rule starting 2024-01-31
    yields occurrences on 2024-02-29, 2024-03-29 and 2024-04-29, which is
    neither of the two sequences the claim allows. *)
Lemma monthly_clamp_counterexample :
  exists st',
    run_projection 10 clamp_store "u" (mkdate 2024 4 30) = Some st' /\
    map t_date (transactions st')
    = [ mkdate 2024 2 29; mkdate 2024 3 29; mkdate 2024 4 29 ] /\
    map t_date (transactions st')
    <> [ mkdate 2024 1 31; mkdate 2024 2 29; mkdate 2024 3 29; mkdate 2024 4 30 ] /\
    map t_date (transactions st')
    <> [ mkdate 2024 1 31; mkdate 2024 2 29; mkdate 2024 3 31; mkdate 2024 4 30 ].
Proof.
  eexists. split; [vm_compute; reflexivity|].
  split; [vm_compute; reflexivity|]. split; vm_compute; discriminate.
Qed.

(** C6 (amended). A monthly step adds one calendar month to the date it
    starts from, which is the previous occurrence of the rule and not its
    start date, and clamps the day to the length of the month reached.
    For the monthly rule starting 2024-01-31 expanded from an empty store
    to horizon 2024-04-30, the occurrences generated after the start date
    are dated exactly 2024-02-29, 2024-03-29 and 2024-04-29. *)
Theorem monthly_step_clamps_from_previous :
  (forall d, 1 <= month d <= 12 ->
     let d' := advance "monthly" d in
     year d' * 12 + month d' = year d * 12 + month d + 1 /\
     1 <= month d' <= 12 /\
     day d' = Z.min (days_in_month (year d') (month d')) (day d)) /\
  (exists fuel st', run_projection fuel clamp_store "u" (mkdate 2024 4 30) = Some st') /\
  (forall fuel st',
     run_projection fuel clamp_store "u" (mkdate 2024 4 30) = Some st' ->
     filter (date_ltb (mkdate 2024 1 31)) (map t_date (transactions st'))
     = [ mkdate 2024 2 29; mkdate 2024 3 29; mkdate 2024 4 29 ]).
Proof.
  split; [|split].
  - intros d Hm. change (advance "monthly" d) with (add_months 1 d).
    unfold add_months. destruct (12 <? month d + 1) eqn:E; simpl.
    + apply Z.ltb_lt in E. lia.
    + apply Z.ltb_ge in E. lia.
  - exists 10%nat. eexists. vm_compute. reflexivity.
  - intros fuel st' H.
    assert (H10 : exists s, run_projection 10 clamp_store "u" (mkdate 2024 4 30) = Some s
                            /\ filter (date_ltb (mkdate 2024 1 31)) (map t_date (transactions s))
                               = [ mkdate 2024 2 29; mkdate 2024 3 29; mkdate 2024 4 29 ]).
    { eexists. split; vm_compute; reflexivity. }
    destruct H10 as (s & Hs & Hdates).
    rewrite (run_projection_deterministic _ _ _ _ _ _ _ H Hs). exact Hdates.
Qed.

Lemma monthly_step_clamps_witness :
  exists st',
    run_projection 10 clamp_store "u" (mkdate 2024 4 30) = Some st' /\
    filter (date_ltb (mkdate 2024 1 31)) (map t_date (transactions st'))
    = [ mkdate 2024 2 29; mkdate 2024 3 29; mkdate 2024 4 29 ].
Proof.
  eexists. split; [vm_compute; reflexivity|].
  apply (proj2 (proj2 monthly_step_clamps_from_previous) 10%nat).
  vm_compute. reflexivity.
Defined.

(** ** The dense daily grid *)

(** C7, as stated, fails: with anchor date 2024-01-03, one occurrence on
    2024-01-04 and the window 2024-01-01..2024-01-05, the rows returned
    cover 2024-01-03..2024-01-05 only. *)
Lemma window_before_anchor_counterexample :
  get_user_settings late_anchor_store "u" = Some (100000, mkdate 2024 1 3) /\
  date_range (mkdate 2024 1 1) (mkdate 2024 1 5)
  = [ mkdate 2024 1 1; mkdate 2024 1 2; mkdate 2024 1 3; mkdate 2024 1 4;
      mkdate 2024 1 5 ] /\
  map date (get_calendar_data late_anchor_store "u" (mkdate 2024 1 1) (mkdate 2024 1 5))
  = [ mkdate 2024 1 3; mkdate 2024 1 4; mkdate 2024 1 5 ].
Proof. split; [|split]; vm_compute; reflexivity. Qed.

(** C7 (amended). For a user with stored settings the rows returned by
    [get_calendar_data] are, in order and one per calendar day, the days of
    the view window [vs..ve]; when the user has at least one occurrence
    dated on or after the anchor date, only the days of the window from the
    anchor date on are returned.  On a returned day without occurrences
    the balance is that of the row of the day before. *)
Theorem calendar_has_no_gaps st u vs ve B a :
  get_user_settings st u = Some (B, a) ->
  valid_date a = true -> valid_date vs = true -> valid_date ve = true ->
  dates_valid st ->
  let rows := get_calendar_data st u vs ve in
  let first := match selected_after st u a with
               | [] => vs
               | _ :: _ => date_max a vs
               end in
  map date rows = date_range first ve /\
  NoDup (map date rows) /\
  (forall d, In d (map date rows) <->
             valid_date d = true /\ date_le first d /\ date_le d ve) /\
  (forall r1 r2, In r1 rows -> In r2 rows ->
     date r2 = next_day (date r1) ->
     occurrences_on st u (date r2) = [] ->
     balance r2 = balance r1).
Proof.
  intros Hs Ha Hvs Hve Hdv rows first.
  assert (Hfirst : valid_date first = true).
  { unfold first. destruct (selected_after st u a); auto using date_max_valid. }
  assert (Hdates : map date rows = date_range first ve).
  { unfold rows, first. destruct (selected_after st u a) as [|t0 sel] eqn:Esel.
    - rewrite (calendar_flat st u vs ve B a Hs Esel), map_map. simpl. apply map_id.
    - apply (calendar_dates st u vs ve B a); auto. rewrite Esel. discriminate. }
  split; [exact Hdates|]. split; [|split].
  - rewrite Hdates. apply sorted_date_NoDup, date_range_sorted.
  - intros d. rewrite Hdates. apply date_range_spec; auto.
  - intros r1 r2 H1 H2 Hnext Hnone. unfold rows in *.
    destruct (selected_after st u a) as [|t0 sel] eqn:Esel.
    + rewrite (calendar_flat st u vs ve B a Hs Esel) in H1, H2.
      apply in_map_iff in H1, H2.
      destruct H1 as (d1 & <- & _), H2 as (d2 & <- & _). reflexivity.
    + assert (Hne : selected_after st u a <> []) by (rewrite Esel; discriminate).
      destruct (calendar_row_after_anchor st u vs ve B a r1 Hs Hne Ha Hve H1)
        as (Hv1 & Ha1 & _).
      destruct (calendar_row_after_anchor st u vs ve B a r2 Hs Hne Ha Hve H2)
        as (Hv2 & Ha2 & _).
      rewrite (calendar_balance st u vs ve B a r1), (calendar_balance st u vs ve B a r2);
        auto.
      rewrite Hnext in *. rewrite occurrences_between_next_day; auto.
Qed.

Lemma late_anchor_dates_valid : dates_valid late_anchor_store.
Proof. intros t [<-|[]]. reflexivity. Qed.

Lemma calendar_has_no_gaps_witness :
  map date (get_calendar_data late_anchor_store "u" (mkdate 2024 1 1) (mkdate 2024 1 5))
  = date_range (date_max (mkdate 2024 1 3) (mkdate 2024 1 1)) (mkdate 2024 1 5).
Proof.
  assert (Hs : get_user_settings late_anchor_store "u" = Some (100000, mkdate 2024 1 3))
    by (vm_compute; reflexivity).
  assert (Ha : valid_date (mkdate 2024 1 3) = true) by (vm_compute; reflexivity).
  assert (Hvs : valid_date (mkdate 2024 1 1) = true) by (vm_compute; reflexivity).
  assert (Hve : valid_date (mkdate 2024 1 5) = true) by (vm_compute; reflexivity).
  exact (proj1 (calendar_has_no_gaps late_anchor_store "u" (mkdate 2024 1 1)
                  (mkdate 2024 1 5) 100000 (mkdate 2024 1 3)
                  Hs Ha Hvs Hve late_anchor_dates_valid)).
Defined.

(** ** The actual/estimated flag *)

(** C8. With anchor 2024-01-01 and a single, confirmed occurrence on
    2024-01-02, the rows of 2024-01-01 and 2024-01-03, days without any
    occurrence, carry [is_actual = false]. *)
Theorem no_occurrence_day_not_actual :
  occurrences_on one_confirmed_store "u" (mkdate 2024 1 1) = [] /\
  occurrences_on one_confirmed_store "u" (mkdate 2024 1 3) = [] /\
  map (fun r => (date r, is_actual r))
      (get_calendar_data one_confirmed_store "u" (mkdate 2024 1 1) (mkdate 2024 1 3))
  = [ (mkdate 2024 1 1, false); (mkdate 2024 1 2, true); (mkdate 2024 1 3, false) ].
Proof. split; [|split]; vm_compute; reflexivity. Qed.

(** ** Missing settings *)

(** C9. For a user without stored settings [get_calendar_data] returns
    the empty sequence, whatever the view window. *)
Theorem no_settings_empty_calendar st u vs ve :
  get_user_settings st u = None -> get_calendar_data st u vs ve = [].
Proof. intros H. unfold get_calendar_data. rewrite H. reflexivity. Qed.

Lemma no_settings_empty_calendar_witness :
  get_calendar_data empty_store "nobody" (mkdate 2024 1 1) (mkdate 2024 1 31) = [].
Proof. apply no_settings_empty_calendar. reflexivity. Defined.

(** ** Isolation of users *)

(** What does hold of isolation.  Every read called with user id [u]
    selects only rows whose [user_id] is [u], and the effect of every
    write leaves the rows of every other user [v] as they were, in every
    table.  The calendar of [u] and the occurrences that the projection
    of [u] generates are the same in any two stores that hold the same
    settings, rules and occurrences for [u] (occurrence keys apart); and
    the projection of [u] leaves the rows of the other users unchanged.
    The category columns that the reads join to a row are not covered:
    see [category_join_crosses_users]. *)
Theorem user_isolation (u : string) :
  (* reads *)
  ((forall st c, In c (get_categories st u) -> c_user_id c = u /\ In c (categories st)) /\
   (forall st d r, In r (get_transactions_for_day st u d) ->
      t_user_id (fst r) = u /\ In (fst r) (transactions st)) /\
   (forall st d r, In r (get_all_transactions_after st u d) ->
      t_user_id (fst r) = u /\ In (fst r) (transactions st)) /\
   (forall st r, In r (get_scheduled_transactions st u) ->
      s_user_id (fst r) = u /\ In (fst r) (scheduled_transactions st)) /\
   (forall st st' sid, same_data u st st' ->
      get_last_generated_date st u sid = get_last_generated_date st' u sid) /\
   (forall st st', same_data u st st' ->
      get_user_settings st u = get_user_settings st' u)) /\
  (* writes *)
  (forall v st, v <> u ->
     (forall today, same_rows v (get_or_create_user st today u) st) /\
     (forall name type, same_rows v (add_category st u name type) st) /\
     (forall cid, same_rows v (delete_category st cid u) st) /\
     (forall d c desc amt conf sid,
        same_rows v (fst (add_transaction st u d c desc amt conf sid)) st) /\
     (forall tid d c desc amt conf,
        same_rows v (update_transaction st tid u d c desc amt conf) st) /\
     (forall tid, same_rows v (delete_transaction st tid u) st) /\
     (forall c desc amt f sd ed,
        same_rows v (fst (add_scheduled_transaction st u c desc amt f sd ed)) st) /\
     (forall sid future, same_rows v (delete_scheduled_transaction st sid u future) st) /\
     (forall B a, same_rows v (update_user_settings st u B a) st)) /\
  (* the engine *)
  (forall st st', same_rows u st st' -> same_data u st st') /\
  (forall st st' vs ve, same_data u st st' ->
     get_calendar_data st u vs ve = get_calendar_data st' u vs ve) /\
  (forall st st' fuel horizon, same_data u st st' ->
     option_rel (same_data u)
       (run_projection fuel st u horizon) (run_projection fuel st' u horizon)) /\
  (forall v st fuel horizon st1, v <> u ->
     run_projection fuel st u horizon = Some st1 -> same_rows v st1 st).
Proof.
  split; [|split; [|split; [|split; [|split]]]].
  - split; [intros st c; apply get_categories_own|].
    split; [intros st d r H; apply get_transactions_for_day_own in H; tauto|].
    split; [intros st d r H; apply get_all_transactions_after_own in H; tauto|].
    split; [intros st r; apply get_scheduled_transactions_own|].
    split.
    + intros st st' sid H. apply get_last_generated_date_same, H.
    + intros st st' H. apply get_user_settings_same, H.
  - intros v st Hvu.
    split; [intros; apply get_or_create_user_frame, Hvu|].
    split; [intros; apply add_category_frame, Hvu|].
    split; [intros; apply delete_category_frame, Hvu|].
    split; [intros; apply add_transaction_frame, Hvu|].
    split; [intros; apply update_transaction_frame, Hvu|].
    split; [intros; apply delete_transaction_frame, Hvu|].
    split; [intros; apply add_scheduled_transaction_frame, Hvu|].
    split; [intros; apply delete_scheduled_transaction_frame, Hvu|].
    intros; apply update_user_settings_frame, Hvu.
  - apply same_rows_same_data.
  - intros st st' vs ve. apply get_calendar_data_same.
  - intros st st' fuel horizon. apply run_projection_same.
  - intros v st fuel horizon st1. apply run_projection_frame.
Qed.

Lemma shared_store_same_data : same_data "u" one_confirmed_store shared_store.
Proof. unfold same_data. split; [|split]; vm_compute; reflexivity. Qed.

Lemma user_isolation_witness :
  get_calendar_data one_confirmed_store "u" (mkdate 2024 1 1) (mkdate 2024 1 3)
  = get_calendar_data shared_store "u" (mkdate 2024 1 1) (mkdate 2024 1 3).
Proof.
  exact (proj1 (proj2 (proj2 (proj2 (user_isolation "u"))))
           one_confirmed_store shared_store (mkdate 2024 1 1) (mkdate 2024 1 3)
           shared_store_same_data).
Defined.

(** C10. The reads do not return rows of the caller only.  The three
    joined reads look the category up by [category_id] alone, and
    [add_transaction] accepts every stored category, so a user can store
    an occurrence under a category of another user.  With users ["u"]
    and ["v"] and category 7 (["Rent"], of ["v"]): the insert of ["u"]
    under category 7 is committed; category 7 is not among the
    categories of ["u"]; the reads of ["u"] return the name and type of
    the category of ["v"]; and ["v"] cannot delete their own category
    any more, which they could before ["u"]'s insert. *)
Theorem category_join_crosses_users :
  add_transaction_call two_user_store "u" (mkdate 2024 1 2) (Some 7) "leak" (-500) 1 None
  = Committed borrowed_category_store 1 /\
  map category_id (get_categories borrowed_category_store "u") = [3; 5; 1; 2; 4] /\
  In (mkCategory 7 "v" "Rent" "debit") (get_categories borrowed_category_store "v") /\
  get_transactions_for_day borrowed_category_store "u" (mkdate 2024 1 2)
  = [ (mkTransaction 1 "u" None (Some 7) (mkdate 2024 1 2) "leak" (-500) 1,
       Some ("Rent", "debit")%string) ] /\
  map snd (get_all_transactions_after borrowed_category_store "u" (mkdate 2024 1 1))
  = [ Some ("Rent", "debit")%string ] /\
  delete_category_call two_user_store 7 "v"
  = Committed (delete_category two_user_store 7 "v") tt /\
  delete_category_call borrowed_category_store 7 "v"
  = IntegrityError borrowed_category_store.
Proof.
  split; [vm_compute; reflexivity|]. split; [vm_compute; reflexivity|].
  split; [vm_compute; tauto|]. split; [vm_compute; reflexivity|].
  split; [vm_compute; reflexivity|]. split; vm_compute; reflexivity.
Qed.

(** * The calls under the constraints *)

(** ** Effects of the statements *)

Lemma get_categories_add_category st u name type :
  Permutation (get_categories (add_category st u name type) u)
              (mkCategory (seq_categories st + 1) u name type :: get_categories st u).
Proof.
  unfold get_categories, add_category; simpl.
  rewrite !order_by_perm, filter_app. simpl. rewrite String.eqb_refl.
  symmetry. apply Permutation_cons_append.
Qed.

Lemma delete_category_rows st cid u :
  map tx_core (transactions (delete_category st cid u)) = map tx_core (transactions st) /\
  map rule_core (scheduled_transactions (delete_category st cid u))
  = map rule_core (scheduled_transactions st) /\
  (forall t, In t (transactions (delete_category st cid u)) ->
             t_user_id t = u -> t_category_id t <> Some cid) /\
  (forall s, In s (scheduled_transactions (delete_category st cid u)) ->
             s_user_id s = u -> s_category_id s <> Some cid) /\
  (forall t, In t (transactions st) -> t_category_id t <> Some cid ->
             In t (transactions (delete_category st cid u))).
Proof.
  unfold delete_category; simpl.
  split; [|split; [|split; [|split]]].
  - rewrite map_map. apply map_ext. intros t. destruct (_ && _); reflexivity.
  - rewrite map_map. apply map_ext. intros s. destruct (_ && _); reflexivity.
  - intros t Hin Hu Hc. apply in_map_iff in Hin. destruct Hin as (t0 & E & _).
    destruct (opt_Z_eqb (t_category_id t0) cid && String.eqb (t_user_id t0) u) eqn:Eb;
      subst t; simpl in *; [discriminate|].
    rewrite Hc, Hu in Eb. simpl in Eb. rewrite Z.eqb_refl, String.eqb_refl in Eb.
    discriminate.
  - intros s Hin Hu Hc. apply in_map_iff in Hin. destruct Hin as (s0 & E & _).
    destruct (opt_Z_eqb (s_category_id s0) cid && String.eqb (s_user_id s0) u) eqn:Eb;
      subst s; simpl in *; [discriminate|].
    rewrite Hc, Hu in Eb. simpl in Eb. rewrite Z.eqb_refl, String.eqb_refl in Eb.
    discriminate.
  - intros t Hin Hc. apply in_map_iff. exists t. split; [|exact Hin].
    destruct (t_category_id t) as [x|] eqn:Ec; simpl; [|reflexivity].
    destruct (x =? cid) eqn:Ex; simpl; [|reflexivity].
    apply Z.eqb_eq in Ex. congruence.
Qed.

Lemma delete_category_gone st cid u c :
  In c (categories (delete_category st cid u)) -> ~ (category_id c = cid /\ c_user_id c = u).
Proof.
  unfold delete_category; simpl. intros Hin [Hc Hu].
  apply filter_In in Hin. destruct Hin as [_ Hb].
  rewrite Hc, Hu, Z.eqb_refl, String.eqb_refl in Hb. discriminate.
Qed.

Lemma opt_Z_eqb_eq (a : option Z) (b : Z) : opt_Z_eqb a b = true <-> a = Some b.
Proof.
  unfold opt_Z_eqb. destruct a as [x|].
  - rewrite Z.eqb_eq. split; [intros ->; reflexivity | intros H; inversion H; reflexivity].
  - split; discriminate.
Qed.

(** A row that still refers to the category after the two UPDATEs is a
    row of another user. *)
Lemma category_referenced_detached st cid u :
  category_referenced (detach_category st cid u) cid = true ->
  exists v, v <> u /\
    ((exists t, In t (transactions st) /\ t_user_id t = v /\ t_category_id t = Some cid) \/
     (exists s, In s (scheduled_transactions st) /\ s_user_id s = v /\
                s_category_id s = Some cid)).
Proof.
  unfold category_referenced, detach_category, delete_category; simpl.
  rewrite orb_true_iff, !existsb_exists.
  intros [(t & Hin & Hc)|(s & Hin & Hc)]; apply in_map_iff in Hin;
    destruct Hin as (x & E & Hx).
  - destruct (opt_Z_eqb (t_category_id x) cid && String.eqb (t_user_id x) u) eqn:Eb;
      subst t; simpl in Hc; [discriminate|].
    rewrite Hc in Eb. simpl in Eb. apply opt_Z_eqb_eq in Hc.
    exists (t_user_id x). split.
    + intros Hu. rewrite Hu, String.eqb_refl in Eb. discriminate.
    + left. exists x. auto.
  - destruct (opt_Z_eqb (s_category_id x) cid && String.eqb (s_user_id x) u) eqn:Eb;
      subst s; simpl in Hc; [discriminate|].
    rewrite Hc in Eb. simpl in Eb. apply opt_Z_eqb_eq in Hc.
    exists (s_user_id x). split.
    + intros Hu. rewrite Hu, String.eqb_refl in Eb. discriminate.
    + right. exists x. auto.
Qed.

Lemma get_transactions_for_day_add st u d c desc amt conf sid :
  get_transactions_for_day (fst (add_transaction st u d c desc amt conf sid)) u d
  = get_transactions_for_day st u d
    ++ [(mkTransaction (seq_transactions st + 1) u sid c d desc amt conf,
         join_category st c)] /\
  (forall v d', (v, d') <> (u, d) ->
      get_transactions_for_day (fst (add_transaction st u d c desc amt conf sid)) v d'
      = get_transactions_for_day st v d').
Proof.
  unfold get_transactions_for_day, add_transaction; simpl.
  split.
  - rewrite filter_app, map_app. simpl. rewrite String.eqb_refl, date_eqb_refl. reflexivity.
  - intros v d' Hne. rewrite filter_app. simpl.
    destruct (String.eqb u v) eqn:Ev; simpl.
    + destruct (date_eqb d d') eqn:Ed; simpl; [|rewrite app_nil_r; reflexivity].
      apply String.eqb_eq in Ev. apply date_eqb_eq in Ed. congruence.
    + rewrite app_nil_r. reflexivity.
Qed.

Lemma delete_scheduled_transaction_rule_gone st sid u future :
  owns_schedule (delete_scheduled_transaction st sid u future) sid u = false.
Proof.
  unfold owns_schedule, delete_scheduled_transaction; simpl.
  apply not_true_is_false. rewrite existsb_exists. intros (s & Hin & Hb).
  apply filter_In in Hin. destruct Hin as [_ Hn]. rewrite Hb in Hn. discriminate.
Qed.

Lemma delete_scheduled_transaction_keeps st sid u future t :
  In t (transactions st) ->
  (t_schedule_id t <> Some sid \/ t_user_id t <> u \/ is_confirmed t <> 0) ->
  In t (transactions (delete_scheduled_transaction st sid u future)).
Proof.
  intros Hin H. unfold delete_scheduled_transaction; simpl.
  destruct future; [|exact Hin].
  apply filter_In. split; [exact Hin|].
  destruct (opt_Z_eqb (t_schedule_id t) sid) eqn:Es; [|reflexivity].
  destruct (String.eqb (t_user_id t) u) eqn:Eu; [|reflexivity].
  destruct (is_confirmed t =? 0) eqn:Ec; [|reflexivity].
  exfalso. apply String.eqb_eq in Eu. apply Z.eqb_eq in Ec.
  apply opt_Z_eqb_eq in Es. destruct H as [H|[H|H]]; congruence.
Qed.

Lemma schedule_not_referenced st sid :
  schedule_referenced st sid = false ->
  forall t, In t (transactions st) -> t_schedule_id t <> Some sid.
Proof.
  unfold schedule_referenced. intros H t Hin Hs.
  assert (E : existsb (fun t => opt_Z_eqb (t_schedule_id t) sid) (transactions st) = true).
  { apply existsb_exists. exists t. split; [exact Hin | apply opt_Z_eqb_eq, Hs]. }
  congruence.
Qed.

(** Nothing is deleted with a rule to which no occurrence refers. *)
Lemma delete_unreferenced_schedule st sid u future :
  schedule_referenced st sid = false ->
  transactions (delete_scheduled_transaction st sid u future) = transactions st.
Proof.
  intros H. unfold delete_scheduled_transaction; simpl.
  destruct future; [|reflexivity].
  apply filter_all. intros t Hin.
  destruct (opt_Z_eqb (t_schedule_id t) sid) eqn:Es; [|reflexivity].
  apply opt_Z_eqb_eq in Es. exfalso.
  exact (schedule_not_referenced st sid H t Hin Es).
Qed.

Lemma rule_rows_unreferenced st u sid :
  schedule_referenced st sid = false -> rule_rows st u sid = [].
Proof.
  intros H. unfold rule_rows. apply filter_none. intros t Hin.
  destruct (opt_Z_eqb (t_schedule_id t) sid) eqn:Es; [|apply andb_false_r].
  apply opt_Z_eqb_eq in Es. exfalso.
  exact (schedule_not_referenced st sid H t Hin Es).
Qed.

Lemma deleted_rule_rows fuel st sid u future h st1 :
  run_projection fuel (delete_scheduled_transaction st sid u future) u h = Some st1 ->
  rule_rows st1 u sid = rule_rows (delete_scheduled_transaction st sid u future) u sid.
Proof.
  unfold run_projection. rewrite get_scheduled_transactions_fst.
  apply expand_all_other_rule. intros Hin. apply in_map_iff in Hin.
  destruct Hin as (s & Hs & Hin).
  unfold schedules_of, delete_scheduled_transaction in Hin; simpl in Hin.
  apply filter_In in Hin. destruct Hin as [Hin Hu]. apply filter_In in Hin.
  destruct Hin as [_ Hb]. rewrite Hs, Hu, Z.eqb_refl in Hb. discriminate.
Qed.

(** ** The inserts of the projection *)

(** The parent rows that the insert of a rule's occurrence needs. *)
Lemma while_loop_call_accepts fuel u sch e s :
  user_exists (conn s) u = true ->
  category_exists (conn s) (s_category_id sch) = true ->
  schedule_exists (conn s) (Some (schedule_id sch)) = true ->
  while_loop_call fuel u sch e s
  = option_map (fun db => Committed db tt) (while_loop fuel u sch e s).
Proof.
  revert s. induction fuel as [|fuel IH]; intros s Hu Hc Hs; simpl; [reflexivity|].
  destruct (date_leb (current_date s) e); [|reflexivity].
  unfold loop_body.
  destruct (date_leb (s_start_date sch) (current_date s)).
  - unfold add_transaction_call. rewrite Hu, Hc, Hs. cbn [andb].
    apply IH; assumption.
  - apply IH; assumption.
Qed.

Lemma parents_same_tables db st u c sid :
  same_tables db st ->
  user_exists db u = user_exists st u /\
  category_exists db c = category_exists st c /\
  schedule_exists db sid = schedule_exists st sid.
Proof.
  intros (Hu & _ & Hc & Hs).
  unfold user_exists, category_exists, schedule_exists. rewrite Hu, Hc, Hs. auto.
Qed.

Lemma expand_all_call_accepts fuel u rules h st :
  (forall sch, In sch rules ->
     user_exists st u = true /\ category_exists st (s_category_id sch) = true /\
     schedule_exists st (Some (schedule_id sch)) = true) ->
  expand_all_call fuel st u rules h
  = option_map (fun db => Committed db tt) (expand_all fuel st u rules h).
Proof.
  revert st. induction rules as [|sch rules IH]; intros st Hall; simpl; [reflexivity|].
  destruct (Hall sch (or_introl eq_refl)) as (Hu & Hc & Hs).
  unfold expand_schedule_call, expand_schedule.
  rewrite while_loop_call_accepts by assumption.
  destruct (while_loop fuel u sch (loop_end sch h) _) as [db|] eqn:E; simpl; [|reflexivity].
  apply IH. intros sch' Hin.
  destruct (while_loop_appends _ _ _ _ _ _ E) as [Htab _]. cbn [conn] in Htab.
  destruct (Hall sch' (or_intror Hin)) as (Hu' & Hc' & Hs').
  destruct (parents_same_tables db st u (s_category_id sch') (Some (schedule_id sch')) Htab)
    as (E1 & E2 & E3).
  rewrite E1, E2, E3. auto.
Qed.

Lemma schedule_exists_In st s :
  In s (scheduled_transactions st) -> schedule_exists st (Some (schedule_id s)) = true.
Proof.
  intros Hin. unfold schedule_exists. apply existsb_exists.
  exists s. split; [exact Hin | apply Z.eqb_refl].
Qed.

Lemma run_projection_call_accepts fuel st u h :
  foreign_keys st ->
  run_projection_call fuel st u h
  = option_map (fun db => Committed db tt) (run_projection fuel st u h).
Proof.
  intros (_ & _ & Hrules & _). unfold run_projection_call, run_projection.
  apply expand_all_call_accepts. intros sch Hin.
  rewrite get_scheduled_transactions_fst in Hin. unfold schedules_of in Hin.
  apply filter_In in Hin. destruct Hin as [Hin Hu]. apply String.eqb_eq in Hu.
  destruct (Hrules sch Hin) as [H1 H2]. rewrite Hu in H1.
  split; [exact H1|]. split; [exact H2|]. apply schedule_exists_In, Hin.
Qed.

(** ** Referential integrity *)

Lemma foreign_keys_empty : foreign_keys empty_store.
Proof. unfold foreign_keys. simpl. split; [|split; [|split]]; intros ? []. Qed.

Lemma existsb_app_l {A} (p : A -> bool) l l' :
  existsb p l = true -> existsb p (l ++ l') = true.
Proof. intros H. rewrite existsb_app, H. reflexivity. Qed.

Lemma category_exists_app st (cid : option Z) l :
  category_exists st cid = true ->
  match cid with
  | None => true
  | Some c => existsb (fun x => category_id x =? c) (categories st ++ l)
  end = true.
Proof. destruct cid; simpl; [apply existsb_app_l | reflexivity]. Qed.

(** A store that differs in its occurrences only. *)
Lemma foreign_keys_transactions st txs n :
  foreign_keys st ->
  (forall t, In t txs ->
     user_exists st (t_user_id t) = true /\
     category_exists st (t_category_id t) = true /\
     schedule_exists st (t_schedule_id t) = true) ->
  foreign_keys (mkStore (users st) (user_settings st) (categories st)
                        (scheduled_transactions st) txs
                        (seq_categories st) (seq_schedules st) n).
Proof.
  intros (H1 & H2 & H3 & _) H. split; [exact H1|]. split; [exact H2|].
  split; [exact H3 | exact H].
Qed.

Lemma foreign_keys_get_or_create_user st today u :
  foreign_keys st -> foreign_keys (get_or_create_user st today u).
Proof.
  intros (H1 & H2 & H3 & H4). unfold get_or_create_user.
  destruct (existsb (String.eqb u) (users st)) eqn:E; [repeat split; auto; apply H3 || apply H4; assumption|].
  assert (Hu : forall v, user_exists st v = true ->
                 existsb (String.eqb v) (users st ++ [u]) = true).
  { intros v. apply existsb_app_l. }
  assert (Hnew : existsb (String.eqb u) (users st ++ [u]) = true).
  { rewrite existsb_app. simpl. rewrite String.eqb_refl. apply orb_true_r. }
  unfold foreign_keys, user_exists, category_exists, schedule_exists; simpl.
  split; [|split; [|split]].
  - intros r Hin. apply in_app_or in Hin. destruct Hin as [Hin|[<-|[]]]; [apply Hu, H1, Hin | exact Hnew].
  - intros c Hin. apply in_app_or in Hin. destruct Hin as [Hin|Hin]; [apply Hu, H2, Hin|].
    simpl in Hin. destruct Hin as [<-|[<-|[<-|[<-|[<-|[]]]]]]; exact Hnew.
  - intros s Hin. destruct (H3 s Hin) as [Ha Hb]. split; [apply Hu, Ha|].
    apply category_exists_app, Hb.
  - intros t Hin. destruct (H4 t Hin) as (Ha & Hb & Hc).
    split; [apply Hu, Ha|]. split; [apply category_exists_app, Hb | exact Hc].
Qed.

Lemma foreign_keys_add_category st u name type :
  foreign_keys st -> user_exists st u = true -> foreign_keys (add_category st u name type).
Proof.
  intros (H1 & H2 & H3 & H4) Hu.
  unfold foreign_keys, add_category, user_exists, category_exists, schedule_exists; simpl.
  split; [exact H1|]. split; [|split].
  - intros c Hin. apply in_app_or in Hin. destruct Hin as [Hin|[<-|[]]]; [apply H2, Hin | exact Hu].
  - intros s Hin. destruct (H3 s Hin) as [Ha Hb]. split; [exact Ha|].
    apply category_exists_app, Hb.
  - intros t Hin. destruct (H4 t Hin) as (Ha & Hb & Hc).
    split; [exact Ha|]. split; [apply category_exists_app, Hb | exact Hc].
Qed.

Lemma foreign_keys_detach_category st cid u :
  foreign_keys st -> foreign_keys (detach_category st cid u).
Proof.
  intros (H1 & H2 & H3 & H4).
  unfold foreign_keys, detach_category, delete_category, user_exists, category_exists,
    schedule_exists; simpl.
  split; [exact H1|]. split; [exact H2|]. split.
  - intros s Hin. apply in_map_iff in Hin. destruct Hin as (x & <- & Hx).
    destruct (H3 x Hx) as [Ha Hb].
    destruct (opt_Z_eqb (s_category_id x) cid && String.eqb (s_user_id x) u); simpl; auto.
  - intros t Hin. apply in_map_iff in Hin. destruct Hin as (x & <- & Hx).
    destruct (H4 x Hx) as (Ha & Hb & Hc).
    assert (Hs : forall y, In y (scheduled_transactions st) ->
                   exists y', In y' (map (fun s =>
                       if opt_Z_eqb (s_category_id s) cid && String.eqb (s_user_id s) u
                       then mkSchedule (schedule_id s) (s_user_id s) None (s_description s)
                              (s_amount s) (frequency s) (s_start_date s) (s_end_date s)
                       else s) (scheduled_transactions st)) /\ schedule_id y' = schedule_id y).
    { intros y Hy. eexists. split; [apply in_map, Hy|].
      destruct (opt_Z_eqb (s_category_id y) cid && String.eqb (s_user_id y) u); reflexivity. }
    assert (Hc' : match t_schedule_id x with
                  | None => true
                  | Some s0 => existsb (fun x0 => schedule_id x0 =? s0)
                      (map (fun s =>
                       if opt_Z_eqb (s_category_id s) cid && String.eqb (s_user_id s) u
                       then mkSchedule (schedule_id s) (s_user_id s) None (s_description s)
                              (s_amount s) (frequency s) (s_start_date s) (s_end_date s)
                       else s) (scheduled_transactions st))
                  end = true).
    { destruct (t_schedule_id x) as [s0|]; [|reflexivity].
      simpl in Hc. apply existsb_exists in Hc. destruct Hc as (y & Hy & Ey).
      destruct (Hs y Hy) as (y' & Hy' & Ey').
      apply existsb_exists. exists y'. split; [exact Hy' | rewrite Ey'; exact Ey]. }
    destruct (opt_Z_eqb (t_category_id x) cid && String.eqb (t_user_id x) u); simpl; auto.
Qed.

Lemma category_referenced_false st cid :
  category_referenced st cid = false ->
  (forall t, In t (transactions st) -> t_category_id t <> Some cid) /\
  (forall s, In s (scheduled_transactions st) -> s_category_id s <> Some cid).
Proof.
  unfold category_referenced. intros H. apply orb_false_iff in H. destruct H as [Ht Hs].
  split.
  - intros t Hin Hc.
    assert (E : existsb (fun t => opt_Z_eqb (t_category_id t) cid) (transactions st) = true)
      by (apply existsb_exists; exists t; split; [exact Hin | apply opt_Z_eqb_eq, Hc]).
    congruence.
  - intros s Hin Hc.
    assert (E : existsb (fun s => opt_Z_eqb (s_category_id s) cid)
                        (scheduled_transactions st) = true)
      by (apply existsb_exists; exists s; split; [exact Hin | apply opt_Z_eqb_eq, Hc]).
    congruence.
Qed.

Lemma owns_category_false st cid u :
  owns_category st cid u = false ->
  filter (fun c => negb ((category_id c =? cid) && String.eqb (c_user_id c) u))
         (categories st) = categories st.
Proof.
  unfold owns_category. intros H. apply filter_all. intros c Hin.
  destruct ((category_id c =? cid) && String.eqb (c_user_id c) u) eqn:E; [|reflexivity].
  exfalso. assert (E' : existsb (fun c => (category_id c =? cid) && String.eqb (c_user_id c) u)
                                (categories st) = true)
    by (apply existsb_exists; exists c; auto).
  congruence.
Qed.

(** A reference to a category other than the deleted one is still good. *)
Lemma category_exists_filter st cid u c :
  category_exists st c = true -> c <> Some cid ->
  match c with
  | None => true
  | Some c0 => existsb (fun x => category_id x =? c0)
                 (filter (fun c => negb ((category_id c =? cid) && String.eqb (c_user_id c) u))
                         (categories st))
  end = true.
Proof.
  destruct c as [c0|]; [|reflexivity]. simpl. intros H Hne.
  apply existsb_exists in H. destruct H as (x & Hx & Ex).
  apply existsb_exists. exists x. split; [|exact Ex].
  apply filter_In. split; [exact Hx|].
  apply Z.eqb_eq in Ex. destruct (category_id x =? cid) eqn:E; [|reflexivity].
  apply Z.eqb_eq in E. exfalso. apply Hne. congruence.
Qed.

Lemma foreign_keys_delete_category_call st cid u :
  foreign_keys st -> foreign_keys (store_of (delete_category_call st cid u)).
Proof.
  intros Hfk. pose proof (foreign_keys_detach_category st cid u Hfk) as Hd.
  unfold delete_category_call.
  destruct (owns_category st cid u) eqn:Eo; simpl.
  - destruct (category_referenced (detach_category st cid u) cid) eqn:Er; simpl; [exact Hd|].
    destruct (category_referenced_false _ _ Er) as [Ht Hs].
    destruct Hd as (H1 & H2 & H3 & H4).
    unfold foreign_keys, user_exists, category_exists, schedule_exists in *.
    unfold detach_category in *. simpl in *.
    split; [exact H1|]. split; [|split].
    + intros c Hin. apply filter_In in Hin. apply H2, Hin.
    + intros s Hin. destruct (H3 s Hin) as [Ha Hb]. split; [exact Ha|].
      apply (category_exists_filter st cid u); [exact Hb | apply Hs, Hin].
    + intros t Hin. destruct (H4 t Hin) as (Ha & Hb & Hc). split; [exact Ha|].
      split; [|exact Hc].
      apply (category_exists_filter st cid u); [exact Hb | apply Ht, Hin].
  - destruct Hd as (H1 & H2 & H3 & H4).
    unfold foreign_keys, user_exists, category_exists, schedule_exists in *.
    unfold detach_category in *. simpl in *.
    rewrite (owns_category_false st cid u Eo).
    split; [exact H1|]. split; [exact H2|]. split; [exact H3 | exact H4].
Qed.

Lemma foreign_keys_add_transaction st u d c desc amt conf sid :
  foreign_keys st ->
  user_exists st u = true -> category_exists st c = true -> schedule_exists st sid = true ->
  foreign_keys (fst (add_transaction st u d c desc amt conf sid)).
Proof.
  intros Hfk Hu Hc Hs. unfold add_transaction. cbn [fst].
  apply foreign_keys_transactions; [exact Hfk|].
  intros t Hin. apply in_app_or in Hin. destruct Hin as [Hin|[<-|[]]].
  - destruct Hfk as (_ & _ & _ & H4). apply H4, Hin.
  - simpl. auto.
Qed.

Lemma foreign_keys_update_transaction st tid u d c desc amt conf :
  foreign_keys st -> category_exists st c = true ->
  foreign_keys (update_transaction st tid u d c desc amt conf).
Proof.
  intros Hfk Hc. unfold update_transaction.
  apply foreign_keys_transactions; [exact Hfk|].
  intros t Hin. apply in_map_iff in Hin. destruct Hin as (x & <- & Hx).
  destruct Hfk as (_ & _ & _ & H4). destruct (H4 x Hx) as (Ha & Hb & Hd).
  destruct ((transaction_id x =? tid) && String.eqb (t_user_id x) u); simpl; auto.
Qed.

Lemma update_transaction_no_row st tid u d c desc amt conf :
  owns_transaction st tid u = false ->
  update_transaction st tid u d c desc amt conf = st.
Proof.
  intros H. unfold update_transaction.
  rewrite (map_id_In _ (transactions st)); [apply store_eta|].
  intros t Hin.
  destruct ((transaction_id t =? tid) && String.eqb (t_user_id t) u) eqn:E; [|reflexivity].
  exfalso. unfold owns_transaction in H.
  assert (E' : existsb (fun t => (transaction_id t =? tid) && String.eqb (t_user_id t) u)
                       (transactions st) = true)
    by (apply existsb_exists; exists t; auto).
  congruence.
Qed.

Lemma foreign_keys_update_transaction_call st tid u d c desc amt conf :
  foreign_keys st ->
  foreign_keys (store_of (update_transaction_call st tid u d c desc amt conf)).
Proof.
  intros Hfk. unfold update_transaction_call.
  destruct (owns_transaction st tid u) eqn:Eo; simpl.
  - destruct (category_exists st c) eqn:Ec; simpl; [|exact Hfk].
    apply foreign_keys_update_transaction; assumption.
  - rewrite update_transaction_no_row by exact Eo. exact Hfk.
Qed.

Lemma foreign_keys_delete_transaction st tid u :
  foreign_keys st -> foreign_keys (delete_transaction st tid u).
Proof.
  intros Hfk. unfold delete_transaction.
  apply foreign_keys_transactions; [exact Hfk|].
  intros t Hin. apply filter_In in Hin. destruct Hfk as (_ & _ & _ & H4). apply H4, Hin.
Qed.

Lemma foreign_keys_add_scheduled_transaction st u c desc amt f sd ed :
  foreign_keys st -> user_exists st u = true -> category_exists st c = true ->
  foreign_keys (fst (add_scheduled_transaction st u c desc amt f sd ed)).
Proof.
  intros (H1 & H2 & H3 & H4) Hu Hc.
  unfold foreign_keys, add_scheduled_transaction, user_exists, category_exists,
    schedule_exists in *; simpl.
  split; [exact H1|]. split; [exact H2|]. split.
  - intros s Hin. apply in_app_or in Hin. destruct Hin as [Hin|[<-|[]]]; [apply H3, Hin|].
    simpl. auto.
  - intros t Hin. destruct (H4 t Hin) as (Ha & Hb & Hd).
    split; [exact Ha|]. split; [exact Hb|].
    destruct (t_schedule_id t); [apply existsb_app_l, Hd | reflexivity].
Qed.

Lemma owns_schedule_false st sid u :
  owns_schedule st sid u = false ->
  filter (fun s => negb ((schedule_id s =? sid) && String.eqb (s_user_id s) u))
         (scheduled_transactions st) = scheduled_transactions st.
Proof.
  unfold owns_schedule. intros H. apply filter_all. intros s Hin.
  destruct ((schedule_id s =? sid) && String.eqb (s_user_id s) u) eqn:E; [|reflexivity].
  exfalso. assert (E' : existsb (fun s => (schedule_id s =? sid) && String.eqb (s_user_id s) u)
                                (scheduled_transactions st) = true)
    by (apply existsb_exists; exists s; auto).
  congruence.
Qed.

Lemma foreign_keys_delete_scheduled_transaction_call st sid u future :
  foreign_keys st ->
  foreign_keys (store_of (delete_scheduled_transaction_call st sid u future)).
Proof.
  intros Hfk. unfold delete_scheduled_transaction_call.
  destruct (owns_schedule st sid u) eqn:Eo; simpl.
  - destruct (schedule_referenced st sid) eqn:Er; simpl; [exact Hfk|].
    pose proof (schedule_not_referenced st sid Er) as Hno.
    pose proof (delete_unreferenced_schedule st sid u future Er) as Etx.
    destruct Hfk as (H1 & H2 & H3 & H4).
    unfold foreign_keys, user_exists, category_exists, schedule_exists in *.
    rewrite Etx. unfold delete_scheduled_transaction; simpl.
    split; [exact H1|]. split; [exact H2|]. split.
    + intros s Hin. apply filter_In in Hin. apply H3, Hin.
    + intros t Hin. destruct (H4 t Hin) as (Ha & Hb & Hc).
      split; [exact Ha|]. split; [exact Hb|].
      destruct (t_schedule_id t) as [s0|] eqn:Es; [|reflexivity].
      apply existsb_exists in Hc. destruct Hc as (x & Hx & Ex).
      apply existsb_exists. exists x. split; [|exact Ex].
      apply filter_In. split; [exact Hx|].
      apply Z.eqb_eq in Ex. destruct (schedule_id x =? sid) eqn:E; [|reflexivity].
      apply Z.eqb_eq in E. exfalso. apply (Hno t Hin). congruence.
  - destruct Hfk as (H1 & H2 & H3 & H4).
    unfold foreign_keys, user_exists, category_exists, schedule_exists in *.
    unfold delete_scheduled_transaction; simpl.
    rewrite (owns_schedule_false st sid u Eo).
    split; [exact H1|]. split; [exact H2|]. split; [exact H3|].
    intros t Hin. apply H4. destruct future; [apply filter_In in Hin; apply Hin | exact Hin].
Qed.

Lemma foreign_keys_update_user_settings st u B a :
  foreign_keys st -> foreign_keys (update_user_settings st u B a).
Proof.
  intros (H1 & H2 & H3 & H4).
  unfold foreign_keys, update_user_settings, user_exists, category_exists,
    schedule_exists in *; simpl.
  split; [|split; [exact H2|split; [exact H3 | exact H4]]].
  intros r Hin. apply in_map_iff in Hin. destruct Hin as (x & <- & Hx).
  destruct (String.eqb (us_user_id x) u); simpl; apply H1, Hx.
Qed.

Lemma foreign_keys_run_projection fuel st u h db :
  foreign_keys st -> run_projection fuel st u h = Some db -> foreign_keys db.
Proof.
  intros Hfk H. unfold run_projection in H. rewrite get_scheduled_transactions_fst in H.
  destruct (expand_all_appends _ _ _ _ _ _ H) as (Htab & new & Hnew & Hall).
  pose proof Htab as (Hu & Hs & Hc & Hr).
  destruct Hfk as (H1 & H2 & H3 & H4).
  unfold foreign_keys, user_exists, category_exists, schedule_exists in *.
  rewrite Hu, Hs, Hc, Hr, Hnew.
  split; [exact H1|]. split; [exact H2|]. split; [exact H3|].
  intros t Hin. apply in_app_or in Hin. destruct Hin as [Hin|Hin]; [apply H4, Hin|].
  destruct (Hall t Hin) as (sch & Hsch & (Eu & Es & Ec & _) & _).
  unfold schedules_of in Hsch. apply filter_In in Hsch. destruct Hsch as [Hsch Hown].
  apply String.eqb_eq in Hown. destruct (H3 sch Hsch) as [Ha Hb].
  rewrite Eu, Es, Ec. rewrite Hown in Ha. split; [exact Ha|]. split; [exact Hb|].
  apply existsb_exists. exists sch. split; [exact Hsch | apply Z.eqb_refl].
Qed.

(** * The two arithmetics *)

(** The days and the flags of the calendar do not depend on the
    arithmetic of the amounts. *)

Lemma binary64_find_group_map (mk : Date -> Binary64.DayGroup) d l :
  (forall x, Binary64.g_date (mk x) = x) ->
  find (fun g => date_eqb (Binary64.g_date g) d) (map mk l)
  = if existsb (date_eqb d) l then Some (mk d) else None.
Proof.
  intros Hmk. induction l as [|x l IH]; simpl; [reflexivity|].
  rewrite Hmk. destruct (date_eqb x d) eqn:E.
  - apply date_eqb_eq in E. subst x. rewrite date_eqb_refl. reflexivity.
  - assert (E' : date_eqb d x = false).
    { apply date_eqb_neq. apply date_eqb_neq in E. congruence. }
    rewrite E'. simpl. exact IH.
Qed.

Lemma binary64_merge_day_flags df d :
  Binary64.g_date (Binary64.merge_day (Binary64.daily_summary df) d)
  = g_date (merge_day (daily_summary df) d) /\
  Binary64.g_is_actual (Binary64.merge_day (Binary64.daily_summary df) d)
  = g_is_actual (merge_day (daily_summary df) d).
Proof.
  unfold Binary64.merge_day, Binary64.daily_summary, merge_day, daily_summary.
  destruct df as [|t0 df]; [split; reflexivity|].
  rewrite binary64_find_group_map by reflexivity.
  rewrite find_group_map by reflexivity.
  destruct (existsb _ _); split; reflexivity.
Qed.

Lemma binary64_cumsum_from_length acc l :
  List.length (Binary64.cumsum_from acc l) = List.length l.
Proof.
  revert acc. induction l as [|x l IH]; intros acc; simpl; [reflexivity|].
  rewrite IH. reflexivity.
Qed.

Lemma binary64_cumsum_length l : List.length (Binary64.cumsum l) = List.length l.
Proof.
  destruct l as [|x l]; simpl; [reflexivity|].
  rewrite binary64_cumsum_from_length. reflexivity.
Qed.

Lemma flags_of_rows (m : Date -> DayGroup) (m' : Date -> Binary64.DayGroup) vs ve L :
  (forall d, Binary64.g_date (m' d) = g_date (m d) /\
             Binary64.g_is_actual (m' d) = g_is_actual (m d)) ->
  forall (bal : list Z) (bal' : list spec_float),
    List.length bal = List.length L -> List.length bal' = List.length L ->
    map binary64_row_flags
      (map (fun gb =>
              Binary64.mkDaily (Binary64.g_date (fst gb)) (Binary64.g_credits (fst gb))
                (Binary64.g_debits (fst gb)) (Binary64.g_is_actual (fst gb))
                (Some (Binary64.g_net_change (fst gb))) (snd gb))
           (filter (fun gb => in_view vs ve (Binary64.g_date (fst gb)))
                   (combine (map m' L) bal')))
    = map row_flags
        (map (fun gb =>
                mkDaily (g_date (fst gb)) (g_credits (fst gb)) (g_debits (fst gb))
                        (g_is_actual (fst gb)) (Some (g_net_change (fst gb))) (snd gb))
             (filter (fun gb => in_view vs ve (g_date (fst gb)))
                     (combine (map m L) bal))).
Proof.
  intros Hm. induction L as [|d L IH]; intros bal bal' H1 H2; [reflexivity|].
  destruct bal as [|b bal]; [discriminate|]. destruct bal' as [|b' bal']; [discriminate|].
  simpl in H1, H2. injection H1 as H1. injection H2 as H2.
  destruct (Hm d) as [Ed Ea]. simpl. rewrite Ed.
  destruct (in_view vs ve (g_date (m d))); simpl.
  - rewrite (IH bal bal' H1 H2).
    unfold binary64_row_flags at 1, row_flags at 1. simpl. rewrite Ed, Ea. reflexivity.
  - apply IH; assumption.
Qed.

Lemma binary64_flags st u vs ve :
  map binary64_row_flags (Binary64.get_calendar_data st u vs ve)
  = map row_flags (get_calendar_data st u vs ve).
Proof.
  unfold Binary64.get_calendar_data, get_calendar_data.
  destruct (get_user_settings st u) as [[B a]|]; [|reflexivity].
  destruct (get_all_transactions_after st u a) as [|p l].
  - rewrite !map_map. reflexivity.
  - apply flags_of_rows.
    + intros d. apply binary64_merge_day_flags.
    + rewrite !length_map, cumsum_length, !length_map. reflexivity.
    + rewrite !length_map, binary64_cumsum_length, !length_map. reflexivity.
Qed.

(** * The sums of a day *)

Lemma credit_of_nonneg t : 0 <= credit_of t.
Proof. unfold credit_of. destruct (0 <? t_amount t) eqn:E; [apply Z.ltb_lt in E|]; lia. Qed.

Lemma debit_of_nonpos t : debit_of t <= 0.
Proof. unfold debit_of. destruct (t_amount t <=? 0) eqn:E; [apply Z.leb_le in E|]; lia. Qed.

Lemma sum_credits_nonneg l : 0 <= sum_Z (map credit_of l).
Proof.
  induction l as [|t l IH]; simpl; [lia|]. pose proof (credit_of_nonneg t). lia.
Qed.

Lemma sum_debits_nonpos l : sum_Z (map debit_of l) <= 0.
Proof.
  induction l as [|t l IH]; simpl; [lia|]. pose proof (debit_of_nonpos t). lia.
Qed.

(** The group that is merged onto a day, whatever the dates stored. *)
Lemma merge_day_group sel d :
  merge_day (daily_summary (order_by tx_before sel)) d
  = if in_span sel d then group_of sel d else mkGroup d 0 0 false 0.
Proof. rewrite merge_day_eq, in_span_order, group_of_order. reflexivity. Qed.

Lemma on_day_selected_eq st u a d :
  date_le a d -> on_day d (selected_after st u a) = occurrences_on st u d.
Proof.
  intros Ha. unfold on_day, selected_after, occurrences_on.
  rewrite <- filter_andb. apply filter_ext. intros t.
  destruct (String.eqb (t_user_id t) u); simpl; [|reflexivity].
  destruct (date_eqb (t_date t) d) eqn:Ed; [|apply andb_false_r].
  apply date_eqb_eq in Ed. rewrite Ed. unfold date_le in Ha. rewrite Ha. reflexivity.
Qed.

Lemma on_day_no_occurrence st u a d :
  occurrences_on st u d = [] -> on_day d (selected_after st u a) = [].
Proof.
  unfold on_day, selected_after, occurrences_on. rewrite !filter_nil_iff.
  intros H t Hin. apply filter_In in Hin. destruct Hin as [Hin Hb].
  specialize (H t Hin). apply andb_true_iff in Hb. destruct Hb as [Hu _].
  rewrite Hu in H. exact H.
Qed.

(** The columns of a row, in either path. *)
Lemma calendar_row_columns st u vs ve r :
  In r (get_calendar_data st u vs ve) ->
  exists B a,
    get_user_settings st u = Some (B, a) /\
    ((selected_after st u a = [] /\ r = mkDaily (date r) 0 0 true None B) \/
     (selected_after st u a <> [] /\
      let g := merge_day (daily_summary (order_by tx_before (selected_after st u a)))
                         (date r) in
      credits r = g_credits g /\ debits r = g_debits g /\
      net_change r = Some (g_net_change g))).
Proof.
  intros Hin. rewrite get_calendar_data_eq in Hin.
  destruct (get_user_settings st u) as [[B a]|]; [|contradiction].
  exists B, a. split; [reflexivity|].
  destruct (selected_after st u a) as [|t0 sel] eqn:Esel.
  - left. split; [reflexivity|].
    apply in_map_iff in Hin. destruct Hin as (d & <- & _). reflexivity.
  - right. split; [discriminate|]. rewrite <- Esel in *.
    apply calendar_rows_In in Hin; [|intros d; apply merge_day_date].
    destruct Hin as (pre & post & _ & _ & Hr).
    rewrite Hr. cbn [date credits debits net_change]. auto.
Qed.

Lemma calendar_day_sums st u vs ve B a r :
  get_user_settings st u = Some (B, a) -> dates_valid st ->
  In r (get_calendar_data st u vs ve) -> date_le a (date r) ->
  credits r = sum_Z (map credit_of (occurrences_on st u (date r))) /\
  debits r = sum_Z (map debit_of (occurrences_on st u (date r))).
Proof.
  intros Hs Hd Hin Ha.
  destruct (calendar_row_columns st u vs ve r Hin) as (B' & a' & Hs' & Hcase).
  rewrite Hs in Hs'. inversion Hs'; subst B' a'. clear Hs'.
  rewrite <- (on_day_selected_eq st u a (date r) Ha).
  destruct Hcase as [[Esel Hr]|[Hne (Hc & Hb & _)]].
  - rewrite Esel, Hr. simpl. auto.
  - rewrite Hc, Hb, merge_day_group.
    destruct (in_span (selected_after st u a) (date r)) eqn:E; [split; reflexivity|].
    rewrite (on_day_outside _ _ (selected_after_valid st u a Hd) E). split; reflexivity.
Qed.

Lemma occurrences_on_add st u d c desc amt conf sid x :
  x <> d ->
  occurrences_on (fst (add_transaction st u d c desc amt conf sid)) u x
  = occurrences_on st u x.
Proof.
  intros Hne. unfold occurrences_on, add_transaction. cbn [fst transactions].
  rewrite filter_app. cbn [filter t_user_id t_date].
  assert (E : date_eqb d x = false) by (apply date_eqb_neq; congruence).
  rewrite E, andb_false_r. apply app_nil_r.
Qed.

Lemma add_transaction_call_committed st u d c desc amt conf sid st' id :
  add_transaction_call st u d c desc amt conf sid = Committed st' id ->
  st' = fst (add_transaction st u d c desc amt conf sid) /\
  id = seq_transactions st + 1 /\
  user_exists st u = true /\ category_exists st c = true /\ schedule_exists st sid = true.
Proof.
  unfold add_transaction_call.
  destruct (user_exists st u), (category_exists st c), (schedule_exists st sid);
    simpl; intros H; inversion H; auto.
Qed.

(** * Further properties of the store *)

(** ** Users *)

(** X1. [get_or_create_user] is idempotent: once the user exists, a
    further call, on whatever day, leaves the store as it is; the anchor
    date of the first call is kept. *)
Theorem get_or_create_user_idempotent st today today' u :
  get_or_create_user (get_or_create_user st today u) today' u
  = get_or_create_user st today u.
Proof.
  assert (H : existsb (String.eqb u) (users (get_or_create_user st today u)) = true).
  { unfold get_or_create_user.
    destruct (existsb (String.eqb u) (users st)) eqn:E; [exact E|]. simpl.
    apply existsb_eqb_In. apply in_app_iff. right. left. reflexivity. }
  unfold get_or_create_user at 1. rewrite H. reflexivity.
Qed.

(** X2. A user who is not yet known and has no rows gets, from
    [get_or_create_user], the settings (0, today) and the five default
    categories under fresh keys, which [get_categories] lists by name;
    the rules and occurrences are not touched. *)
Theorem new_user_defaults st today u :
  existsb (String.eqb u) (users st) = false ->
  settings_of st u = [] -> categories_of st u = [] ->
  let st' := get_or_create_user st today u in
  let n := seq_categories st in
  get_user_settings st' u = Some (0, today) /\
  get_categories st' u
  = [ mkCategory (n + 3) u "Groceries" "debit"; mkCategory (n + 5) u "Other" "debit";
      mkCategory (n + 1) u "Paycheck" "credit"; mkCategory (n + 2) u "Rent" "debit";
      mkCategory (n + 4) u "Utilities" "debit" ] /\
  scheduled_transactions st' = scheduled_transactions st /\
  transactions st' = transactions st.
Proof.
  intros Hu Hs Hc st' n. subst st'. unfold get_or_create_user. rewrite Hu.
  split; [|split; [|split; reflexivity]].
  - unfold get_user_settings. rewrite find_filter. simpl.
    rewrite filter_app. fold (settings_of st u). rewrite Hs. simpl.
    rewrite String.eqb_refl. simpl. rewrite String.eqb_refl. reflexivity.
  - unfold get_categories. simpl. rewrite filter_app. fold (categories_of st u).
    rewrite Hc. simpl. rewrite String.eqb_refl. reflexivity.
Qed.

Lemma new_user_defaults_witness :
  get_user_settings (get_or_create_user empty_store (mkdate 2024 1 1) "u") "u"
  = Some (0, mkdate 2024 1 1) /\
  map c_name (get_categories (get_or_create_user empty_store (mkdate 2024 1 1) "u") "u")
  = ["Groceries"; "Other"; "Paycheck"; "Rent"; "Utilities"]%string.
Proof.
  destruct (new_user_defaults empty_store (mkdate 2024 1 1) "u"
              eq_refl eq_refl eq_refl) as (H1 & H2 & _).
  split; [exact H1|]. rewrite H2. reflexivity.
Defined.

(** ** Settings *)

(** X3. Reading the settings back after [update_user_settings] gives the
    pair just written when the user has a settings row, and nothing when
    the user has none: the update never inserts a row. *)
Theorem settings_round_trip st u B a :
  get_user_settings (update_user_settings st u B a) u
  = match get_user_settings st u with Some _ => Some (B, a) | None => None end.
Proof. apply get_user_settings_update. Qed.

(** X4. For a user without settings row, [update_user_settings] changes
    nothing at all, and the calendar of that user stays empty. *)
Theorem update_user_settings_without_row st u B a vs ve :
  get_user_settings st u = None ->
  update_user_settings st u B a = st /\
  get_calendar_data (update_user_settings st u B a) u vs ve = [].
Proof.
  intros H.
  assert (E : update_user_settings st u B a = st).
  { unfold update_user_settings. rewrite map_id_In; [apply store_eta|].
    intros r Hin. rewrite (get_user_settings_none st u r H Hin). reflexivity. }
  split; [exact E|]. rewrite E. unfold get_calendar_data. rewrite H. reflexivity.
Qed.

Lemma update_user_settings_without_row_witness :
  update_user_settings empty_store "u" 100000 (mkdate 2024 1 1) = empty_store /\
  get_calendar_data (update_user_settings empty_store "u" 100000 (mkdate 2024 1 1))
    "u" (mkdate 2024 1 1) (mkdate 2024 1 31) = [].
Proof.
  apply (update_user_settings_without_row empty_store "u" 100000 (mkdate 2024 1 1)).
  reflexivity.
Defined.

(** ** Categories *)

(** X5. [get_categories] returns the categories of the user, each as often
    as it is stored, in ascending order of their names. *)
Theorem get_categories_sorted st u :
  Permutation (get_categories st u) (categories_of st u) /\
  StronglySorted (fun a b => String.leb (c_name a) (c_name b) = true)
                 (get_categories st u).
Proof.
  split.
  - apply order_by_perm.
  - apply (order_by_sorted (fun a b => String.leb (c_name a) (c_name b))).
    + intros a b. apply String.leb_total.
    + intros a b c. apply string_leb_trans.
Qed.

(** X6. A call of [add_category] with a type other than ['credit'] and
    ['debit'], or for a user that is not stored, raises and stores
    nothing.  Otherwise the listing of the user is the former listing
    and the new category, whose key is the one after the last key handed
    out. *)
Theorem add_category_listed st u name type :
  match add_category_call st u name type with
  | Committed st' _ =>
      (type = "credit" \/ type = "debit")%string /\ user_exists st u = true /\
      Permutation (get_categories st' u)
                  (mkCategory (seq_categories st + 1) u name type :: get_categories st u)
  | IntegrityError st' =>
      st' = st /\
      ((type <> "credit" /\ type <> "debit")%string \/ user_exists st u = false)
  end.
Proof.
  unfold add_category_call.
  destruct (String.eqb type "credit") eqn:E1; simpl.
  - apply String.eqb_eq in E1.
    destruct (user_exists st u); simpl.
    + split; [left; exact E1|]. split; [reflexivity|]. apply get_categories_add_category.
    + split; [reflexivity | right; reflexivity].
  - apply String.eqb_neq in E1.
    destruct (String.eqb type "debit") eqn:E2; simpl.
    + apply String.eqb_eq in E2.
      destruct (user_exists st u); simpl.
      * split; [right; exact E2|]. split; [reflexivity|]. apply get_categories_add_category.
      * split; [reflexivity | right; reflexivity].
    + apply String.eqb_neq in E2. split; [reflexivity|]. left. split; assumption.
Qed.

(** X7. [delete_category] detaches and never deletes a rule or an
    occurrence: whether the call commits or raises, every rule and every
    occurrence is still there with all its other columns, no row of the
    user refers to the category any more, and a row that did not refer to
    it is the same row.  When the call commits, the category of the user
    is gone and, if there was one, no row refers to it.  The call raises
    exactly when the user has the category and a row of another user
    refers to it; the category then stays. *)
Theorem delete_category_detaches st cid u :
  let o := delete_category_call st cid u in
  let st' := store_of o in
  map tx_core (transactions st') = map tx_core (transactions st) /\
  map rule_core (scheduled_transactions st') = map rule_core (scheduled_transactions st) /\
  (forall t, In t (transactions st') -> t_user_id t = u -> t_category_id t <> Some cid) /\
  (forall s, In s (scheduled_transactions st') -> s_user_id s = u ->
             s_category_id s <> Some cid) /\
  (forall t, In t (transactions st) -> t_category_id t <> Some cid ->
             In t (transactions st')) /\
  match o with
  | Committed _ _ =>
      (forall c, In c (categories st') -> ~ (category_id c = cid /\ c_user_id c = u)) /\
      (owns_category st cid u = true -> category_referenced st' cid = false)
  | IntegrityError _ =>
      categories st' = categories st /\ owns_category st cid u = true /\
      exists v, v <> u /\
        ((exists t, In t (transactions st) /\ t_user_id t = v /\
                    t_category_id t = Some cid) \/
         (exists s, In s (scheduled_transactions st) /\ s_user_id s = v /\
                    s_category_id s = Some cid))
  end.
Proof.
  intros o st'. subst o st'.
  destruct (delete_category_rows st cid u) as (H1 & H2 & H3 & H4 & H5).
  unfold delete_category_call.
  destruct (owns_category st cid u) eqn:Eo; simpl.
  - destruct (category_referenced (detach_category st cid u) cid) eqn:Er; simpl.
    + split; [exact H1|]. split; [exact H2|]. split; [exact H3|]. split; [exact H4|].
      split; [exact H5|]. split; [reflexivity|]. split; [reflexivity|].
      apply category_referenced_detached, Er.
    + split; [exact H1|]. split; [exact H2|]. split; [exact H3|]. split; [exact H4|].
      split; [exact H5|]. split; [intros c; apply delete_category_gone|].
      intros _. exact Er.
  - split; [exact H1|]. split; [exact H2|]. split; [exact H3|]. split; [exact H4|].
    split; [exact H5|]. split; [intros c; apply delete_category_gone | discriminate].
Qed.

(** ** Keys *)

(** X8. Every operation of the store, and the projection, keeps the keys
    of the three keyed tables unique and not above the last key handed
    out, so that the key returned by an insert names the new row only. *)
Theorem primary_keys_preserved st :
  primary_keys st ->
  (forall today u, primary_keys (get_or_create_user st today u)) /\
  (forall u name type, primary_keys (add_category st u name type)) /\
  (forall cid u, primary_keys (delete_category st cid u)) /\
  (forall u d c desc amt conf sid,
      primary_keys (fst (add_transaction st u d c desc amt conf sid))) /\
  (forall tid u d c desc amt conf,
      primary_keys (update_transaction st tid u d c desc amt conf)) /\
  (forall tid u, primary_keys (delete_transaction st tid u)) /\
  (forall u c desc amt f sd ed,
      primary_keys (fst (add_scheduled_transaction st u c desc amt f sd ed))) /\
  (forall sid u future, primary_keys (delete_scheduled_transaction st sid u future)) /\
  (forall u B a, primary_keys (update_user_settings st u B a)) /\
  (forall fuel u e db, run_projection fuel st u e = Some db -> primary_keys db).
Proof.
  intros Hk.
  split; [intros; apply primary_keys_get_or_create_user; exact Hk|].
  split; [intros; apply primary_keys_add_category; exact Hk|].
  split; [intros; apply primary_keys_delete_category; exact Hk|].
  split; [intros; apply primary_keys_add_transaction; exact Hk|].
  split; [intros; apply primary_keys_update_transaction; exact Hk|].
  split; [intros; apply primary_keys_delete_transaction; exact Hk|].
  split; [intros; apply primary_keys_add_scheduled_transaction; exact Hk|].
  split; [intros; apply primary_keys_delete_scheduled_transaction; exact Hk|].
  split; [intros; apply primary_keys_update_user_settings; exact Hk|].
  intros fuel u e db H. exact (primary_keys_run_projection fuel st u e db Hk H).
Qed.

Lemma primary_keys_preserved_witness :
  primary_keys empty_store /\
  primary_keys (get_or_create_user empty_store (mkdate 2024 1 1) "u").
Proof.
  split; [exact primary_keys_empty|].
  exact (proj1 (primary_keys_preserved empty_store primary_keys_empty)
               (mkdate 2024 1 1) "u"%string).
Defined.

(** ** Occurrences *)

(** X9. A call of [add_transaction] for a user, a category or a rule
    that is not stored raises and stores nothing.  Otherwise the day
    listing is the former listing of that day followed by the new
    occurrence, joined with its category; the key returned is the key of
    the new row; the listing of any other day or user is unchanged. *)
Theorem add_transaction_listed st u d c desc amt conf sid :
  match add_transaction_call st u d c desc amt conf sid with
  | Committed st' id =>
      user_exists st u = true /\ category_exists st c = true /\
      schedule_exists st sid = true /\
      id = seq_transactions st + 1 /\
      get_transactions_for_day st' u d
      = get_transactions_for_day st u d
        ++ [(mkTransaction id u sid c d desc amt conf, join_category st c)] /\
      (forall v d', (v, d') <> (u, d) ->
         get_transactions_for_day st' v d' = get_transactions_for_day st v d')
  | IntegrityError st' =>
      st' = st /\
      (user_exists st u = false \/ category_exists st c = false \/
       schedule_exists st sid = false)
  end.
Proof.
  destruct (get_transactions_for_day_add st u d c desc amt conf sid) as [H1 H2].
  unfold add_transaction_call.
  destruct (user_exists st u); simpl; [|auto].
  destruct (category_exists st c); simpl; [|auto].
  destruct (schedule_exists st sid); simpl; [|auto].
  repeat (split; [reflexivity|]). split; [exact H1 | exact H2].
Qed.

(** X10. On a store with proper keys, deleting the occurrence just
    inserted, under the key that the insert returned, restores the table
    of occurrences. *)
Theorem add_then_delete_transaction st u d c desc amt conf sid :
  primary_keys st ->
  let st' := fst (add_transaction st u d c desc amt conf sid) in
  let id := snd (add_transaction st u d c desc amt conf sid) in
  transactions (delete_transaction st' id u) = transactions st.
Proof.
  intros (_ & _ & _ & _ & _ & Hts) st' id. subst st' id.
  unfold delete_transaction, add_transaction; simpl.
  rewrite filter_app. simpl. rewrite Z.eqb_refl, String.eqb_refl. simpl.
  rewrite app_nil_r. apply filter_all. intros t Hin. apply Hts in Hin.
  destruct (transaction_id t =? seq_transactions st + 1) eqn:E; [|reflexivity].
  apply Z.eqb_eq in E. lia.
Qed.

Lemma add_then_delete_transaction_witness :
  primary_keys anchored_store /\
  transactions
    (delete_transaction
       (fst (add_transaction anchored_store "u" (mkdate 2024 1 2) None "refund" 5000 1 None))
       (snd (add_transaction anchored_store "u" (mkdate 2024 1 2) None "refund" 5000 1 None))
       "u")
  = transactions anchored_store.
Proof.
  assert (H : primary_keys anchored_store).
  { apply primary_keys_update_user_settings, primary_keys_get_or_create_user,
      primary_keys_empty. }
  split; [exact H|].
  exact (add_then_delete_transaction anchored_store "u" (mkdate 2024 1 2) None
           "refund" 5000 1 None H).
Defined.

(** X11. [update_transaction] and [delete_transaction] act only on a row
    that has the given key and belongs to the given user: when there is no
    such row, the store is unchanged. *)
Theorem foreign_transaction_untouched st tid u d c desc amt conf :
  (forall t, In t (transactions st) -> transaction_id t = tid -> t_user_id t <> u) ->
  update_transaction st tid u d c desc amt conf = st /\
  delete_transaction st tid u = st.
Proof.
  intros H.
  assert (Hb : forall t, In t (transactions st) ->
                 (transaction_id t =? tid) && String.eqb (t_user_id t) u = false).
  { intros t Hin. destruct (transaction_id t =? tid) eqn:E; [|reflexivity].
    apply Z.eqb_eq in E. simpl. apply String.eqb_neq. apply H; assumption. }
  split.
  - unfold update_transaction. rewrite map_id_In; [apply store_eta|].
    intros t Hin. rewrite (Hb t Hin). reflexivity.
  - unfold delete_transaction. rewrite filter_all; [apply store_eta|].
    intros t Hin. rewrite (Hb t Hin). reflexivity.
Qed.

Lemma foreign_transaction_untouched_witness :
  update_transaction one_confirmed_store 1 "v" (mkdate 2024 1 9) None "mine" 1 1
  = one_confirmed_store /\
  delete_transaction one_confirmed_store 1 "v" = one_confirmed_store.
Proof.
  apply (foreign_transaction_untouched one_confirmed_store 1 "v").
  intros t [<-|[]] _. simpl. discriminate.
Defined.

(** X12. [update_transaction] keeps the key, the owner and the rule of
    every occurrence, and the number of occurrences: an edited occurrence
    still counts as generated by its rule. *)
Theorem update_transaction_keeps_identity st tid u d c desc amt conf sid :
  let st' := update_transaction st tid u d c desc amt conf in
  map tx_identity (transactions st') = map tx_identity (transactions st) /\
  List.length (rule_rows st' u sid) = List.length (rule_rows st u sid).
Proof.
  intros st'. subst st'.
  set (f := fun t => if (transaction_id t =? tid) && String.eqb (t_user_id t) u
                     then mkTransaction (transaction_id t) (t_user_id t) (t_schedule_id t)
                                        c d desc amt conf
                     else t).
  assert (Hf : forall t, tx_identity (f t) = tx_identity t).
  { intros t. unfold f. destruct (_ && _); reflexivity. }
  split.
  - unfold update_transaction; simpl. rewrite map_map. apply map_ext. exact Hf.
  - unfold rule_rows, update_transaction; simpl. fold f.
    rewrite map_filter_comm, length_map. f_equal. apply filter_ext.
    intros t. pose proof (Hf t) as E. unfold tx_identity in E.
    inversion E as [[E1 E2 E3]]. rewrite E2, E3. reflexivity.
Qed.

(** X13. [get_all_transactions_after] returns the occurrences of the user
    dated on or after the given date, each as often as it is stored, in
    ascending order of date and, on one date, of key. *)
Theorem get_all_transactions_after_sorted st u a :
  Permutation (map fst (get_all_transactions_after st u a)) (selected_after st u a) /\
  StronglySorted (fun x y => tx_before x y = true)
                 (map fst (get_all_transactions_after st u a)) /\
  StronglySorted (fun x y => date_le (t_date (fst x)) (t_date (fst y)))
                 (get_all_transactions_after st u a).
Proof.
  assert (Hs : StronglySorted (fun x y => tx_before x y = true)
                 (order_by tx_before (selected_after st u a))).
  { apply order_by_sorted; [apply tx_before_total | apply tx_before_trans]. }
  split; [rewrite get_all_transactions_after_fst; apply order_by_perm|].
  split; [rewrite get_all_transactions_after_fst; exact Hs|].
  unfold get_all_transactions_after. fold (selected_after st u a).
  induction Hs as [|x l Hl IH Hx]; simpl; constructor; [exact IH|].
  apply Forall_forall. intros y Hy. apply in_map_iff in Hy.
  destruct Hy as (t & <- & Ht). simpl. apply tx_before_date.
  rewrite Forall_forall in Hx. apply Hx. exact Ht.
Qed.

(** ** Rules *)

(** X14. [delete_scheduled_transaction] deletes the rule before the
    occurrences, so the call raises, and deletes nothing, whenever the
    user has the rule and an occurrence of whatever user refers to it.
    When the call commits, the user does not have the rule any more; if
    the user had it, no occurrence referred to it and none was deleted;
    without [delete_future] no occurrence is deleted; and in any case
    only unconfirmed occurrences of the user under that rule key are
    deleted. *)
Theorem delete_scheduled_transaction_selective st sid u future :
  match delete_scheduled_transaction_call st sid u future with
  | IntegrityError st' =>
      st' = st /\ owns_schedule st sid u = true /\
      exists t, In t (transactions st) /\ t_schedule_id t = Some sid
  | Committed st' _ =>
      owns_schedule st' sid u = false /\
      (owns_schedule st sid u = true ->
         transactions st' = transactions st /\
         forall t, In t (transactions st) -> t_schedule_id t <> Some sid) /\
      (future = false -> transactions st' = transactions st) /\
      (forall t, In t (transactions st) ->
         (t_schedule_id t <> Some sid \/ t_user_id t <> u \/ is_confirmed t <> 0) ->
         In t (transactions st'))
  end.
Proof.
  unfold delete_scheduled_transaction_call.
  destruct (owns_schedule st sid u) eqn:Eo; simpl.
  - destruct (schedule_referenced st sid) eqn:Er; simpl.
    + split; [reflexivity|]. split; [reflexivity|].
      unfold schedule_referenced in Er. apply existsb_exists in Er.
      destruct Er as (t & Hin & Hs). exists t. split; [exact Hin|].
      apply opt_Z_eqb_eq, Hs.
    + split; [apply delete_scheduled_transaction_rule_gone|].
      split; [intros _; split;
              [apply delete_unreferenced_schedule, Er | apply schedule_not_referenced, Er]|].
      split; [intros ->; reflexivity|].
      intros t. apply delete_scheduled_transaction_keeps.
  - split; [apply delete_scheduled_transaction_rule_gone|].
    split; [discriminate|].
    split; [intros ->; reflexivity|].
    intros t. apply delete_scheduled_transaction_keeps.
Qed.

(** ** Referential integrity *)

(** X28. The foreign keys hold on every store that the calls produce:
    they hold on the empty store, and every call keeps them, whether it
    commits or raises, and so does a projection that returns. *)
Theorem foreign_keys_preserved st :
  foreign_keys st ->
  (forall today u, foreign_keys (get_or_create_user st today u)) /\
  (forall u name type, foreign_keys (store_of (add_category_call st u name type))) /\
  (forall cid u, foreign_keys (store_of (delete_category_call st cid u))) /\
  (forall u d c desc amt conf sid,
      foreign_keys (store_of (add_transaction_call st u d c desc amt conf sid))) /\
  (forall tid u d c desc amt conf,
      foreign_keys (store_of (update_transaction_call st tid u d c desc amt conf))) /\
  (forall tid u, foreign_keys (delete_transaction st tid u)) /\
  (forall u c desc amt f sd ed,
      foreign_keys (store_of (add_scheduled_transaction_call st u c desc amt f sd ed))) /\
  (forall sid u future,
      foreign_keys (store_of (delete_scheduled_transaction_call st sid u future))) /\
  (forall u B a, foreign_keys (update_user_settings st u B a)) /\
  (forall fuel u h db, run_projection fuel st u h = Some db -> foreign_keys db).
Proof.
  intros Hfk.
  split; [intros; apply foreign_keys_get_or_create_user, Hfk|].
  split.
  { intros u name type. unfold add_category_call.
    destruct (String.eqb type "credit" || String.eqb type "debit"); simpl; [|exact Hfk].
    destruct (user_exists st u) eqn:Eu; simpl; [|exact Hfk].
    apply foreign_keys_add_category; assumption. }
  split; [intros; apply foreign_keys_delete_category_call, Hfk|].
  split.
  { intros u d c desc amt conf sid. unfold add_transaction_call.
    destruct (user_exists st u) eqn:Eu; simpl; [|exact Hfk].
    destruct (category_exists st c) eqn:Ec; simpl; [|exact Hfk].
    destruct (schedule_exists st sid) eqn:Es; simpl; [|exact Hfk].
    apply foreign_keys_add_transaction; assumption. }
  split; [intros; apply foreign_keys_update_transaction_call, Hfk|].
  split; [intros; apply foreign_keys_delete_transaction, Hfk|].
  split.
  { intros u c desc amt f sd ed. unfold add_scheduled_transaction_call.
    destruct (user_exists st u) eqn:Eu; simpl; [|exact Hfk].
    destruct (category_exists st c) eqn:Ec; simpl; [|exact Hfk].
    apply foreign_keys_add_scheduled_transaction; assumption. }
  split; [intros; apply foreign_keys_delete_scheduled_transaction_call, Hfk|].
  split; [intros; apply foreign_keys_update_user_settings, Hfk|].
  intros fuel u h db. apply foreign_keys_run_projection, Hfk.
Qed.

Lemma foreign_keys_preserved_witness :
  foreign_keys empty_store /\
  foreign_keys
    (store_of (add_transaction_call
                 (get_or_create_user empty_store (mkdate 2024 1 1) "u")
                 "u" (mkdate 2024 1 2) (Some 1) "pay" 250000 1 None)).
Proof.
  split; [exact foreign_keys_empty|].
  apply (proj1 (proj2 (proj2 (proj2
           (foreign_keys_preserved (get_or_create_user empty_store (mkdate 2024 1 1) "u")
              (proj1 (foreign_keys_preserved empty_store foreign_keys_empty)
                     (mkdate 2024 1 1) "u"%string)))))).
Defined.

(** * Further properties of the projection *)

(** X15. A projection that returns has only appended occurrences: the
    users, settings, categories and rules are as before, the occurrences
    stored before are still there, in place, and every new occurrence is
    an unconfirmed occurrence of the user that carries the key, category,
    description and amount of one of the user's rules and is dated from
    the start date of that rule up to the horizon and up to the end date
    of the rule, if it has one. *)
Theorem run_projection_appends fuel st u h st1 :
  run_projection fuel st u h = Some st1 ->
  same_tables st1 st /\
  exists new,
    transactions st1 = transactions st ++ new /\
    forall t, In t new ->
      exists sch, In sch (schedules_of st u) /\ generated_by u sch t /\
        date_le (s_start_date sch) (t_date t) /\ date_le (t_date t) h /\
        (forall e, s_end_date sch = Some e -> date_le (t_date t) e).
Proof.
  unfold run_projection. rewrite get_scheduled_transactions_fst.
  apply expand_all_appends.
Qed.

Lemma run_projection_appends_witness :
  run_projection 10 scenario_store "u" (mkdate 2024 4 1) = Some projected_store /\
  same_tables projected_store scenario_store /\
  exists new,
    transactions projected_store = transactions scenario_store ++ new /\
    forall t, In t new ->
      exists sch, In sch (schedules_of scenario_store "u") /\ generated_by "u" sch t /\
        date_le (s_start_date sch) (t_date t) /\ date_le (t_date t) (mkdate 2024 4 1) /\
        (forall e, s_end_date sch = Some e -> date_le (t_date t) e).
Proof.
  assert (H : run_projection 10 scenario_store "u" (mkdate 2024 4 1) = Some projected_store)
    by (vm_compute; reflexivity).
  split; [exact H|].
  exact (run_projection_appends 10 scenario_store "u" (mkdate 2024 4 1) projected_store H).
Defined.

(** X16. A rule whose start date is after the horizon, or after its own
    end date, gets no occurrence: the expansion leaves the store as it
    is, and it does return when the frequency is one of the five. *)
Theorem rule_out_of_range_writes_nothing st u sch h :
  date_lt h (s_start_date sch)
  \/ (exists e, s_end_date sch = Some e /\ date_lt e (s_start_date sch)) ->
  (forall fuel st1, expand_schedule fuel st u sch h = Some st1 -> st1 = st) /\
  (known_frequency (frequency sch) = true ->
   valid_date (s_start_date sch) = true -> dates_valid st ->
   exists fuel, expand_schedule fuel st u sch h = Some st).
Proof.
  intros Hout.
  assert (Hend : date_lt (loop_end sch h) (s_start_date sch)).
  { destruct (loop_end_le sch h) as [Hh He].
    destruct Hout as [Hlt|(e & Hsome & Hlt)].
    - eapply date_le_lt_trans; eassumption.
    - eapply date_le_lt_trans; [apply He, Hsome | exact Hlt]. }
  assert (Hsame : forall fuel st1, expand_schedule fuel st u sch h = Some st1 -> st1 = st).
  { intros fuel st1 H. unfold expand_schedule in H.
    apply (while_loop_before_start _ _ _ _ _ _ Hend) in H. exact H. }
  split; [exact Hsame|].
  intros Hf Hv Hd.
  destruct (expand_schedule_terminates st u sch h Hf Hv Hd) as (fuel & st1 & H).
  exists fuel. rewrite H. f_equal. apply (Hsame fuel). exact H.
Qed.

Lemma rule_out_of_range_writes_nothing_witness :
  date_lt (mkdate 2024 2 1) (s_start_date ended_rule) /\
  exists fuel,
    expand_schedule fuel anchored_store "u" ended_rule (mkdate 2026 1 1)
    = Some anchored_store.
Proof.
  split; [reflexivity|].
  apply (proj2 (rule_out_of_range_writes_nothing anchored_store "u" ended_rule
                  (mkdate 2026 1 1)
                  (or_intror (ex_intro _ (mkdate 2024 2 1) (conj eq_refl eq_refl))))).
  - reflexivity.
  - reflexivity.
  - intros t [].
Defined.

(** X17. Expanding a rule up to a horizon and then, on the store this
    left, up to a later horizon gives the store that expanding it up to
    the later horizon at once gives. *)
Theorem projection_horizon_extension f1 st u sch h1 h2 st1 st2 :
  date_le h1 h2 ->
  expand_schedule f1 st u sch h1 = Some st1 ->
  (expands_to st1 u sch h2 st2 <-> expands_to st u sch h2 st2).
Proof. apply expand_schedule_extend. Qed.

Lemma projection_horizon_extension_witness :
  expand_schedule 10 scenario_store "u" scenario_rule (mkdate 2024 2 15)
  = Some partly_projected_store /\
  (expands_to partly_projected_store "u" scenario_rule (mkdate 2024 4 1) projected_store
   <-> expands_to scenario_store "u" scenario_rule (mkdate 2024 4 1) projected_store).
Proof.
  assert (H : expand_schedule 10 scenario_store "u" scenario_rule (mkdate 2024 2 15)
              = Some partly_projected_store) by (vm_compute; reflexivity).
  split; [exact H|].
  exact (projection_horizon_extension 10 scenario_store "u" scenario_rule
           (mkdate 2024 2 15) (mkdate 2024 4 1) partly_projected_store projected_store
           eq_refl H).
Defined.

(** X18. For a rule whose frequency is one of the five, the dates that an
    expansion adds are strictly increasing and all later than every date
    the rule already has an occurrence on; so no date of the rule is
    generated twice. *)
Theorem generated_dates_increase fuel st u sch h st1 :
  known_frequency (frequency sch) = true ->
  expand_schedule fuel st u sch h = Some st1 ->
  exists ds,
    map t_date (rule_rows st1 u (schedule_id sch))
    = map t_date (rule_rows st u (schedule_id sch)) ++ ds /\
    StronglySorted date_lt ds /\
    (forall d x, In d ds -> In x (rule_rows st u (schedule_id sch)) ->
                 date_lt (t_date x) d) /\
    (NoDup (map t_date (rule_rows st u (schedule_id sch))) ->
     NoDup (map t_date (rule_rows st1 u (schedule_id sch)))).
Proof.
  intros Hf H. unfold expand_schedule in H.
  destruct (while_loop_dates _ _ _ _ _ _ Hf H) as (ds & Hds & Hsorted & Hge).
  cbn [conn current_date] in Hds, Hge.
  assert (Hlater : forall d x, In d ds -> In x (rule_rows st u (schedule_id sch)) ->
                               date_lt (t_date x) d).
  { intros d x Hd Hx. eapply date_lt_le_trans; [|apply Hge, Hd].
    apply resume_after_rows; assumption. }
  exists ds. split; [exact Hds|]. split; [exact Hsorted|]. split; [exact Hlater|].
  intros Hnd. rewrite Hds. apply NoDup_app.
  - exact Hnd.
  - apply sorted_date_NoDup. exact Hsorted.
  - intros d Hold Hnew. apply in_map_iff in Hold. destruct Hold as (x & <- & Hx).
    apply (date_lt_irrefl (t_date x)). apply (Hlater _ x Hnew Hx).
Qed.

Lemma generated_dates_increase_witness :
  exists ds,
    map t_date (rule_rows projected_store "u" 1)
    = map t_date (rule_rows partly_projected_store "u" 1) ++ ds /\
    StronglySorted date_lt ds /\
    (forall d x, In d ds -> In x (rule_rows partly_projected_store "u" 1) ->
                 date_lt (t_date x) d) /\
    (NoDup (map t_date (rule_rows partly_projected_store "u" 1)) ->
     NoDup (map t_date (rule_rows projected_store "u" 1))).
Proof.
  assert (H : expand_schedule 10 partly_projected_store "u" scenario_rule (mkdate 2024 4 1)
              = Some projected_store) by (vm_compute; reflexivity).
  exact (generated_dates_increase 10 partly_projected_store "u" scenario_rule
           (mkdate 2024 4 1) projected_store eq_refl H).
Defined.

(** X19. The expansion resumes after the latest stored occurrence of the
    rule and never looks behind it: on a store that is up to date for a
    rule, deleting an occurrence while a latest occurrence of the rule
    stays leaves the store up to date, so the deleted occurrence is not
    written again. *)
Theorem deleted_occurrence_not_refilled fuel st u sch h tid v t' :
  expand_schedule fuel st u sch h = Some st ->
  In t' (rule_rows st u (schedule_id sch)) -> transaction_id t' <> tid ->
  (forall x, In x (rule_rows st u (schedule_id sch)) -> date_le (t_date x) (t_date t')) ->
  expand_schedule fuel (delete_transaction st tid v) u sch h
  = Some (delete_transaction st tid v).
Proof.
  intros H Hin Hne Hmax. unfold expand_schedule in *.
  assert (E : resume_date (delete_transaction st tid v) u sch = resume_date st u sch).
  { unfold resume_date.
    rewrite (last_generated_delete st tid v u (schedule_id sch) t' Hin Hne Hmax).
    reflexivity. }
  rewrite E. apply (while_loop_noop _ _ _ _ _ st). exact H.
Qed.

Lemma deleted_occurrence_not_refilled_witness :
  expand_schedule 10 (delete_transaction projected_store 2 "u") "u" scenario_rule
    (mkdate 2024 4 1)
  = Some (delete_transaction projected_store 2 "u").
Proof.
  apply (deleted_occurrence_not_refilled 10 projected_store "u" scenario_rule
           (mkdate 2024 4 1) 2 "u"
           (mkTransaction 3 "u" (Some 1) None (mkdate 2024 4 1) "rent" (-10000) 0)).
  - vm_compute. reflexivity.
  - vm_compute. right. right. left. reflexivity.
  - simpl. lia.
  - intros x Hx. vm_compute in Hx.
    destruct Hx as [<-|[<-|[<-|[]]]]; reflexivity.
Defined.

(** X20. Once a call of [delete_scheduled_transaction] has committed,
    the projection writes nothing more under that rule key: the
    occurrences stored under it are the same after any later projection,
    and there are none if the user had the rule. *)
Theorem deleted_rule_not_projected fuel st sid u future st' h st1 :
  delete_scheduled_transaction_call st sid u future = Committed st' tt ->
  run_projection fuel st' u h = Some st1 ->
  rule_rows st1 u sid = rule_rows st' u sid /\
  (owns_schedule st sid u = true -> rule_rows st1 u sid = []).
Proof.
  unfold delete_scheduled_transaction_call.
  destruct (owns_schedule st sid u) eqn:Eo; simpl.
  - destruct (schedule_referenced st sid) eqn:Er; simpl; [discriminate|].
    intros H Hrun. inversion H; subst st'. clear H.
    rewrite (deleted_rule_rows _ _ _ _ _ _ _ Hrun).
    split; [reflexivity|]. intros _.
    unfold rule_rows. rewrite (delete_unreferenced_schedule st sid u future Er).
    apply (rule_rows_unreferenced st u sid Er).
  - intros H Hrun. inversion H; subst st'. clear H.
    split; [apply (deleted_rule_rows _ _ _ _ _ _ _ Hrun) | discriminate].
Qed.

Lemma deleted_rule_not_projected_witness :
  delete_scheduled_transaction_call two_rule_store 1 "u" true
  = Committed rule_deleted_store tt /\
  run_projection 20 rule_deleted_store "u" (mkdate 2024 4 1) = Some rule_deleted_projected /\
  List.length (transactions rule_deleted_projected) = 4%nat /\
  rule_rows rule_deleted_projected "u" 1 = rule_rows rule_deleted_store "u" 1.
Proof.
  assert (H1 : delete_scheduled_transaction_call two_rule_store 1 "u" true
               = Committed rule_deleted_store tt) by (vm_compute; reflexivity).
  assert (H2 : run_projection 20 rule_deleted_store "u" (mkdate 2024 4 1)
               = Some rule_deleted_projected) by (vm_compute; reflexivity).
  split; [exact H1|]. split; [exact H2|]. split; [vm_compute; reflexivity|].
  exact (proj1 (deleted_rule_not_projected 20 two_rule_store 1 "u" true
                  rule_deleted_store (mkdate 2024 4 1) rule_deleted_projected H1 H2)).
Defined.

(** X29. On a store whose foreign keys hold, no insert of the projection
    is refused: the run with the inserts under the constraints of the
    schema is the run of [run_projection] as modelled above, and it
    raises nothing. *)
Theorem projection_inserts_accepted fuel st u h :
  foreign_keys st ->
  run_projection_call fuel st u h
  = option_map (fun db => Committed db tt) (run_projection fuel st u h).
Proof. apply run_projection_call_accepts. Qed.

Lemma scenario_store_foreign_keys : foreign_keys scenario_store.
Proof.
  unfold scenario_store, anchored_store.
  apply foreign_keys_add_scheduled_transaction; [|reflexivity|reflexivity].
  apply foreign_keys_update_user_settings, foreign_keys_get_or_create_user,
    foreign_keys_empty.
Qed.

Lemma projection_inserts_accepted_witness :
  run_projection_call 10 scenario_store "u" (mkdate 2024 4 1)
  = Some (Committed projected_store tt).
Proof.
  rewrite (projection_inserts_accepted 10 scenario_store "u" (mkdate 2024 4 1)
             scenario_store_foreign_keys).
  vm_compute. reflexivity.
Defined.

(** * Further properties of the calendar ([get_calendar_data]) *)

(** ** The rows, day by day *)

(** X21. In every row of the calendar the credits are not negative and
    the debits are not positive, the net change, where the row has one,
    is their sum, and on a day without occurrences of the user both are
    zero. *)
Theorem credits_and_debits_signed st u vs ve r :
  In r (get_calendar_data st u vs ve) ->
  0 <= credits r /\ debits r <= 0 /\
  (forall x, net_change r = Some x -> x = credits r + debits r) /\
  (occurrences_on st u (date r) = [] -> credits r = 0 /\ debits r = 0).
Proof.
  intros Hin.
  destruct (calendar_row_columns st u vs ve r Hin) as (B & a & Hs & Hcase).
  destruct Hcase as [[Esel Hr]|[Hne (Hc & Hb & Hn)]].
  - rewrite Hr. simpl. split; [lia|]. split; [lia|]. split; [discriminate | auto].
  - rewrite merge_day_group in Hc, Hb, Hn.
    destruct (in_span (selected_after st u a) (date r)).
    + unfold group_of in Hc, Hb, Hn. simpl in Hc, Hb, Hn. rewrite Hc, Hb, Hn.
      split; [apply sum_credits_nonneg|]. split; [apply sum_debits_nonpos|].
      split; [intros x Hx; inversion Hx; reflexivity|].
      intros Hnone. rewrite (on_day_no_occurrence st u a (date r) Hnone). auto.
    + simpl in Hc, Hb, Hn. rewrite Hc, Hb, Hn.
      split; [lia|]. split; [lia|].
      split; [intros x Hx; inversion Hx; reflexivity | auto].
Qed.

Lemma credits_and_debits_signed_witness :
  0 <= credits (mkDaily (mkdate 2024 1 2) 5000 0 true (Some 5000) 105000) /\
  debits (mkDaily (mkdate 2024 1 2) 5000 0 true (Some 5000) 105000) <= 0 /\
  (forall x, net_change (mkDaily (mkdate 2024 1 2) 5000 0 true (Some 5000) 105000)
             = Some x ->
             x = credits (mkDaily (mkdate 2024 1 2) 5000 0 true (Some 5000) 105000)
                 + debits (mkDaily (mkdate 2024 1 2) 5000 0 true (Some 5000) 105000)) /\
  (occurrences_on one_confirmed_store "u"
     (date (mkDaily (mkdate 2024 1 2) 5000 0 true (Some 5000) 105000)) = [] ->
   credits (mkDaily (mkdate 2024 1 2) 5000 0 true (Some 5000) 105000) = 0 /\
   debits (mkDaily (mkdate 2024 1 2) 5000 0 true (Some 5000) 105000) = 0).
Proof.
  apply (credits_and_debits_signed one_confirmed_store "u" (mkdate 2024 1 1)
           (mkdate 2024 1 3)).
  vm_compute. right. left. reflexivity.
Defined.

(** X22. In that calendar a day is marked actual exactly when it lies
    between the dates of two of the user's occurrences from the anchor
    date on (the first and the last at the extremes) and every occurrence
    of the user on that day is confirmed; a day of that span without
    occurrences is therefore actual, a day outside it is not. *)
Theorem is_actual_spec st u vs ve B a r :
  get_user_settings st u = Some (B, a) ->
  selected_after st u a <> [] ->
  valid_date a = true -> valid_date ve = true -> dates_valid st ->
  In r (get_calendar_data st u vs ve) ->
  is_actual r = true <->
  (exists t1 t2,
     In t1 (selected_after st u a) /\ In t2 (selected_after st u a) /\
     date_le (t_date t1) (date r) /\ date_le (date r) (t_date t2)) /\
  (forall t, In t (occurrences_on st u (date r)) -> is_confirmed t = 1).
Proof.
  intros Hs Hne Ha Hve Hd Hin.
  destruct (calendar_row_after_anchor st u vs ve B a r Hs Hne Ha Hve Hin)
    as (Hvr & Har & _).
  rewrite (calendar_row_of st u vs ve B a r Hs Hne Ha Hve Hd Hin) at 1.
  cbn [is_actual calendar_row].
  rewrite andb_true_iff, forallb_forall.
  rewrite (in_span_spec _ (date r) (selected_after_valid st u a Hd)).
  split.
  - intros ((_ & Hspan) & Hall). split; [exact Hspan|].
    intros t Ht. apply Z.eqb_eq, Hall, on_day_selected; assumption.
  - intros (Hspan & Hall). split; [split; assumption|].
    intros t Ht. apply Z.eqb_eq, Hall. apply (on_day_selected st u a); assumption.
Qed.

Lemma is_actual_spec_witness :
  is_actual (mkDaily (mkdate 2024 1 2) 5000 0 true (Some 5000) 105000) = true <->
  (exists t1 t2,
     In t1 (selected_after one_confirmed_store "u" (mkdate 2024 1 1)) /\
     In t2 (selected_after one_confirmed_store "u" (mkdate 2024 1 1)) /\
     date_le (t_date t1) (mkdate 2024 1 2) /\ date_le (mkdate 2024 1 2) (t_date t2)) /\
  (forall t, In t (occurrences_on one_confirmed_store "u" (mkdate 2024 1 2)) ->
             is_confirmed t = 1).
Proof.
  apply (is_actual_spec one_confirmed_store "u" (mkdate 2024 1 1) (mkdate 2024 1 3)
           100000 (mkdate 2024 1 1)).
  - reflexivity.
  - vm_compute. discriminate.
  - reflexivity.
  - reflexivity.
  - exact one_confirmed_dates_valid.
  - vm_compute. right. left. reflexivity.
Defined.

(** ** Windows *)

(** X23. The rows of a view window do not depend on the window they were
    computed for: the calendar of a window that lies inside another one
    is the part of the wider calendar whose days fall into the narrower
    window, balances included. *)
Theorem narrower_window_is_slice st u vs ve vs' ve' :
  (forall B a, get_user_settings st u = Some (B, a) -> valid_date a = true) ->
  dates_valid st ->
  valid_date vs = true -> valid_date ve = true ->
  valid_date vs' = true -> valid_date ve' = true ->
  date_le vs vs' -> date_le ve' ve ->
  get_calendar_data st u vs' ve'
  = filter (fun r => in_view vs' ve' (date r)) (get_calendar_data st u vs ve).
Proof.
  intros Hanchor Hd Hvs Hve Hvs' Hve' Hss Hee.
  destruct (get_user_settings st u) as [[B a]|] eqn:Hs.
  - pose proof (Hanchor B a eq_refl) as Ha.
    destruct (selected_after st u a) as [|t0 sel] eqn:Esel.
    + rewrite !(calendar_flat st u _ _ B a Hs Esel).
      rewrite (filter_map_date _ (fun d => d)) by reflexivity.
      f_equal. symmetry. apply date_range_slice; try assumption.
      intros x. split; [tauto|]. intros H. split; [exact H|].
      eapply date_le_trans; eassumption.
    + assert (Hne : selected_after st u a <> []) by (rewrite Esel; discriminate).
      rewrite !(get_calendar_data_closed st u _ _ B a Hs Hne) by assumption.
      rewrite (filter_map_date _ (fun d => d)) by apply calendar_row_date.
      f_equal. symmetry.
      apply date_range_slice; try assumption; try (apply date_max_valid; assumption).
      intros x. rewrite !date_max_le. split; [tauto|].
      intros [H1 H2]. repeat split; try assumption.
      eapply date_le_trans; eassumption.
  - unfold get_calendar_data. rewrite Hs. reflexivity.
Qed.

Lemma narrower_window_is_slice_witness :
  get_calendar_data one_confirmed_store "u" (mkdate 2024 1 2) (mkdate 2024 1 3)
  = filter (fun r => in_view (mkdate 2024 1 2) (mkdate 2024 1 3) (date r))
           (get_calendar_data one_confirmed_store "u" (mkdate 2023 12 30) (mkdate 2024 1 5)).
Proof.
  apply narrower_window_is_slice.
  - intros B a H. vm_compute in H. inversion H. reflexivity.
  - exact one_confirmed_dates_valid.
  - reflexivity.
  - reflexivity.
  - reflexivity.
  - reflexivity.
  - reflexivity.
  - reflexivity.
Defined.

(** ** Edits and the calendar *)

(** X24. An occurrence that [add_transaction] stores on a day [d]
    changes nothing before [d]: on every day from the anchor date up to
    the day before [d] the balance, the credits and the debits of the
    calendar are what they were. *)
Theorem add_transaction_keeps_earlier_days
    st u vs ve B a d c desc amt conf sid st' id r r' :
  add_transaction_call st u d c desc amt conf sid = Committed st' id ->
  get_user_settings st u = Some (B, a) ->
  valid_date a = true -> valid_date ve = true -> dates_valid st ->
  valid_date d = true ->
  In r (get_calendar_data st u vs ve) ->
  In r' (get_calendar_data st' u vs ve) ->
  date r' = date r -> date_le a (date r) -> date_lt (date r) d ->
  balance r' = balance r /\ credits r' = credits r /\ debits r' = debits r.
Proof.
  intros Hcall Hs Ha Hve Hd Hvd Hr Hr' Edate Hle Hlt.
  destruct (add_transaction_call_committed _ _ _ _ _ _ _ _ _ _ Hcall) as (-> & _).
  pose proof (dates_valid_add st u d c desc amt conf sid Hd Hvd) as Hd'.
  assert (Hle' : date_le a (date r')) by (rewrite Edate; exact Hle).
  assert (Hne : date r <> d).
  { intros E. rewrite E in Hlt. exact (date_lt_irrefl d Hlt). }
  assert (Hnot : date_leb d (date r) = false).
  { unfold date_leb. unfold date_lt in Hlt. rewrite Hlt. reflexivity. }
  split.
  - rewrite (calendar_balance st u vs ve B a r Hs Ha Hve Hd Hr Hle).
    rewrite (calendar_balance (fst (add_transaction st u d c desc amt conf sid))
               u vs ve B a r' Hs Ha Hve Hd' Hr' Hle').
    rewrite occurrences_between_add, Edate, Hnot, andb_false_r, app_nil_r. reflexivity.
  - destruct (calendar_day_sums st u vs ve B a r Hs Hd Hr Hle) as [Ec Eb].
    destruct (calendar_day_sums (fst (add_transaction st u d c desc amt conf sid))
                u vs ve B a r' Hs Hd' Hr' Hle') as [Ec' Eb'].
    rewrite Ec, Eb, Ec', Eb', Edate, occurrences_on_add by exact Hne.
    split; reflexivity.
Qed.

Lemma add_transaction_keeps_earlier_days_witness :
  add_transaction_call one_confirmed_store "u" (mkdate 2024 1 5) None "fee" (-2000) 0 None
  = Committed
      (fst (add_transaction one_confirmed_store "u" (mkdate 2024 1 5) None "fee"
              (-2000) 0 None)) 2 /\
  balance (mkDaily (mkdate 2024 1 3) 0 0 true (Some 0) 105000)
  = balance (mkDaily (mkdate 2024 1 3) 0 0 false (Some 0) 105000) /\
  credits (mkDaily (mkdate 2024 1 3) 0 0 true (Some 0) 105000)
  = credits (mkDaily (mkdate 2024 1 3) 0 0 false (Some 0) 105000) /\
  debits (mkDaily (mkdate 2024 1 3) 0 0 true (Some 0) 105000)
  = debits (mkDaily (mkdate 2024 1 3) 0 0 false (Some 0) 105000).
Proof.
  assert (H : add_transaction_call one_confirmed_store "u" (mkdate 2024 1 5) None "fee"
                (-2000) 0 None
              = Committed
                  (fst (add_transaction one_confirmed_store "u" (mkdate 2024 1 5) None
                          "fee" (-2000) 0 None)) 2) by (vm_compute; reflexivity).
  split; [exact H|].
  apply (add_transaction_keeps_earlier_days one_confirmed_store "u" (mkdate 2024 1 1)
           (mkdate 2024 1 5) 100000 (mkdate 2024 1 1) (mkdate 2024 1 5) None
           "fee" (-2000) 0 None _ 2 _ _ H).
  - reflexivity.
  - reflexivity.
  - reflexivity.
  - exact one_confirmed_dates_valid.
  - reflexivity.
  - vm_compute. right. right. left. reflexivity.
  - vm_compute. right. right. left. reflexivity.
  - reflexivity.
  - reflexivity.
  - reflexivity.
Defined.

(** X25. Deleting a category changes no calendar: it rewrites only the
    category column of rules and occurrences, which [get_calendar_data]
    does not read. *)
Theorem delete_category_keeps_calendar st cid u v vs ve :
  get_calendar_data (delete_category st cid u) v vs ve = get_calendar_data st v vs ve.
Proof.
  apply get_calendar_data_days; [reflexivity|].
  intros a. unfold selected_after, delete_category. cbn [transactions].
  rewrite selected_after_map.
  - apply map_map_In. intros t _.
    destruct (opt_Z_eqb (t_category_id t) cid && String.eqb (t_user_id t) u); reflexivity.
  - intros t _.
    destruct (opt_Z_eqb (t_category_id t) cid && String.eqb (t_user_id t) u);
      split; reflexivity.
Qed.

(** X26. Updating an occurrence without changing its date and its amount
    (confirming it, renaming it, moving it to another category) changes
    at most the [is_actual] column of the calendar: dates, credits,
    debits, net changes and balances stay as they were, for every user. *)
Theorem update_keeping_amount_keeps_balances st tid u d c desc amt conf v vs ve :
  (forall t, In t (transactions st) ->
             transaction_id t = tid -> t_user_id t = u ->
             t_date t = d /\ t_amount t = amt) ->
  map row_amounts (get_calendar_data (update_transaction st tid u d c desc amt conf) v vs ve)
  = map row_amounts (get_calendar_data st v vs ve).
Proof.
  intros Hsame.
  assert (Hf : forall t, In t (transactions st) ->
             tx_amounts (if (transaction_id t =? tid) && String.eqb (t_user_id t) u
                         then mkTransaction (transaction_id t) (t_user_id t)
                                (t_schedule_id t) c d desc amt conf
                         else t)
             = tx_amounts t /\
             t_user_id (if (transaction_id t =? tid) && String.eqb (t_user_id t) u
                        then mkTransaction (transaction_id t) (t_user_id t)
                               (t_schedule_id t) c d desc amt conf
                        else t)
             = t_user_id t).
  { intros t Ht.
    destruct ((transaction_id t =? tid) && String.eqb (t_user_id t) u) eqn:E;
      [|split; reflexivity].
    apply andb_true_iff in E. destruct E as [E1 E2].
    apply Z.eqb_eq in E1. apply String.eqb_eq in E2.
    destruct (Hsame t Ht E1 E2) as [Ed Ea].
    unfold tx_amounts. cbn. rewrite Ed, Ea. split; reflexivity. }
  apply get_calendar_data_amounts; [reflexivity|].
  intros a. unfold selected_after, update_transaction. cbn [transactions].
  rewrite selected_after_map.
  - apply map_map_In. intros t Ht. apply filter_In in Ht. apply Hf, Ht.
  - intros t Ht. destruct (Hf t Ht) as [E1 E2]. split; [exact E2|].
    apply tx_amounts_eq in E1. apply E1.
Qed.

Lemma update_keeping_amount_keeps_balances_witness :
  map row_amounts
    (get_calendar_data
       (update_transaction one_confirmed_store 1 "u" (mkdate 2024 1 2) None
          "refund (pending)" 5000 0)
       "u" (mkdate 2024 1 1) (mkdate 2024 1 3))
  = map row_amounts
      (get_calendar_data one_confirmed_store "u" (mkdate 2024 1 1) (mkdate 2024 1 3)).
Proof.
  apply update_keeping_amount_keeps_balances.
  intros t Ht _ _. vm_compute in Ht. destruct Ht as [<-|[]].
  split; reflexivity.
Defined.

(** ** The first view ([Home.py]) *)

(** X27. On the first run the view window is the current month: the view
    end computed as day 28 plus four days, minus the day number reached,
    is the last day of the month of [today], and the days from the view
    start to the view end are exactly the calendar dates with the year
    and the month of [today]. *)
Theorem first_view_is_current_month today :
  valid_date today = true ->
  calendar_view_end today
  = mkdate (year today) (month today) (days_in_month (year today) (month today)) /\
  forall x,
    In x (date_range (calendar_view_start today) (calendar_view_end today)) <->
    valid_date x = true /\ year x = year today /\ month x = month today.
Proof.
  intros Hv. apply valid_date_spec in Hv. destruct Hv as [Hm _].
  pose proof (calendar_view_end_eq today Hm) as E. split; [exact E|].
  intros x. rewrite E. unfold calendar_view_start, replace_day.
  pose proof (days_in_month_bounds (year today) (month today)) as HD.
  rewrite date_range_spec.
  - apply month_window. exact Hm.
  - apply valid_date_spec. cbn [year month day]. lia.
  - apply valid_date_spec. cbn [year month day]. lia.
Qed.

Lemma first_view_is_current_month_witness :
  calendar_view_end (mkdate 2024 2 15) = mkdate 2024 2 29 /\
  forall x,
    In x (date_range (calendar_view_start (mkdate 2024 2 15))
                     (calendar_view_end (mkdate 2024 2 15))) <->
    valid_date x = true /\ year x = 2024 /\ month x = 2.
Proof.
  apply (first_view_is_current_month (mkdate 2024 2 15)). reflexivity.
Defined.

(** ** The two arithmetics *)

(** X30. The days and the [is_actual] flags of the calendar are the same
    whether the amounts are added exactly or as binary64 numbers: the
    rows that the code computes in doubles have, in order, the dates and
    flags of the rows of the exact calendar. *)
Theorem binary64_same_days_and_flags st u vs ve :
  map binary64_row_flags (Binary64.get_calendar_data st u vs ve)
  = map row_flags (get_calendar_data st u vs ve).
Proof. apply binary64_flags. Qed.
